(** * A shallow embedding of the dungeonsAnddragons game engine

  The development follows the Python sources under [app/core]:
  [dice.py] (modules [Dice] and [Rolls]), [character.py] (modules
  [Char] and [CharOps]), [encounter.py] (modules [Enc] and [Combat])
  and [session.py] (modules [Sess] and [Story]).

  Python [int] is unbounded and is modelled by [Z]; [//] is floor
  division, which is [Z.div] for a positive divisor.  Python [str] is
  modelled by [string], whose 8-bit characters are read as the code
  points U+0000 .. U+00FF.  Methods that mutate [self] become functions
  returning the new object (and the returned dictionary, as a record);
  a raised exception becomes the [Raise] case of [Res]. *)

From Stdlib Require Import ZArith List String Ascii Bool Lia.
From Stdlib Require Import Sorting.Permutation Sorting.Sorted.
From stdpp Require Import base tactics option list strings pretty gmap.

Local Open Scope string_scope.
Local Open Scope list_scope.
Local Open Scope Z_scope.

Set Warnings "-register-all".

(** ** Python built-ins used by the sources *)

Module Py.

(** Exceptions raised by the modelled code. *)
Inductive Exn : Type :=
| ValueError (msg : string)
| OtherError (msg : string).

(** Result of a call that may raise. *)
Inductive Res (A : Type) : Type :=
| Ok (a : A)
| Raise (e : Exn).
Arguments Ok {A} a.
Arguments Raise {A} e.

Definition bind {A B : Type} (r : Res A) (k : A -> Res B) : Res B :=
  match r with
  | Ok a => k a
  | Raise e => Raise e
  end.

(** [str.isspace] on one code point below U+0100. *)
Definition isspace (c : ascii) : bool :=
  let n := nat_of_ascii c in
  ((9 <=? n) && (n <=? 13) || (28 <=? n) && (n <=? 32)
   || (n =? 133) || (n =? 160))%nat.

(** [str.lower] on one code point below U+0100: A-Z and the accented
    capitals U+00C0 .. U+00DE (the multiplication sign excepted). *)
Definition lower_char (c : ascii) : ascii :=
  let n := nat_of_ascii c in
  if ((65 <=? n) && (n <=? 90)
      || (192 <=? n) && (n <=? 222) && negb (n =? 215))%nat
  then ascii_of_nat (n + 32) else c.

Fixpoint lower (s : string) : string :=
  match s with
  | EmptyString => EmptyString
  | String c r => String (lower_char c) (lower r)
  end.

Fixpoint lstrip (s : string) : string :=
  match s with
  | EmptyString => EmptyString
  | String c r => if isspace c then lstrip r else s
  end.

(** Drops trailing white space: a character is kept when it is not a
    space or when something is kept after it. *)
Fixpoint rstrip (s : string) : string :=
  match s with
  | EmptyString => EmptyString
  | String c r =>
      match rstrip r with
      | EmptyString => if isspace c then EmptyString else String c EmptyString
      | r' => String c r'
      end
  end.

Definition strip (s : string) : string := rstrip (lstrip s).

(** [s.replace(" ", "")]. *)
Fixpoint remove_spaces (s : string) : string :=
  match s with
  | EmptyString => EmptyString
  | String c r =>
      if Ascii.eqb c " "%char then remove_spaces r
      else String c (remove_spaces r)
  end.

(** [d.get(key)] on a dictionary kept as an association list. *)
Fixpoint dict_get {V : Type} (key : string) (d : list (string * V)) : option V :=
  match d with
  | [] => None
  | (k, v) :: r => if String.eqb k key then Some v else dict_get key r
  end.

(** [x in xs] for a list of strings. *)
Fixpoint contains (x : string) (xs : list string) : bool :=
  match xs with
  | [] => false
  | y :: r => String.eqb y x || contains x r
  end.

(** [xs.remove(x)]: deletes the first occurrence only. *)
Fixpoint remove_first (x : string) (xs : list string) : list string :=
  match xs with
  | [] => []
  | y :: r => if String.eqb y x then r else y :: remove_first x r
  end.

(** The last character of a string, if any. *)
Fixpoint last_char (s : string) : option ascii :=
  match s with
  | EmptyString => None
  | String c EmptyString => Some c
  | String _ r => last_char r
  end.

(** The string is empty or ends in a character that is no white
    space. *)
Definition ends_clean (s : string) : Prop :=
  match last_char s with
  | Some c => isspace c = false
  | None => True
  end.

(** [sum(xs)]. *)
Definition sum (xs : list Z) : Z := fold_right Z.add 0 xs.

(** [sep.join(parts)]. *)
Fixpoint join (sep : string) (parts : list string) : string :=
  match parts with
  | [] => EmptyString
  | [p] => p
  | p :: rest => p +:+ sep +:+ join sep rest
  end.

(** The line feed of ["\n"]. *)
Definition nl : string := String (ascii_of_nat 10) EmptyString.

(** [xs[start:]] with Python's treatment of a negative or too large
    start index. *)
Definition slice_from {A : Type} (start : Z) (xs : list A) : list A :=
  let len := Z.of_nat (length xs) in
  if start <? 0
  then drop (Z.to_nat (Z.max (len + start) 0)) xs
  else drop (Z.to_nat (Z.min start len)) xs.

(** [sorted(xs, key=key, reverse=True)].  Python's sort is stable, also
    under [reverse=True], and the outcome of a stable sort is fixed by
    the keys; it is computed here by insertion from the right, each
    element going in front of the elements that arrived after it with
    a key not larger than its own. *)
Fixpoint insert_desc {A : Type} (key : A -> Z) (x : A) (xs : list A) : list A :=
  match xs with
  | [] => [x]
  | y :: r => if key x <? key y then y :: insert_desc key x r else x :: y :: r
  end.

Fixpoint sorted_reverse {A : Type} (key : A -> Z) (xs : list A) : list A :=
  match xs with
  | [] => []
  | x :: r => insert_desc key x (sorted_reverse key r)
  end.

(** Descending order of the keys. *)
Definition key_ge {A : Type} (key : A -> Z) (a b : A) : Prop := key b <= key a.

(** The elements carrying the key [k], in the order of the list. *)
Definition with_key {A : Type} (key : A -> Z) (k : Z) (xs : list A) : list A :=
  List.filter (fun a => key a =? k) xs.

End Py.

Import Py.

Notation "'let*' x ':=' r 'in' k" := (Py.bind r (fun x => k))
(at level 10, x name, r at level 200, k at level 200).

(** ** dice.py *)

Module Dice.

(** The process-wide generator of the [random] module: an unknown
    supply of integers read in sequence. *)
Record Rng : Type := mkRng {
  source : nat -> Z;
  cursor : nat
}.

(** [random.randint(a, b)]: some integer of [a .. b], and the generator
    moves on. *)
Definition randint (a b : Z) (g : Rng) : Z * Rng :=
  (a + source g (cursor g) mod (b - a + 1), mkRng (source g) (S (cursor g))).

(** The dictionary returned by [roll]. *)
Record Roll : Type := mkRoll {
  rolls : list Z;
  modifier : Z;
  total : Z;
  description : string;
  sides : Z;
  count : Z
}.

(** [[random.randint(1, sides) for _ in range(count)]]. *)
Fixpoint roll_dice (sides : Z) (n : nat) (g : Rng) : list Z * Rng :=
  match n with
  | O => ([], g)
  | S k =>
      let '(r, g1) := randint 1 sides g in
      let '(rs, g2) := roll_dice sides k g1 in
      (r :: rs, g2)
  end.

Definition roll (sides count modifier : Z) (g : Rng) : Res Roll * Rng :=
  if (sides <? 1) || (count <? 1)
  then (Raise (ValueError "Sides and count must be positive integers"), g)
  else
    let '(rs, g1) := roll_dice sides (Z.to_nat count) g in
    let total := Py.sum rs + modifier in
    let desc := pretty count +:+ "d" +:+ pretty sides in
    let desc := if 0 <? modifier then desc +:+ "+" +:+ pretty modifier
                else if modifier <? 0 then desc +:+ pretty modifier
                else desc in
    (Ok (mkRoll rs modifier total desc sides count), g1).

Definition d20 (modifier : Z) (g : Rng) : Res Roll * Rng := roll 20 1 modifier g.

(** *** The pattern [^(\d+)d(\d+)([+-]\d+)?$] *)

Definition is_digit (c : ascii) : bool :=
  let n := nat_of_ascii c in ((48 <=? n) && (n <=? 57))%nat.

Definition is_sign (c : ascii) : bool :=
  Ascii.eqb c "+"%char || Ascii.eqb c "-"%char.

(** A greedy [\d+] (or [\d*]): the longest prefix of digits and what
    follows it. *)
Fixpoint span_digits (s : string) : string * string :=
  match s with
  | EmptyString => (EmptyString, EmptyString)
  | String c r =>
      if is_digit c
      then let '(d, rest) := span_digits r in (String c d, rest)
      else (EmptyString, s)
  end.

(** What may follow a greedy run of digits. *)
Definition no_digit_ahead (s : string) : Prop :=
  match s with
  | EmptyString => True
  | String c _ => is_digit c = false
  end.

(** [$] without [re.MULTILINE]: at the end of the string, or just
    before a line feed that ends the string. *)
Definition at_end (s : string) : bool :=
  match s with
  | EmptyString => true
  | String c EmptyString => Ascii.eqb c (ascii_of_nat 10)
  | _ => false
  end.

Definition is_empty (s : string) : bool :=
  match s with EmptyString => true | _ => false end.

(** The groups of a successful match. *)
Record Match : Type := mkMatch {
  group1 : string;
  group2 : string;
  group3 : option string
}.

(** [re.match(pattern, s)].  A digit is neither [d], a sign nor a line
    feed, so giving back digits of a greedy run never helps and the
    matcher needs no backtracking. *)
Definition re_match (s : string) : option Match :=
  let '(g1, r1) := span_digits s in
  if is_empty g1 then None else
  match r1 with
  | String c1 r2 =>
      if negb (Ascii.eqb c1 "d"%char) then None else
      let '(g2, r3) := span_digits r2 in
      if is_empty g2 then None else
      if at_end r3 then Some (mkMatch g1 g2 None) else
      match r3 with
      | String sg r4 =>
          if negb (is_sign sg) then None else
          let '(g3, r5) := span_digits r4 in
          if is_empty g3 then None else
          if at_end r5 then Some (mkMatch g1 g2 (Some (String sg g3)))
          else None
      | EmptyString => None
      end
  | EmptyString => None
  end.

(** [int(s)] for a run of digits with an optional sign (the
    interpreter's limit on the number of digits is left out). *)
Definition digit_value (c : ascii) : Z := Z.of_nat (nat_of_ascii c) - 48.

Fixpoint int_digits (acc : Z) (s : string) : Z :=
  match s with
  | EmptyString => acc
  | String c r => int_digits (10 * acc + digit_value c) r
  end.

Definition int (s : string) : Z :=
  match s with
  | String c r =>
      if Ascii.eqb c "-"%char then - int_digits 0 r
      else if Ascii.eqb c "+"%char then int_digits 0 r
      else int_digits 0 s
  | EmptyString => 0
  end.

(** [dice_string.strip().lower().replace(" ", "")]. *)
Definition normalize (dice_string : string) : string :=
  Py.remove_spaces (Py.lower (Py.strip dice_string)).

Definition invalid_format (dice_string : string) : Exn :=
  ValueError ("Invalid dice format: " +:+ dice_string
              +:+ ". Use format like '1d20', '2d6+3'").

Definition parse_and_roll (dice_string : string) (g : Rng) : Res Roll * Rng :=
  let dice_string := normalize dice_string in
  match re_match dice_string with
  | None => (Raise (invalid_format dice_string), g)
  | Some m =>
      let count := int (group1 m) in
      let sides := int (group2 m) in
      let modifier := match group3 m with
                      | Some modifier_str => int modifier_str
                      | None => 0
                      end in
      roll sides count modifier g
  end.

(** *** The notation grammar, as the specification words it *)

(** A non-empty run of decimal digits. *)
Fixpoint all_digits (s : string) : bool :=
  match s with
  | EmptyString => true
  | String c r => is_digit c && all_digits r
  end.

Definition digits (s : string) : Prop :=
  s <> EmptyString /\ all_digits s = true.

(** [<count>d<sides>[<+|-><modifier>]]: the strings of the grammar,
    with the three parts they are made of. *)
Inductive notation : string -> string -> string -> option string -> Prop :=
| notation_plain (c s : string) :
    digits c -> digits s ->
    notation (c +:+ "d" +:+ s) c s None
| notation_modified (c s : string) (sg : ascii) (m : string) :
    digits c -> digits s -> is_sign sg = true -> digits m ->
    notation (c +:+ "d" +:+ s +:+ String sg m) c s (Some (String sg m)).

Definition in_grammar (s : string) : Prop :=
  exists c sd m, notation s c sd m.

(** The modifier a notation stands for. *)
Definition modifier_of (m : option string) : Z :=
  match m with Some modifier_str => int modifier_str | None => 0 end.

(** An error carries a string when its message contains it. *)
Definition carries (e : Exn) (s : string) : bool :=
  match e with
  | ValueError msg | OtherError msg =>
      match String.index 0 s msg with Some _ => true | None => false end
  end.

(** A generator for the examples. *)
Definition example_rng : Rng := mkRng (fun n => 7 * Z.of_nat n + 3) 0.

End Dice.

(** ** character.py *)

Module Char.

Record Character : Type := mkCharacter {
  name : string;
  character_class : string;
  level : Z;
  experience : Z;
  strength : Z;
  dexterity : Z;
  constitution : Z;
  intelligence : Z;
  wisdom : Z;
  charisma : Z;
  health : Z;
  max_health : Z;
  armor_class : Z;
  inventory : list string;
  gold : Z;
  conditions : list string;
  temporary_hp : Z
}.

(** Field assignments [self.f = v]. *)
Definition set_health (v : Z) (c : Character) : Character :=
  mkCharacter (name c) (character_class c) (level c) (experience c)
    (strength c) (dexterity c) (constitution c) (intelligence c) (wisdom c)
    (charisma c) v (max_health c) (armor_class c) (inventory c) (gold c)
    (conditions c) (temporary_hp c).

Definition set_max_health (v : Z) (c : Character) : Character :=
  mkCharacter (name c) (character_class c) (level c) (experience c)
    (strength c) (dexterity c) (constitution c) (intelligence c) (wisdom c)
    (charisma c) (health c) v (armor_class c) (inventory c) (gold c)
    (conditions c) (temporary_hp c).

Definition set_armor_class (v : Z) (c : Character) : Character :=
  mkCharacter (name c) (character_class c) (level c) (experience c)
    (strength c) (dexterity c) (constitution c) (intelligence c) (wisdom c)
    (charisma c) (health c) (max_health c) v (inventory c) (gold c)
    (conditions c) (temporary_hp c).

Definition set_temporary_hp (v : Z) (c : Character) : Character :=
  mkCharacter (name c) (character_class c) (level c) (experience c)
    (strength c) (dexterity c) (constitution c) (intelligence c) (wisdom c)
    (charisma c) (health c) (max_health c) (armor_class c) (inventory c)
    (gold c) (conditions c) v.

Definition set_level (v : Z) (c : Character) : Character :=
  mkCharacter (name c) (character_class c) v (experience c)
    (strength c) (dexterity c) (constitution c) (intelligence c) (wisdom c)
    (charisma c) (health c) (max_health c) (armor_class c) (inventory c)
    (gold c) (conditions c) (temporary_hp c).

Definition set_experience (v : Z) (c : Character) : Character :=
  mkCharacter (name c) (character_class c) (level c) v
    (strength c) (dexterity c) (constitution c) (intelligence c) (wisdom c)
    (charisma c) (health c) (max_health c) (armor_class c) (inventory c)
    (gold c) (conditions c) (temporary_hp c).

Definition set_conditions (v : list string) (c : Character) : Character :=
  mkCharacter (name c) (character_class c) (level c) (experience c)
    (strength c) (dexterity c) (constitution c) (intelligence c) (wisdom c)
    (charisma c) (health c) (max_health c) (armor_class c) (inventory c)
    (gold c) v (temporary_hp c).

Definition set_constitution (v : Z) (c : Character) : Character :=
  mkCharacter (name c) (character_class c) (level c) (experience c)
    (strength c) (dexterity c) v (intelligence c) (wisdom c)
    (charisma c) (health c) (max_health c) (armor_class c) (inventory c)
    (gold c) (conditions c) (temporary_hp c).

(** The [ability_scores] dictionary of [get_modifier]. *)
Definition ability_scores (c : Character) : list (string * Z) :=
  [ ("strength", strength c); ("dexterity", dexterity c);
    ("constitution", constitution c); ("intelligence", intelligence c);
    ("wisdom", wisdom c); ("charisma", charisma c) ].

Definition get_modifier (ability : string) (c : Character) : Res Z :=
  let ability := Py.lower ability in
  match Py.dict_get ability (ability_scores c) with
  | None => Raise (ValueError ("Unknown ability: " +:+ ability))
  | Some score => Ok ((score - 10) / 2)
  end.

(** The [hit_dice] table of [_calculate_starting_hp]. *)
Definition hit_dice : list (string * Z) :=
  [ ("fighter", 10); ("paladin", 10); ("ranger", 10); ("barbarian", 12);
    ("rogue", 8); ("monk", 8); ("bard", 8); ("cleric", 8); ("druid", 8);
    ("warlock", 8); ("wizard", 6); ("sorcerer", 6) ].

Definition _calculate_starting_hp (c : Character) : Res Z :=
  let base_hp := default 8 (Py.dict_get (Py.lower (character_class c)) hit_dice) in
  let* con_modifier := get_modifier "constitution" c in
  Ok (Z.max 1 (base_hp + con_modifier)).

(** [__post_init__]: the two sentinel tests, in source order. *)
Definition __post_init__ (c : Character) : Res Character :=
  let* c1 := (if max_health c =? 10
              then let* hp := _calculate_starting_hp c in
                   Ok (set_health hp (set_max_health hp c))
              else Ok c) in
  if armor_class c1 =? 10
  then let* m := get_modifier "dexterity" c1 in
       Ok (set_armor_class (10 + m) c1)
  else Ok c1.

(** The dictionary returned by [take_damage]. *)
Record DamageReport : Type := mkDamageReport {
  damage_taken : Z;
  temp_hp_lost : Z;
  health_lost : Z;
  current_health : Z;
  unconscious : bool
}.

Definition take_damage (damage : Z) (c : Character) : Character * DamageReport :=
  let temp_damage := Z.min damage (temporary_hp c) in
  let c1 := set_temporary_hp (temporary_hp c - temp_damage) c in
  let remaining_damage := damage - temp_damage in
  let actual_damage := Z.min remaining_damage (health c1) in
  let c2 := set_health (health c1 - actual_damage) c1 in
  (c2, mkDamageReport damage temp_damage actual_damage (health c2)
         (health c2 <=? 0)).

(** The dictionary returned by [heal]. *)
Record HealReport : Type := mkHealReport {
  healing_attempted : Z;
  healing_applied : Z;
  healed_health : Z;
  fully_healed : bool
}.

Definition heal (healing : Z) (c : Character) : Character * HealReport :=
  let old_health := health c in
  let c1 := set_health (Z.min (max_health c) (health c + healing)) c in
  let actual_healing := health c1 - old_health in
  (c1, mkHealReport healing actual_healing (health c1)
         (max_health c1 <=? health c1)).

Definition _level_up (old_level new_level : Z) (c : Character) : Res Character :=
  let levels_gained := new_level - old_level in
  let* m := get_modifier "constitution" c in
  let hp_gain := levels_gained * (5 + m) in
  let c1 := set_max_health (max_health c + Z.max 1 hp_gain) c in
  Ok (set_health (health c1 + hp_gain) c1).

Definition gain_experience (xp : Z) (c : Character) : Res Character :=
  let c1 := set_experience (experience c + xp) c in
  let new_level := 1 + experience c1 / 1000 in
  if level c1 <? new_level
  then let old_level := level c1 in
       _level_up old_level new_level (set_level new_level c1)
  else Ok c1.

(** [asdict(self)] lists every field; [from_dict] passes them back as
    keyword arguments to the generated [__init__], which stores them and
    runs [__post_init__]. *)
Definition to_dict (c : Character) : Character := c.
Definition from_dict (data : Character) : Res Character := __post_init__ data.

(** [Character(name, character_class, ...)] with the listed fields. *)
Definition new (fields : Character) : Res Character := __post_init__ fields.

(** The dataclass defaults. *)
Definition defaults (name character_class : string) : Character :=
  mkCharacter name character_class 1 0 10 10 10 10 10 10 10 10 10
    ["Basic weapon"; "Starting armor"; "Adventurer's pack"] 100 [] 0.

(** The data-model invariant of a character. *)
Definition health_invariant (c : Character) : Prop :=
  0 <= health c /\ health c <= max_health c.

Definition ability_modifier (score : Z) : Z := (score - 10) / 2.

End Char.

(** ** encounter.py *)

Module Enc.

Inductive CombatantType : Type := PLAYER | NPC | ENEMY.

Definition is_player (t : CombatantType) : bool :=
  match t with PLAYER => true | _ => false end.

Definition is_enemy (t : CombatantType) : bool :=
  match t with ENEMY => true | _ => false end.

(** A combatant object.  [character] is the optional reference to the
    owning [Character] object, kept as its address in the heap. *)
Record Combatant : Type := mkCombatant {
  name : string;
  combatant_type : CombatantType;
  health : Z;
  max_health : Z;
  armor_class : Z;
  initiative : Z;
  character : option nat;
  is_conscious : bool;
  conditions : list string
}.

Definition set_health (v : Z) (c : Combatant) : Combatant :=
  mkCombatant (name c) (combatant_type c) v (max_health c) (armor_class c)
    (initiative c) (character c) (is_conscious c) (conditions c).

Definition set_initiative (v : Z) (c : Combatant) : Combatant :=
  mkCombatant (name c) (combatant_type c) (health c) (max_health c)
    (armor_class c) v (character c) (is_conscious c) (conditions c).

Definition set_is_conscious (v : bool) (c : Combatant) : Combatant :=
  mkCombatant (name c) (combatant_type c) (health c) (max_health c)
    (armor_class c) (initiative c) (character c) v (conditions c).

Definition set_conditions (v : list string) (c : Combatant) : Combatant :=
  mkCombatant (name c) (combatant_type c) (health c) (max_health c)
    (armor_class c) (initiative c) (character c) (is_conscious c) v.

(** The dictionary returned by [Combatant.take_damage]. *)
Record DamageReport : Type := mkDamageReport {
  damage_taken : Z;
  current_health : Z;
  unconscious : bool
}.

Definition take_damage (damage : Z) (c : Combatant) : Combatant * DamageReport :=
  let actual_damage := Z.min damage (health c) in
  let c1 := set_health (health c - actual_damage) c in
  let c2 :=
    if health c1 <=? 0
    then let c' := set_is_conscious false c1 in
         if negb (Py.contains "unconscious" (conditions c'))
         then set_conditions (conditions c' ++ ["unconscious"]) c'
         else c'
    else c1 in
  (c2, mkDamageReport actual_damage (health c2) (negb (is_conscious c2))).

(** The dictionary returned by [Combatant.heal]. *)
Record HealReport : Type := mkHealReport {
  healing_applied : Z;
  healed_health : Z
}.

Definition heal (healing : Z) (c : Combatant) : Combatant * HealReport :=
  let old_health := health c in
  let c1 := set_health (Z.min (max_health c) (health c + healing)) c in
  let actual_healing := health c1 - old_health in
  let c2 :=
    if (0 <? health c1) && negb (is_conscious c1)
    then let c' := set_is_conscious true c1 in
         if Py.contains "unconscious" (conditions c')
         then set_conditions (Py.remove_first "unconscious" (conditions c')) c'
         else c'
    else c1 in
  (c2, mkHealReport actual_healing (health c2)).

(** The objects the encounter refers to.  [combatants] and [turn_order]
    of an encounter hold references to the same combatant objects, so a
    combatant hurt through one list is hurt in the other: both lists
    hold addresses into [combatant_objs]. *)
Record Heap : Type := mkHeap {
  combatant_objs : list Combatant;
  character_objs : list Char.Character
}.

Record Encounter : Type := mkEncounter {
  enc_name : string;
  combatants : list nat;
  turn_order : list nat;
  current_turn_index : Z;
  round_number : Z;
  is_active : bool;
  combat_log : list string
}.

Definition set_turn_order (v : list nat) (e : Encounter) : Encounter :=
  mkEncounter (enc_name e) (combatants e) v (current_turn_index e)
    (round_number e) (is_active e) (combat_log e).

Definition set_current_turn_index (v : Z) (e : Encounter) : Encounter :=
  mkEncounter (enc_name e) (combatants e) (turn_order e) v
    (round_number e) (is_active e) (combat_log e).

Definition set_round_number (v : Z) (e : Encounter) : Encounter :=
  mkEncounter (enc_name e) (combatants e) (turn_order e)
    (current_turn_index e) v (is_active e) (combat_log e).

Definition set_is_active (v : bool) (e : Encounter) : Encounter :=
  mkEncounter (enc_name e) (combatants e) (turn_order e)
    (current_turn_index e) (round_number e) v (combat_log e).

Definition set_combatants (v : list nat) (e : Encounter) : Encounter :=
  mkEncounter (enc_name e) v (turn_order e)
    (current_turn_index e) (round_number e) (is_active e) (combat_log e).

Definition set_combat_log (v : list string) (e : Encounter) : Encounter :=
  mkEncounter (enc_name e) (combatants e) (turn_order e)
    (current_turn_index e) (round_number e) (is_active e) v.

(** A combatant that is never read: every reference the encounter
    holds was obtained from a live object. *)
Definition no_combatant : Combatant :=
  mkCombatant "" NPC 0 0 0 0 None false [].

Definition deref (h : Heap) (r : nat) : Combatant :=
  default no_combatant (combatant_objs h !! r).

Definition store (r : nat) (c : Combatant) (h : Heap) : Heap :=
  mkHeap (<[r := c]> (combatant_objs h)) (character_objs h).

(** [Encounter(name)]. *)
Definition new (name : string) : Encounter :=
  mkEncounter name [] [] 0 0 false [].

Definition log_action (action : string) (e : Encounter) : Encounter :=
  set_combat_log
    (combat_log e ++ ["[Round " +:+ pretty (round_number e) +:+ "] " +:+ action]) e.

(** [add_combatant] appends the reference it is given. *)
Definition add_combatant (r : nat) (e : Encounter) : Encounter :=
  set_combatants (combatants e ++ [r]) e.

(** Allocation of a fresh combatant object. *)
Definition alloc (c : Combatant) (h : Heap) : nat * Heap :=
  (length (combatant_objs h),
   mkHeap (combatant_objs h ++ [c]) (character_objs h)).

Definition from_character (cref : nat) (ch : Char.Character) : Combatant :=
  mkCombatant (Char.name ch) PLAYER (Char.health ch) (Char.max_health ch)
    (Char.armor_class ch) 0 (Some cref) true (Char.conditions ch).

(** [add_player(character)], the character given by its address. *)
Definition add_player (cref : nat) (e : Encounter) (h : Heap) : Encounter * Heap :=
  match character_objs h !! cref with
  | Some ch =>
      let '(r, h1) := alloc (from_character cref ch) h in
      (add_combatant r e, h1)
  | None => (e, h)
  end.

Definition add_enemy (name : string) (health armor_class : Z)
    (e : Encounter) (h : Heap) : Encounter * Heap :=
  let '(r, h1) :=
    alloc (mkCombatant name ENEMY health health armor_class 0 None true []) h in
  (add_combatant r e, h1).

Definition add_npc (name : string) (health armor_class : Z)
    (e : Encounter) (h : Heap) : Encounter * Heap :=
  let '(r, h1) :=
    alloc (mkCombatant name NPC health health armor_class 0 None true []) h in
  (add_combatant r e, h1).

(** The [for] loop of [roll_initiative], over the references still to
    visit. *)
Fixpoint roll_each (todo : list nat) (e : Encounter) (h : Heap) (g : Dice.Rng)
    : Res (Encounter * Heap) * Dice.Rng :=
  match todo with
  | [] => (Ok (e, h), g)
  | r :: rest =>
      match Dice.d20 0 g with
      | (Raise ex, g1) => (Raise ex, g1)
      | (Ok initiative_roll, g1) =>
          let c := set_initiative (Dice.total initiative_roll) (deref h r) in
          let h1 := store r c h in
          let e1 := log_action (name c +:+ " rolled " +:+ pretty (initiative c)
                                +:+ " for initiative") e in
          roll_each rest e1 h1 g1
      end
  end.

Definition roll_initiative (e : Encounter) (h : Heap) (g : Dice.Rng)
    : Res (Encounter * Heap) * Dice.Rng :=
  match roll_each (combatants e) e h g with
  | (Raise ex, g1) => (Raise ex, g1)
  | (Ok (e1, h1), g1) =>
      let e2 := set_turn_order
                  (Py.sorted_reverse (fun r => initiative (deref h1 r)) (combatants e1))
                  e1 in
      let e3 := set_current_turn_index 0 e2 in
      let initiative_order :=
        Py.join ", "
          (map (fun r => let c := deref h1 r in
                         name c +:+ " (" +:+ pretty (initiative c) +:+ ")")
               (turn_order e3)) in
      (Ok (log_action ("Initiative order: " +:+ initiative_order) e3, h1), g1)
  end.

Definition start_combat (e : Encounter) (h : Heap) (g : Dice.Rng)
    : Res (Encounter * Heap) * Dice.Rng :=
  match combatants e with
  | [] => (Raise (ValueError "Cannot start combat without combatants"), g)
  | _ :: _ =>
      match roll_initiative e h g with
      | (Raise ex, g1) => (Raise ex, g1)
      | (Ok (e1, h1), g1) =>
          let e2 := set_is_active true e1 in
          let e3 := set_round_number 1 e2 in
          (Ok (log_action ("Combat started: " +:+ enc_name e3) e3, h1), g1)
      end
  end.

(** [[c for c in refs if c.combatant_type == t and c.is_conscious]]. *)
Definition conscious_of (side : CombatantType -> bool) (h : Heap) (refs : list nat)
    : list nat :=
  List.filter (fun r => side (combatant_type (deref h r)) && is_conscious (deref h r)) refs.

Definition should_end_combat (e : Encounter) (h : Heap) : bool :=
  let conscious_players := conscious_of is_player h (combatants e) in
  let conscious_enemies := conscious_of is_enemy h (combatants e) in
  (length conscious_players =? 0)%nat || (length conscious_enemies =? 0)%nat.

(** The loop that copies health and conditions back to the owning
    characters. *)
Fixpoint sync_characters (todo : list nat) (h : Heap) : Heap :=
  match todo with
  | [] => h
  | r :: rest =>
      let combatant := deref h r in
      let h1 :=
        match character combatant with
        | Some cref =>
            match character_objs h !! cref with
            | Some ch =>
                mkHeap (combatant_objs h)
                  (<[cref := Char.set_conditions (conditions combatant)
                               (Char.set_health (health combatant) ch)]>
                     (character_objs h))
            | None => h
            end
        | None => h
        end in
      sync_characters rest h1
  end.

Definition end_combat (e : Encounter) (h : Heap) : Encounter * Heap :=
  let e1 := set_is_active false e in
  let conscious_players := conscious_of is_player h (combatants e1) in
  let conscious_enemies := conscious_of is_enemy h (combatants e1) in
  let e2 :=
    if (0 <? length conscious_players)%nat && (length conscious_enemies =? 0)%nat
    then log_action "Victory! All enemies have been defeated!" e1
    else if (length conscious_players =? 0)%nat
    then log_action "Defeat! All players have fallen unconscious!" e1
    else log_action "Combat ended!" e1 in
  (e2, sync_characters (combatants e2) h).

Definition next_turn (e : Encounter) (h : Heap) : Encounter * Heap :=
  if negb (is_active e) then (e, h) else
  let e1 := set_current_turn_index (current_turn_index e + 1) e in
  if Z.of_nat (length (turn_order e1)) <=? current_turn_index e1
  then
    let e2 := set_current_turn_index 0 e1 in
    let e3 := set_round_number (round_number e2 + 1) e2 in
    let e4 := log_action ("Round " +:+ pretty (round_number e3) +:+ " begins") e3 in
    let e5 := set_turn_order
                (List.filter (fun r => is_conscious (deref h r)) (turn_order e4)) e4 in
    if should_end_combat e5 h then end_combat e5 h else (e5, h)
  else (e1, h).

(** What an attack or a spell does to its target: [target.take_damage]
    or [target.heal] on the combatant object. *)
Inductive Action : Type :=
| Damage (target : nat) (amount : Z)
| Healing (target : nat) (amount : Z).

Definition amount_of (a : Action) : Z :=
  match a with Damage _ amount | Healing _ amount => amount end.

Definition act (h : Heap) (a : Action) : Heap :=
  match a with
  | Damage r amount => store r (fst (take_damage amount (deref h r))) h
  | Healing r amount => store r (fst (heal amount (deref h r))) h
  end.

Definition acts (turn : list Action) (h : Heap) : Heap := fold_left act turn h.

(** One call of [next_turn] for each entry of the script, after the
    damage and healing dealt during that turn; an empty entry is a call
    with nothing before it. *)
Fixpoint play_turns (script : list (list Action)) (e : Encounter) (h : Heap)
    : Encounter * Heap :=
  match script with
  | [] => (e, h)
  | turn :: rest =>
      let '(e1, h1) := next_turn e (acts turn h) in play_turns rest e1 h1
  end.

(** The consciousness invariant of a combatant. *)
Definition consistent (c : Combatant) : Prop :=
  (is_conscious c = true <-> 0 < health c) /\
  (Py.contains "unconscious" (conditions c) = true <-> health c <= 0).

(** A combatant in good order: consistent, not above its maximum,
    which is not negative, and with conditions that form a set. *)
Definition sound (c : Combatant) : Prop :=
  consistent c /\
  (health c <= max_health c /\ 0 <= max_health c) /\
  NoDup (conditions c).

End Enc.

(** ** session.py *)

Module Sess.

(** The values [json.dump] writes and [json.load] reads back. *)
Inductive JSON : Type :=
| JNull
| JBool (b : bool)
| JInt (n : Z)
| JStr (s : string)
| JList (items : list JSON)
| JObj (fields : list (string * JSON)).

Record StoryEvent : Type := mkStoryEvent {
  timestamp : string;
  event_type : string;
  content : string;
  metadata : list (string * JSON)
}.

Record GameSession : Type := mkGameSession {
  session_id : string;
  sessions_dir : string;
  session_file : string;
  story_history : list StoryEvent;
  current_location : string;
  active_npcs : list string;
  current_scene : string;
  session_notes : list string;
  created_at : string;
  last_saved : option string;
  turn_count : Z;
  in_combat : bool;
  current_encounter : option string
}.

(** What a file holds: the text of a JSON document, kept as the value
    [json.load] returns for it, or text that [json.load] rejects. *)
Inductive FileData : Type :=
| Document (doc : JSON)
| Garbage (text : string).

(** The outside world of a session: the files, the paths that cannot
    be written, and the clock read by [datetime.now()]. *)
Record Env : Type := mkEnv {
  files : gmap string FileData;
  unwritable : gset string;
  clock : nat -> string;
  ticks : nat
}.

(** [datetime.now().isoformat()]. *)
Definition now (env : Env) : string * Env :=
  (clock env (ticks env),
   mkEnv (files env) (unwritable env) (clock env) (S (ticks env))).

(** [open(path, 'w')] followed by [json.dump]: [None] stands for the
    exception of a failed [open]. *)
Definition write_json (path : string) (doc : JSON) (env : Env) : option Env :=
  if decide (path ∈ unwritable env) then None
  else Some (mkEnv (<[path := Document doc]> (files env)) (unwritable env)
               (clock env) (ticks env)).

Fixpoint ends_with_slash (s : string) : bool :=
  match s with
  | EmptyString => false
  | String c EmptyString => Ascii.eqb c "/"%char
  | String _ r => ends_with_slash r
  end.

(** [os.path.join(a, b)] on a POSIX system. *)
Definition path_join (a b : string) : string :=
  match b with
  | String c _ =>
      if Ascii.eqb c "/"%char then b
      else if Dice.is_empty a || ends_with_slash a then a +:+ b
      else a +:+ "/" +:+ b
  | EmptyString =>
      if Dice.is_empty a || ends_with_slash a then a else a +:+ "/"
  end.

(** [GameSession(session_id, sessions_dir)]; the clock is read for
    [created_at].  The directory is taken to exist or to be creatable:
    the error of a failing [os.makedirs] is left out. *)
Definition new (session_id sessions_dir : string) (env : Env) : GameSession * Env :=
  let '(t, env1) := now env in
  (mkGameSession session_id sessions_dir
     (path_join sessions_dir (session_id +:+ ".json"))
     [] "Starting Village" [] "" [] t None 0 false None,
   env1).

Definition set_story_history (v : list StoryEvent) (s : GameSession) : GameSession :=
  mkGameSession (session_id s) (sessions_dir s) (session_file s) v
    (current_location s) (active_npcs s) (current_scene s) (session_notes s)
    (created_at s) (last_saved s) (turn_count s) (in_combat s)
    (current_encounter s).

Definition set_turn_count (v : Z) (s : GameSession) : GameSession :=
  mkGameSession (session_id s) (sessions_dir s) (session_file s)
    (story_history s) (current_location s) (active_npcs s) (current_scene s)
    (session_notes s) (created_at s) (last_saved s) v (in_combat s)
    (current_encounter s).

Definition set_last_saved (v : option string) (s : GameSession) : GameSession :=
  mkGameSession (session_id s) (sessions_dir s) (session_file s)
    (story_history s) (current_location s) (active_npcs s) (current_scene s)
    (session_notes s) (created_at s) v (turn_count s) (in_combat s)
    (current_encounter s).

Definition set_current_location (v : string) (s : GameSession) : GameSession :=
  mkGameSession (session_id s) (sessions_dir s) (session_file s)
    (story_history s) v (active_npcs s) (current_scene s)
    (session_notes s) (created_at s) (last_saved s) (turn_count s)
    (in_combat s) (current_encounter s).

(** [asdict(event)]. *)
Definition asdict (ev : StoryEvent) : JSON :=
  JObj [ ("timestamp", JStr (timestamp ev));
         ("event_type", JStr (event_type ev));
         ("content", JStr (content ev));
         ("metadata", JObj (metadata ev)) ].

Definition opt_str (o : option string) : JSON :=
  match o with Some s => JStr s | None => JNull end.

(** The [session_data] dictionary of [save_session]. *)
Definition session_data (s : GameSession) (stamp : string) : JSON :=
  JObj [ ("session_id", JStr (session_id s));
         ("created_at", JStr (created_at s));
         ("last_saved", JStr stamp);
         ("turn_count", JInt (turn_count s));
         ("current_location", JStr (current_location s));
         ("active_npcs", JList (map JStr (active_npcs s)));
         ("current_scene", JStr (current_scene s));
         ("session_notes", JList (map JStr (session_notes s)));
         ("in_combat", JBool (in_combat s));
         ("current_encounter", opt_str (current_encounter s));
         ("story_history", JList (map asdict (story_history s))) ].

Definition save_session (s : GameSession) (env : Env) : bool * GameSession * Env :=
  let '(stamp, env1) := now env in
  let data := session_data s stamp in
  match write_json (session_file s) data env1 with
  | Some env2 => (true, set_last_saved (Some stamp) s, env2)
  | None => (false, s, env1)
  end.

(** [StoryEvent.create] and [add_story_event]; [metadata or {}]. *)
Definition add_story_event (event_type content : string)
    (metadata : option (list (string * JSON)))
    (s : GameSession) (env : Env) : GameSession * Env :=
  let '(t, env1) := now env in
  let event := mkStoryEvent t event_type content (default [] metadata) in
  let s1 := set_story_history (story_history s ++ [event]) s in
  let s2 := set_turn_count (turn_count s1 + 1) s1 in
  if turn_count s2 mod 3 =? 0
  then let '(_, s3, env2) := save_session s2 env1 in (s3, env2)
  else (s2, env1).

(** The [if]/[elif] chain of [get_context]: an event of another kind
    adds no line. *)
Definition context_line (ev : StoryEvent) : list string :=
  if String.eqb (event_type ev) "dm_response" then ["DM: " +:+ content ev]
  else if String.eqb (event_type ev) "player_action" then ["Player: " +:+ content ev]
  else if String.eqb (event_type ev) "dice_roll" then ["Roll: " +:+ content ev]
  else if String.eqb (event_type ev) "system" then ["System: " +:+ content ev]
  else [].

Definition truthy (s : string) : bool := negb (Dice.is_empty s).

Definition header (s : GameSession) : list string :=
  (if truthy (current_location s)
   then ["Current Location: " +:+ current_location s] else [])
  ++ (if truthy (current_scene s)
      then ["Current Scene: " +:+ current_scene s] else [])
  ++ (match active_npcs s with
      | [] => []
      | _ :: _ => ["Active NPCs: " +:+ Py.join ", " (active_npcs s)]
      end)
  ++ (if in_combat s then ["Status: Currently in combat"] else []).

Definition get_context (last_n : Z) (s : GameSession) : string :=
  match story_history s with
  | [] => ""
  | _ :: _ =>
      let recent_events := Py.slice_from (- last_n) (story_history s) in
      let context_lines := header s ++ [""] in
      let context_lines := context_lines ++ concat (map context_line recent_events) in
      Py.join Py.nl context_lines
  end.

(** Readers for the values [load_session] takes out of the record.
    Python would store whatever JSON value it finds; the typed session
    can only hold the types [save_session] writes, and a record with
    other types is reported as a failed load. *)
Definition as_str (j : JSON) : option string :=
  match j with JStr s => Some s | _ => None end.

Definition as_opt_str (j : JSON) : option (option string) :=
  match j with JStr s => Some (Some s) | JNull => Some None | _ => None end.

Definition as_int (j : JSON) : option Z :=
  match j with JInt n => Some n | _ => None end.

Definition as_bool (j : JSON) : option bool :=
  match j with JBool b => Some b | _ => None end.

Definition as_dict (j : JSON) : option (list (string * JSON)) :=
  match j with JObj d => Some d | _ => None end.

Definition as_list (j : JSON) : option (list JSON) :=
  match j with JList l => Some l | _ => None end.

Definition as_str_list (j : JSON) : option (list string) :=
  l ← as_list j; mapM as_str l.

(** [d.get(key, fallback)]. *)
Definition get_or (key : string) (fallback : JSON) (d : list (string * JSON)) : JSON :=
  default fallback (Py.dict_get key d).

(** One turn of the loop over [story_data]. *)
Definition load_event (event_data : JSON) : option StoryEvent :=
  d ← as_dict event_data;
  ts ← as_str (get_or "timestamp" (JStr "") d);
  ty ← as_str (get_or "event_type" (JStr "unknown") d);
  co ← as_str (get_or "content" (JStr "") d);
  md ← as_dict (get_or "metadata" (JObj []) d);
  Some (mkStoryEvent ts ty co md).

Definition load_fields (s : GameSession) (doc : JSON) : option GameSession :=
  d ← as_dict doc;
  created ← as_str (get_or "created_at" (JStr (created_at s)) d);
  saved ← as_opt_str (get_or "last_saved" JNull d);
  turns ← as_int (get_or "turn_count" (JInt 0) d);
  location ← as_str (get_or "current_location" (JStr "Starting Village") d);
  npcs ← as_str_list (get_or "active_npcs" (JList []) d);
  scene ← as_str (get_or "current_scene" (JStr "") d);
  notes ← as_str_list (get_or "session_notes" (JList []) d);
  combat ← as_bool (get_or "in_combat" (JBool false) d);
  encounter ← as_opt_str (get_or "current_encounter" JNull d);
  story_data ← as_list (get_or "story_history" (JList []) d);
  history ← mapM load_event story_data;
  Some (mkGameSession (session_id s) (sessions_dir s) (session_file s)
          history location npcs scene notes created saved turns combat
          encounter).

(** [load_session]: a missing file, a file that is not JSON and a
    record that cannot be read all give [False]. *)
Definition load_session (s : GameSession) (env : Env) : bool * GameSession :=
  match files env !! session_file s with
  | None => (false, s)
  | Some (Garbage _) => (false, s)
  | Some (Document doc) =>
      match load_fields s doc with
      | Some s1 => (true, s1)
      | None => (false, s)
      end
  end.

Definition session_exists (s : GameSession) (env : Env) : bool :=
  bool_decide (is_Some (files env !! session_file s)).

(** The last [n] elements of a list. *)
Definition last_events {A : Type} (n : Z) (xs : list A) : list A :=
  drop (length xs - Z.to_nat n)%nat xs.

(** The role label of an event kind, for the four kinds that have
    one. *)
Definition role_label (event_type : string) : option string :=
  if String.eqb event_type "dm_response" then Some "DM"
  else if String.eqb event_type "player_action" then Some "Player"
  else if String.eqb event_type "dice_roll" then Some "Roll"
  else if String.eqb event_type "system" then Some "System"
  else None.

(** An empty world for the examples; its clock counts the readings. *)
Definition example_env : Env := mkEnv ∅ ∅ (fun n => pretty n) 0.

End Sess.

(** ** dice.py: the other rolls *)

Module Rolls.

Definition d6 (count modifier : Z) (g : Dice.Rng) : Res Dice.Roll * Dice.Rng :=
  Dice.roll 6 count modifier g.

Definition d4 (count modifier : Z) (g : Dice.Rng) : Res Dice.Roll * Dice.Rng :=
  Dice.roll 4 count modifier g.

Definition d8 (count modifier : Z) (g : Dice.Rng) : Res Dice.Roll * Dice.Rng :=
  Dice.roll 8 count modifier g.

Definition d10 (count modifier : Z) (g : Dice.Rng) : Res Dice.Roll * Dice.Rng :=
  Dice.roll 10 count modifier g.

Definition d12 (count modifier : Z) (g : Dice.Rng) : Res Dice.Roll * Dice.Rng :=
  Dice.roll 12 count modifier g.

(** The dictionary returned by [ability_score_roll]. *)
Record ScoreRoll : Type := mkScoreRoll {
  score_rolls : list Z;
  kept : list Z;
  dropped : Z;
  score_total : Z;
  score_description : string;
  score_modifier : Z;
  score_sides : Z;
  score_count : Z
}.

(** [ability_score_roll]: [rolls.sort(reverse=True)], [rolls[:3]] and
    [rolls[3]], which would raise [IndexError] on a shorter list. *)
Definition ability_score_roll (g : Dice.Rng) : Res ScoreRoll * Dice.Rng :=
  let '(raw, g1) := Dice.roll_dice 6 4 g in
  let rolls := Py.sorted_reverse (fun x => x) raw in
  let kept_rolls := take 3 rolls in
  match rolls !! 3%nat with
  | None => (Raise (OtherError "IndexError: list index out of range"), g1)
  | Some dropped =>
      (Ok (mkScoreRoll rolls kept_rolls dropped (Py.sum kept_rolls)
             "4d6 drop lowest" 0 6 4), g1)
  end.

(** The dictionary returned by [advantage], [disadvantage] and
    [ability_check]; a key that is absent is [None]. *)
Record Check : Type := mkCheck {
  rolls : list Z;
  total : Z;
  modifier : Z;
  description : string;
  advantage_key : option bool;
  disadvantage_key : option bool;
  sides : Z;
  count : Z;
  ability_score : option Z
}.

Definition advantage (g : Dice.Rng) : Check * Dice.Rng :=
  let '(roll1, g1) := Dice.randint 1 20 g in
  let '(roll2, g2) := Dice.randint 1 20 g1 in
  (mkCheck [roll1; roll2] (Z.max roll1 roll2) 0 "Advantage (2d20, take higher)"
     (Some true) None 20 2 None, g2).

Definition disadvantage (g : Dice.Rng) : Check * Dice.Rng :=
  let '(roll1, g1) := Dice.randint 1 20 g in
  let '(roll2, g2) := Dice.randint 1 20 g1 in
  (mkCheck [roll1; roll2] (Z.min roll1 roll2) 0 "Disadvantage (2d20, take lower)"
     None (Some true) 20 2 None, g2).

(** The three assignments [result["modifier"] = modifier],
    [result["total"] += modifier] and the signed suffix of the
    description. *)
Definition with_modifier (modifier : Z) (c : Check) : Check :=
  mkCheck (rolls c) (total c + modifier) modifier
    (description c +:+ (if 0 <=? modifier then " + " +:+ pretty modifier
                        else " " +:+ pretty modifier))
    (advantage_key c) (disadvantage_key c) (sides c) (count c) (ability_score c).

Definition with_ability_score (score : Z) (c : Check) : Check :=
  mkCheck (rolls c) (total c) (modifier c) (description c)
    (advantage_key c) (disadvantage_key c) (sides c) (count c) (Some score).

(** The dictionary of [roll], seen as a check result. *)
Definition of_roll (r : Dice.Roll) : Check :=
  mkCheck (Dice.rolls r) (Dice.total r) (Dice.modifier r) (Dice.description r)
    None None (Dice.sides r) (Dice.count r) None.

Definition ability_check (ability_score : Z) (advantage_flag disadvantage_flag : bool)
    (g : Dice.Rng) : Res Check * Dice.Rng :=
  let modifier := (ability_score - 10) / 2 in
  if advantage_flag && negb disadvantage_flag then
    let '(result, g1) := advantage g in
    (Ok (with_ability_score ability_score (with_modifier modifier result)), g1)
  else if disadvantage_flag && negb advantage_flag then
    let '(result, g1) := disadvantage g in
    (Ok (with_ability_score ability_score (with_modifier modifier result)), g1)
  else
    match Dice.d20 modifier g with
    | (Ok result, g1) => (Ok (with_ability_score ability_score (of_roll result)), g1)
    | (Raise ex, g1) => (Raise ex, g1)
    end.

End Rolls.

(** ** character.py: conditions, inventory, status *)

Module CharOps.

Import Char.

Definition set_inventory (v : list string) (c : Character) : Character :=
  mkCharacter (name c) (character_class c) (level c) (experience c)
    (strength c) (dexterity c) (constitution c) (intelligence c) (wisdom c)
    (charisma c) (health c) (max_health c) (armor_class c) v (gold c)
    (conditions c) (temporary_hp c).

Definition add_condition (condition : string) (c : Character) : Character :=
  if negb (Py.contains condition (conditions c))
  then set_conditions (conditions c ++ [condition]) c
  else c.

Definition remove_condition (condition : string) (c : Character) : Character :=
  if Py.contains condition (conditions c)
  then set_conditions (Py.remove_first condition (conditions c)) c
  else c.

Definition has_condition (condition : string) (c : Character) : bool :=
  Py.contains condition (conditions c).

Definition add_item (item : string) (c : Character) : Character :=
  set_inventory (inventory c ++ [item]) c.

Definition remove_item (item : string) (c : Character) : Character * bool :=
  if Py.contains item (inventory c)
  then (set_inventory (Py.remove_first item (inventory c)) c, true)
  else (c, false).

Definition has_item (item : string) (c : Character) : bool :=
  Py.contains item (inventory c).

Definition is_alive (c : Character) : bool := 0 <? health c.

Definition is_conscious (c : Character) : bool :=
  (0 <? health c) && negb (has_condition "unconscious" c).

(** The six names [get_modifier] knows. *)
Definition ability_names : list string :=
  ["strength"; "dexterity"; "constitution"; "intelligence"; "wisdom"; "charisma"].

End CharOps.

(** ** encounter.py: the current combatant, attacks, spells, the log *)

Module Combat.

Import Enc.

(** [xs[i]] with Python's negative indices; [None] is [IndexError]. *)
Definition py_index {A : Type} (xs : list A) (i : Z) : option A :=
  let len := Z.of_nat (length xs) in
  if (0 <=? i) && (i <? len) then xs !! Z.to_nat i
  else if (- len <=? i) && (i <? 0) then xs !! Z.to_nat (len + i)
  else None.

Definition get_current_combatant (e : Encounter) : Res (option nat) :=
  if negb (is_active e) || (length (turn_order e) =? 0)%nat then Ok None
  else match py_index (turn_order e) (current_turn_index e) with
       | Some r => Ok (Some r)
       | None => Raise (OtherError "IndexError: list index out of range")
       end.

(** The dictionaries [attack] returns, by the keys they hold. *)
Inductive AttackResult : Type :=
| AttackRefused (error : string)
| AttackMissed (attacker target : string) (attack_roll target_ac : Z)
| AttackHit (attacker target : string) (attack_roll target_ac damage : Z)
    (damage_roll : Dice.Roll) (target_health : Z) (target_unconscious : bool)
| AttackBadDice (attacker target : string) (attack_roll target_ac : Z)
    (error : string).

(** [attack(attacker, target, weapon_damage)], the two combatants given
    by their references.  The state is returned also when an exception
    leaves the call. *)
Definition attack (attacker target : nat) (weapon_damage : string)
    (e : Encounter) (h : Heap) (g : Dice.Rng)
    : Res AttackResult * Encounter * Heap * Dice.Rng :=
  if negb (is_conscious (deref h attacker)) then
    (Ok (AttackRefused (name (deref h attacker)
                        +:+ " is unconscious and cannot attack")), e, h, g)
  else if negb (is_conscious (deref h target)) then
    (Ok (AttackRefused (name (deref h target) +:+ " is already unconscious")), e, h, g)
  else
    match Dice.d20 0 g with
    | (Raise ex, g1) => (Raise ex, e, h, g1)
    | (Ok attack_roll, g1) =>
        let attack_total := Dice.total attack_roll in
        let hits := armor_class (deref h target) <=? attack_total in
        if hits then
          match Dice.parse_and_roll weapon_damage g1 with
          | (Raise (ValueError _), g2) =>
              (Ok (AttackBadDice (name (deref h attacker)) (name (deref h target))
                     attack_total (armor_class (deref h target))
                     ("Invalid damage roll: " +:+ weapon_damage)), e, h, g2)
          | (Raise ex, g2) => (Raise ex, e, h, g2)
          | (Ok damage_roll, g2) =>
              let damage := Z.max 1 (Dice.total damage_roll) in
              let h1 := store target (fst (take_damage damage (deref h target))) h in
              let t := deref h1 target in
              let e1 := log_action
                          (name (deref h1 attacker) +:+ " hits " +:+ name t +:+ " for "
                           +:+ pretty damage +:+ " damage! (" +:+ name t +:+ ": "
                           +:+ pretty (health t) +:+ "/" +:+ pretty (max_health t)
                           +:+ " HP)") e in
              let e2 := if negb (is_conscious t)
                        then log_action (name t +:+ " falls unconscious!") e1
                        else e1 in
              (Ok (AttackHit (name (deref h attacker)) (name (deref h target))
                     attack_total (armor_class (deref h target)) damage damage_roll
                     (health t) (negb (is_conscious t))), e2, h1, g2)
          end
        else
          (Ok (AttackMissed (name (deref h attacker)) (name (deref h target))
                 attack_total (armor_class (deref h target))),
           log_action (name (deref h attacker) +:+ " attacks " +:+ name (deref h target)
                       +:+ " but misses! (rolled " +:+ pretty attack_total
                       +:+ " vs AC " +:+ pretty (armor_class (deref h target)) +:+ ")") e,
           h, g1)
    end.

(** One entry of the ["effects"] list of [cast_spell]. *)
Record Effect : Type := mkEffect {
  effect_target : string;
  effect_type : string;
  effect_amount : Z;
  effect_target_health : Z
}.

(** The dictionaries [cast_spell] returns. *)
Inductive SpellResult : Type :=
| SpellRefused (error : string)
| SpellCast (caster spell : string) (targets : list string) (effects : list Effect).

(** The loop of [cast_spell] over the targets still to visit; [effects]
    holds the entries appended so far. *)
Fixpoint cast_each (caster : nat) (spell_name : string) (effect : list (string * string))
    (todo : list nat) (effects : list Effect)
    (e : Encounter) (h : Heap) (g : Dice.Rng)
    : Res (list Effect) * Encounter * Heap * Dice.Rng :=
  match todo with
  | [] => (Ok effects, e, h, g)
  | target :: rest =>
      match Py.dict_get "type" effect with
      | Some ty =>
          if String.eqb ty "damage" then
            match Dice.parse_and_roll (default "1d6" (Py.dict_get "damage" effect)) g with
            | (Raise ex, g1) => (Raise ex, e, h, g1)
            | (Ok damage_roll, g1) =>
                let damage := Dice.total damage_roll in
                let h1 := store target (fst (take_damage damage (deref h target))) h in
                let entry := mkEffect (name (deref h1 target)) "damage" damage
                               (health (deref h1 target)) in
                let e1 := log_action
                            (name (deref h1 caster) +:+ " casts " +:+ spell_name
                             +:+ " on " +:+ name (deref h1 target) +:+ " for "
                             +:+ pretty damage +:+ " damage!") e in
                cast_each caster spell_name effect rest (effects ++ [entry]) e1 h1 g1
            end
          else if String.eqb ty "healing" then
            match Dice.parse_and_roll (default "1d4" (Py.dict_get "healing" effect)) g with
            | (Raise ex, g1) => (Raise ex, e, h, g1)
            | (Ok healing_roll, g1) =>
                let healing := Dice.total healing_roll in
                let h1 := store target (fst (heal healing (deref h target))) h in
                let entry := mkEffect (name (deref h1 target)) "healing" healing
                               (health (deref h1 target)) in
                let e1 := log_action
                            (name (deref h1 caster) +:+ " casts " +:+ spell_name
                             +:+ " on " +:+ name (deref h1 target) +:+ ", healing "
                             +:+ pretty healing +:+ " HP!") e in
                cast_each caster spell_name effect rest (effects ++ [entry]) e1 h1 g1
            end
          else cast_each caster spell_name effect rest effects e h g
      | None => cast_each caster spell_name effect rest effects e h g
      end
  end.

Definition cast_spell (caster : nat) (spell_name : string) (targets : list nat)
    (effect : list (string * string))
    (e : Encounter) (h : Heap) (g : Dice.Rng)
    : Res SpellResult * Encounter * Heap * Dice.Rng :=
  if negb (is_conscious (deref h caster)) then
    (Ok (SpellRefused (name (deref h caster)
                       +:+ " is unconscious and cannot cast spells")), e, h, g)
  else
    let names := map (fun t => name (deref h t)) targets in
    match cast_each caster spell_name effect targets [] e h g with
    | (Ok effects, e1, h1, g1) =>
        (Ok (SpellCast (name (deref h caster)) spell_name names effects), e1, h1, g1)
    | (Raise ex, e1, h1, g1) => (Raise ex, e1, h1, g1)
    end.

(** [get_combat_log(last_n)]: [self.combat_log[-last_n:]]. *)
Definition get_combat_log (last_n : Z) (e : Encounter) : list string :=
  Py.slice_from (- last_n) (combat_log e).

(** The table [ENEMY_TEMPLATES]: health, armor class, damage notation. *)
Definition ENEMY_TEMPLATES : list (string * (Z * Z * string)) :=
  [ ("goblin", (7, 15, "1d6")); ("orc", (15, 13, "1d8+3"));
    ("skeleton", (13, 13, "1d6+2")); ("wolf", (11, 13, "2d4+2"));
    ("bandit", (11, 12, "1d6+1")); ("ogre", (59, 11, "2d8+4"));
    ("dragon_wyrmling", (75, 17, "2d10+4")) ].

(** [s.replace("_", " ")]. *)
Fixpoint underscores_to_spaces (s : string) : string :=
  match s with
  | EmptyString => EmptyString
  | String c r =>
      String (if Ascii.eqb c "_"%char then " "%char else c) (underscores_to_spaces r)
  end.

(** [str.title] on the keys of the table, which hold lower-case ASCII
    letters and blanks: a letter that follows a letter is kept, any
    other letter is put in upper case. *)
Definition is_lower_ascii (c : ascii) : bool :=
  let n := nat_of_ascii c in ((97 <=? n) && (n <=? 122))%nat.

Fixpoint title_from (after_letter : bool) (s : string) : string :=
  match s with
  | EmptyString => EmptyString
  | String c r =>
      if is_lower_ascii c
      then String (if after_letter then c else ascii_of_nat (nat_of_ascii c - 32))
             (title_from true r)
      else String c (title_from false r)
  end.

Definition title (s : string) : string := title_from false s.

(** [create_enemy(enemy_type, name)]; [name or ...] takes the default
    for [None] and for the empty string. *)
Definition create_enemy (enemy_type : string) (name : option string) : Res Combatant :=
  match Py.dict_get enemy_type ENEMY_TEMPLATES with
  | None => Raise (ValueError ("Unknown enemy type: " +:+ enemy_type))
  | Some (template_health, template_ac, _) =>
      let enemy_name :=
        match name with
        | Some n => if Dice.is_empty n
                    then title (underscores_to_spaces enemy_type) else n
        | None => title (underscores_to_spaces enemy_type)
        end in
      Ok (mkCombatant enemy_name ENEMY template_health template_health template_ac
            0 None true [])
  end.

(** The index of the current turn points into the turn order, unless
    the turn order is empty. *)
Definition index_ok (e : Encounter) : Prop :=
  0 <= current_turn_index e /\
  (turn_order e = [] \/ current_turn_index e < Z.of_nat (length (turn_order e))).

(** The roster lists live combatant objects, none of them twice. *)
Definition roster_ok (e : Encounter) (h : Heap) : Prop :=
  NoDup (combatants e) /\
  Forall (fun r => (r < length (combatant_objs h))%nat) (combatants e).

(** The dice notation the loop of [cast_spell] reads for an effect: the
    entry ["damage"] or ["healing"], with its default; none for an
    effect of another type or without a type. *)
Definition effect_dice (effect : list (string * string)) : option string :=
  match Py.dict_get "type" effect with
  | Some ty =>
      if String.eqb ty "damage" then Some (default "1d6" (Py.dict_get "damage" effect))
      else if String.eqb ty "healing" then Some (default "1d4" (Py.dict_get "healing" effect))
      else None
  | None => None
  end.

(** What the loop of [cast_spell] does to the object of a target, for
    an amount rolled: [take_damage] or [heal]. *)
Definition apply_effect (effect : list (string * string)) (amount : Z) (c : Combatant)
    : Combatant :=
  match Py.dict_get "type" effect with
  | Some ty =>
      if String.eqb ty "damage" then fst (take_damage amount c)
      else if String.eqb ty "healing" then fst (heal amount c)
      else c
  | None => c
  end.

(** What [end_combat] writes into a character. *)
Definition synced (c : Combatant) (ch : Char.Character) : Char.Character :=
  Char.set_conditions (conditions c) (Char.set_health (health c) ch).

End Combat.

(** ** session.py: the story log *)

Module Story.

Import Sess.

Definition set_in_combat (v : bool) (s : GameSession) : GameSession :=
  mkGameSession (session_id s) (sessions_dir s) (session_file s)
    (story_history s) (current_location s) (active_npcs s) (current_scene s)
    (session_notes s) (created_at s) (last_saved s) (turn_count s) v
    (current_encounter s).

Definition set_current_encounter (v : option string) (s : GameSession) : GameSession :=
  mkGameSession (session_id s) (sessions_dir s) (session_file s)
    (story_history s) (current_location s) (active_npcs s) (current_scene s)
    (session_notes s) (created_at s) (last_saved s) (turn_count s) (in_combat s) v.

(** [add_dm_response(response, personality)]; an absent or empty
    personality leaves the metadata empty. *)
Definition add_dm_response (response : string) (personality : option string)
    (s : GameSession) (env : Env) : GameSession * Env :=
  let metadata :=
    match personality with
    | Some p => if Sess.truthy p then [("personality", JStr p)] else []
    | None => []
    end in
  add_story_event "dm_response" response (Some metadata) s env.

(** [start_combat(encounter_name)] of the session. *)
Definition start_combat (encounter_name : string) (s : GameSession) (env : Env)
    : GameSession * Env :=
  let s1 := set_in_combat true s in
  let s2 := set_current_encounter (Some encounter_name) s1 in
  add_story_event "system" ("Combat started: " +:+ encounter_name) None s2 env.

(** [end_combat()] of the session; [self.current_encounter or "Unknown
    encounter"]. *)
Definition end_combat (s : GameSession) (env : Env) : GameSession * Env :=
  if in_combat s then
    let encounter_name :=
      match current_encounter s with
      | Some n => if Sess.truthy n then n else "Unknown encounter"
      | None => "Unknown encounter"
      end in
    let s1 := set_in_combat false s in
    let s2 := set_current_encounter None s1 in
    add_story_event "system" ("Combat ended: " +:+ encounter_name) None s2 env
  else (s, env).

(** A run of [add_story_event] calls, one for each entry. *)
Fixpoint add_events (events : list (string * string * option (list (string * JSON))))
    (s : GameSession) (env : Env) : GameSession * Env :=
  match events with
  | [] => (s, env)
  | (event_type, content, metadata) :: rest =>
      let '(s1, env1) := add_story_event event_type content metadata s env in
      add_events rest s1 env1
  end.

(** The session as the last autosave recorded it: the events up to the
    last multiple of three. *)
Definition autosaved (s : GameSession) : GameSession :=
  let n := 3 * (turn_count s / 3) in
  set_turn_count n (set_story_history (take (Z.to_nat n) (story_history s)) s).

Section Formatting.

(** [str(v)], as an f-string formats a value of the dice result; the
    definitions below take it as it comes. *)
Variable str_of : JSON -> string.

(** [add_player_action(action, dice_result)]; a dice result that is
    [None] or an empty dictionary counts as absent. *)
Definition add_player_action (action : string)
    (dice_result : option (list (string * JSON)))
    (s : GameSession) (env : Env) : GameSession * Env :=
  match dice_result with
  | Some ((_ :: _) as d) =>
      let metadata := [("dice_result", JObj d)] in
      let '(s1, env1) := add_story_event "player_action" action (Some metadata) s env in
      let dice_description :=
        str_of (get_or "description" (JStr "dice roll") d) +:+ ": "
        +:+ str_of (get_or "total" (JInt 0) d) in
      add_story_event "dice_roll" dice_description (Some d) s1 env1
  | _ => add_story_event "player_action" action (Some []) s env
  end.

End Formatting.

(** [str] of the values a dice roller puts under ["description"] and
    ["total"]; other values are not formatted here. *)
Definition str_scalar (v : JSON) : string :=
  match v with
  | JStr s => s
  | JInt n => pretty n
  | JBool true => "True"
  | JBool false => "False"
  | JNull => "None"
  | _ => ""
  end.

End Story.

(** * Properties *)

(** ** Characters *)

Section CharacterFacts.
Import Char.

Lemma get_modifier_constitution (c : Character) :
  get_modifier "constitution" c = Ok (ability_modifier (constitution c)).
Proof. reflexivity. Qed.

Lemma get_modifier_dexterity (c : Character) :
  get_modifier "dexterity" c = Ok (ability_modifier (dexterity c)).
Proof. reflexivity. Qed.

(** What [gain_experience] computes, with no assumption on the
    character: the level is raised to the recomputed one when that is
    higher and is kept otherwise. *)
Lemma gain_experience_unfold (xp : Z) (c : Character) :
  let xp' := experience c + xp in
  let new_level := 1 + xp' / 1000 in
  let hp_gain := (new_level - level c) * (5 + ability_modifier (constitution c)) in
  gain_experience xp c =
    Ok (if level c <? new_level
        then set_health (health c + hp_gain)
               (set_max_health (max_health c + Z.max 1 hp_gain)
                  (set_level new_level (set_experience xp' c)))
        else set_experience xp' c).
Proof.
  unfold gain_experience; simpl.
  destruct (level c <? 1 + (experience c + xp) / 1000); reflexivity.
Qed.

(** C1: for a character with non-negative health and a damage amount
    >= 0, [take_damage] leaves health >= 0, takes the damage from the
    temporary hit points first (health is only touched once they are
    used up), and reports [temp_hp_lost + health_lost =
    min(amount, temporary_hp + health)]. *)
Theorem take_damage_absorbs (c : Character) (damage : Z) :
  0 <= damage ->
  0 <= health c ->
  let c' := fst (take_damage damage c) in
  let r := snd (take_damage damage c) in
  0 <= health c' /\
  temp_hp_lost r = Z.min damage (temporary_hp c) /\
  health_lost r = Z.min (damage - temp_hp_lost r) (health c) /\
  temporary_hp c' = temporary_hp c - temp_hp_lost r /\
  health c' = health c - health_lost r /\
  (0 < health_lost r -> temporary_hp c' = 0) /\
  temp_hp_lost r + health_lost r = Z.min damage (temporary_hp c + health c) /\
  unconscious r = (health c' <=? 0).
Proof.
  intros Hd Hh; unfold take_damage; simpl.
  repeat split; lia.
Qed.

Lemma take_damage_absorbs_witness :
  let c := set_temporary_hp 4 (defaults "Mira" "wizard") in
  health (fst (take_damage 9 c)) = 5 /\
  temp_hp_lost (snd (take_damage 9 c)) + health_lost (snd (take_damage 9 c))
    = Z.min 9 (temporary_hp c + health c).
Proof.
  pose proof (take_damage_absorbs (set_temporary_hp 4 (defaults "Mira" "wizard")) 9
                ltac:(lia) ltac:(simpl; lia)) as H.
  simpl in H. split; [reflexivity | apply H].
Defined.

(** When the recomputed level is higher and a level is worth at least
    one hit point, every level gained adds [max(1, 5 + modifier)] to
    [max_health] and to [health], whatever the old maximum was. *)
Lemma gain_experience_level_up (xp : Z) (c : Character) :
  let new_level := 1 + (experience c + xp) / 1000 in
  let per_level := Z.max 1 (5 + ability_modifier (constitution c)) in
  level c < new_level ->
  1 <= 5 + ability_modifier (constitution c) ->
  exists c', gain_experience xp c = Ok c' /\
    experience c' = experience c + xp /\
    level c' = new_level /\
    max_health c' = max_health c + (new_level - level c) * per_level /\
    health c' = health c + (new_level - level c) * per_level.
Proof.
  intros new_level per_level Hlt Hpos.
  rewrite gain_experience_unfold; cbv zeta.
  fold new_level.
  destruct (Z.ltb_spec (level c) new_level) as [_ | Hge]; [| lia].
  eexists; split; [reflexivity |]; simpl.
  subst per_level; repeat split; try nia.
Qed.

(** The level never goes down: after [gain_experience] it is the larger
    of the old level and [1 + experience // 1000]. *)
Lemma gain_experience_level (xp : Z) (c : Character) :
  exists c', gain_experience xp c = Ok c' /\
    experience c' = experience c + xp /\
    level c' = Z.max (level c) (1 + experience c' / 1000).
Proof.
  rewrite gain_experience_unfold; cbv zeta.
  destruct (Z.ltb_spec (level c) (1 + (experience c + xp) / 1000));
    eexists; (split; [reflexivity |]); simpl; split; lia.
Qed.

(** C4 (the code at the failing input): a fighter created with
    constitution 1 starts with 5 hit points; gaining 2000 experience
    takes the character from level 1 to level 3, yet [max_health] grows
    by 1 and [health] by 0, where one hit point per level gained, for
    the maximum and for the health alike, would give 7 and 7. *)
Theorem level_up_at_constitution_1 :
  exists c0 c1 : Character,
    new (set_constitution 1 (defaults "Hero" "fighter")) = Ok c0 /\
    gain_experience 2000 c0 = Ok c1 /\
    level c0 = 1 /\ max_health c0 = 5 /\ health c0 = 5 /\
    level c1 = 3 /\ max_health c1 = 6 /\ health c1 = 5 /\
    max_health c0
      + (level c1 - level c0) * Z.max 1 (5 + ability_modifier (constitution c0)) = 7.
Proof.
  pose (c0 := set_health 5 (set_max_health 5
                (set_constitution 1 (defaults "Hero" "fighter")))).
  exists c0, (set_max_health 6 (set_level 3 (set_experience 2000 c0))).
  repeat split; vm_compute; reflexivity.
Qed.

(** C8 (counterexample): a wizard at 5 of 20 hit points, as the
    constructor builds it, satisfies [0 <= health <= max_health];
    [heal(-10)] leaves it at health -5. *)
Lemma heal_negative_breaks_health_invariant :
  let c := set_health 5 (set_max_health 20 (defaults "Mira" "wizard")) in
  new c = Ok c /\
  health_invariant c /\
  health (fst (heal (-10) c)) = -5 /\
  ~ health_invariant (fst (heal (-10) c)).
Proof.
  cbv zeta. split; [vm_compute; reflexivity |].
  split; [unfold health_invariant; simpl; lia |].
  split; [vm_compute; reflexivity |].
  unfold health_invariant; simpl; lia.
Qed.

(** With a constitution of -2 a level is worth -1 hit point:
    [max_health] still grows by 1, and five levels take 5 points off
    the health of a character that had 4. *)
Example gain_experience_negative_constitution :
  let c := set_health 4 (set_max_health 4
             (set_constitution (-2) (defaults "Imp" "fighter"))) in
  new (set_constitution (-2) (defaults "Imp" "fighter")) = Ok c /\
  gain_experience 5000 c
  = Ok (set_health (-1) (set_max_health 5 (set_level 6 (set_experience 5000 c)))).
Proof. split; vm_compute; reflexivity. Qed.

(** C8 (amended): on a character with [0 <= health <= max_health],
    [take_damage] keeps the invariant for every amount, [heal] keeps it
    for every amount >= 0, and [gain_experience] returns and keeps it
    whenever the constitution score is not negative. *)
Theorem mutators_keep_health_invariant (c : Character) (amount : Z) :
  health_invariant c ->
  health_invariant (fst (take_damage amount c)) /\
  (0 <= amount -> health_invariant (fst (heal amount c))) /\
  (0 <= constitution c ->
   exists c', gain_experience amount c = Ok c' /\ health_invariant c').
Proof.
  unfold health_invariant; intros [H0 Hmax].
  split; [simpl; lia |].
  split; [intros Ha; simpl; lia |].
  intros Hcon.
  rewrite gain_experience_unfold; cbv zeta.
  destruct (Z.ltb_spec (level c) (1 + (experience c + amount) / 1000)) as [Hlt | Hge];
    eexists; (split; [reflexivity |]); simpl; [| lia].
  assert (Hm : 0 <= 5 + ability_modifier (constitution c))
    by (unfold ability_modifier; Z.div_mod_to_equations; lia).
  nia.
Qed.

Lemma mutators_keep_health_invariant_witness :
  let c := set_health 5 (set_max_health 20 (defaults "Mira" "wizard")) in
  health_invariant (fst (take_damage 7 c)) /\
  health_invariant (fst (heal 7 c)) /\
  exists c', gain_experience 7 c = Ok c' /\ health_invariant c'.
Proof.
  cbv zeta.
  destruct (mutators_keep_health_invariant
              (set_health 5 (set_max_health 20 (defaults "Mira" "wizard"))) 7)
    as (Hd & Hh & Hx).
  - unfold health_invariant; simpl; lia.
  - split; [exact Hd |].
    split; [apply Hh; lia | apply Hx; simpl; lia].
Defined.

(** C9: when the constructor is given [max_health = 10] it replaces
    [max_health] and [health] by [max(1, hit die + constitution
    modifier)], whatever health was supplied, and when it is given
    [armor_class = 10] it replaces it by [10 + dexterity modifier];
    hence a fighter built with the defaults and hurt for 3 points
    (health 7 of 10) comes back from [from_dict(to_dict())] with health
    10: the round trip is not the identity. *)
Theorem post_init_overrides_sentinels :
  (forall f : Character, max_health f = 10 ->
     exists c, new f = Ok c /\
       max_health c =
         Z.max 1 (default 8 (Py.dict_get (Py.lower (character_class f)) hit_dice)
                  + ability_modifier (constitution f)) /\
       health c = max_health c) /\
  (forall f : Character, armor_class f = 10 ->
     exists c, new f = Ok c /\
       armor_class c = 10 + ability_modifier (dexterity f)) /\
  (exists c0 c c',
     new (defaults "Bob" "fighter") = Ok c0 /\
     c = fst (take_damage 3 c0) /\
     from_dict (to_dict c) = Ok c' /\
     health c = 7 /\ health c' = 10 /\ c' <> c).
Proof.
  split; [| split].
  - intros f Hf. unfold new, __post_init__, _calculate_starting_hp.
    rewrite Hf, get_modifier_constitution; simpl.
    destruct (armor_class f =? 10); eexists; (split; [reflexivity |]);
      simpl; split; reflexivity.
  - intros f Hf. unfold new, __post_init__, _calculate_starting_hp.
    rewrite get_modifier_constitution.
    destruct (max_health f =? 10); simpl; rewrite Hf; simpl;
      eexists; (split; [reflexivity |]); reflexivity.
  - exists (defaults "Bob" "fighter"),
           (set_health 7 (defaults "Bob" "fighter")),
           (defaults "Bob" "fighter").
    repeat split; try (vm_compute; reflexivity).
    intros Heq. apply (f_equal health) in Heq. discriminate Heq.
Qed.

Lemma post_init_overrides_sentinels_witness :
  exists c, new (set_health 3 (set_constitution 14 (defaults "Ana" "barbarian"))) = Ok c /\
    max_health c = 14 /\ health c = 14.
Proof.
  destruct post_init_overrides_sentinels as (Hmax & _ & _).
  destruct (Hmax (set_health 3 (set_constitution 14 (defaults "Ana" "barbarian")))
              eq_refl) as (c & Hc & Hm & Hh).
  exists c. split; [exact Hc |]. split; [exact Hm | rewrite Hh; exact Hm].
Defined.

End CharacterFacts.

(** ** Combatants *)

Section CombatantFacts.
Import Enc.

Lemma contains_In (x : string) (xs : list string) :
  Py.contains x xs = true <-> x ∈ xs.
Proof.
  rewrite list_elem_of_In.
  induction xs as [| y r IH]; simpl.
  - split; [discriminate | tauto].
  - rewrite orb_true_iff, IH, String.eqb_eq. tauto.
Qed.

Lemma contains_app (x : string) (xs ys : list string) :
  Py.contains x (xs ++ ys) = Py.contains x xs || Py.contains x ys.
Proof.
  induction xs as [| y r IH]; simpl; [reflexivity |].
  rewrite IH. apply orb_assoc.
Qed.

Lemma contains_remove_first (x : string) (xs : list string) :
  NoDup xs -> Py.contains x (Py.remove_first x xs) = false.
Proof.
  induction 1 as [| y r Hnotin Hnodup IH]; simpl; [reflexivity |].
  destruct (String.eqb_spec y x) as [-> | Hne].
  - destruct (Py.contains x r) eqn:E; [| reflexivity].
    apply contains_In in E. contradiction.
  - simpl. rewrite IH. destruct (String.eqb_spec y x); [contradiction | reflexivity].
Qed.

(** C10 (counterexample): a goblin of 7 hit points that takes 7 damage
    is unconscious at health 0 and consistent; [take_damage(-3)], the
    amount a damage spell written ["1d4-7"] produces, brings its health
    to 3 and leaves it unconscious.  Likewise [heal(-9)] takes the
    fresh goblin to health -2 and leaves it conscious. *)
Lemma negative_amount_breaks_consistency :
  let goblin := mkCombatant "Goblin" ENEMY 7 7 15 0 None true [] in
  let fallen := fst (take_damage 7 goblin) in
  consistent goblin /\
  consistent fallen /\
  fallen = mkCombatant "Goblin" ENEMY 0 7 15 0 None false ["unconscious"] /\
  fst (take_damage (-3) fallen)
    = mkCombatant "Goblin" ENEMY 3 7 15 0 None false ["unconscious"] /\
  ~ consistent (fst (take_damage (-3) fallen)) /\
  fst (heal (-9) goblin) = mkCombatant "Goblin" ENEMY (-2) 7 15 0 None true [] /\
  ~ consistent (fst (heal (-9) goblin)).
Proof.
  cbv zeta.
  assert (Hf : fst (take_damage 7 (mkCombatant "Goblin" ENEMY 7 7 15 0 None true []))
               = mkCombatant "Goblin" ENEMY 0 7 15 0 None false ["unconscious"])
    by (vm_compute; reflexivity).
  rewrite Hf.
  assert (Hd : fst (take_damage (-3)
                      (mkCombatant "Goblin" ENEMY 0 7 15 0 None false ["unconscious"]))
               = mkCombatant "Goblin" ENEMY 3 7 15 0 None false ["unconscious"])
    by (vm_compute; reflexivity).
  assert (Hh : fst (heal (-9) (mkCombatant "Goblin" ENEMY 7 7 15 0 None true []))
               = mkCombatant "Goblin" ENEMY (-2) 7 15 0 None true [])
    by (vm_compute; reflexivity).
  rewrite Hd, Hh. unfold consistent; simpl.
  repeat split; try reflexivity; try lia; try discriminate.
Qed.

(** A conscious combatant whose health exceeds a maximum of 0 is put
    at health 0 by [heal] and stays conscious. *)
Lemma heal_above_maximum_example :
  let c := mkCombatant "Shade" NPC 5 0 12 0 None true [] in
  consistent c /\ ~ consistent (fst (heal 1 c)).
Proof.
  cbv zeta; unfold consistent; simpl. split.
  - repeat split; try reflexivity; try lia; discriminate.
  - intros [[H _] _]. specialize (H eq_refl). lia.
Qed.

(** [list.remove] deletes one occurrence: with the condition listed
    twice, the woken combatant is still listed as unconscious. *)
Lemma heal_duplicate_condition_example :
  let c := mkCombatant "Orc" ENEMY 0 15 13 0 None false
             ["unconscious"; "unconscious"] in
  consistent c /\ ~ consistent (fst (heal 4 c)).
Proof.
  cbv zeta; unfold consistent; simpl. split.
  - repeat split; try reflexivity; try lia; discriminate.
  - intros [_ [H _]]. specialize (H eq_refl). lia.
Qed.

Lemma take_damage_consistent (c : Combatant) (amount : Z) :
  consistent c -> 0 <= amount -> consistent (fst (take_damage amount c)).
Proof.
  intros [Hc Hu] Ha.
  unfold take_damage, consistent; simpl.
  destruct (Z.leb_spec (health c - Z.min amount (health c)) 0) as [Hle | Hgt].
  - destruct (Py.contains "unconscious" (conditions c)) eqn:E; simpl.
    + rewrite E. split; split; intros; try lia; try discriminate; reflexivity.
    + rewrite contains_app, E; simpl.
      split; split; intros; try lia; try discriminate; reflexivity.
  - simpl. split; split; intros.
    + lia.
    + apply Hc. lia.
    + apply Hu in H. lia.
    + lia.
Qed.

Lemma heal_consistent (c : Combatant) (amount : Z) :
  consistent c -> 0 <= amount ->
  health c <= max_health c -> NoDup (conditions c) ->
  consistent (fst (heal amount c)).
Proof.
  intros [Hc Hu] Ha Hmax Hnodup.
  unfold heal, consistent; simpl.
  destruct (Z.ltb_spec 0 (Z.min (max_health c) (health c + amount))) as [Hpos | Hnon];
    destruct (is_conscious c) eqn:Econ; simpl.
  - rewrite Econ. split; split; intros; try lia; try reflexivity.
    apply Hu in H. destruct Hc as [Hc _]. specialize (Hc eq_refl). lia.
  - destruct (Py.contains "unconscious" (conditions c)) eqn:E; simpl.
    + rewrite contains_remove_first by assumption.
      split; split; intros; try lia; try reflexivity; discriminate.
    + rewrite E. split; split; intros; try lia; try reflexivity; discriminate.
  - rewrite Econ. destruct Hc as [Hc _]. specialize (Hc eq_refl). lia.
  - rewrite Econ. split; split; intros; try lia; try discriminate.
    apply Hu. destruct (Z.le_gt_cases (health c) 0) as [Hle | Hgt]; [exact Hle |].
    apply Hc in Hgt. discriminate Hgt.
Qed.

(** C10 (amended): for an amount >= 0, [take_damage] keeps a consistent
    combatant consistent; so does [heal] when the health does not
    exceed [max_health] and the conditions list no entry twice; and a
    combatant at health <= 0 that [heal] brings to positive health is
    conscious again and no longer carries the condition. *)
Theorem combatant_ops_keep_consistent (c : Combatant) (amount : Z) :
  consistent c ->
  0 <= amount ->
  consistent (fst (take_damage amount c)) /\
  (health c <= max_health c -> NoDup (conditions c) ->
   consistent (fst (heal amount c)) /\
   (health c <= 0 -> 0 < health (fst (heal amount c)) ->
    is_conscious (fst (heal amount c)) = true /\
    Py.contains "unconscious" (conditions (fst (heal amount c))) = false)).
Proof.
  intros Hcons Ha. split; [apply take_damage_consistent; assumption |].
  intros Hmax Hnodup.
  pose proof (heal_consistent c amount Hcons Ha Hmax Hnodup) as Hgoal.
  split; [exact Hgoal |].
  intros _ Hpos. destruct Hgoal as [Hc' Hu']. split.
  - apply Hc'. exact Hpos.
  - destruct (Py.contains "unconscious" (conditions (fst (heal amount c)))) eqn:E;
      [| reflexivity].
    destruct Hu' as [Hu' _]. specialize (Hu' eq_refl). lia.
Qed.

Lemma combatant_ops_keep_consistent_witness :
  let fallen := mkCombatant "Goblin" ENEMY 0 7 15 0 None false ["unconscious"] in
  consistent (fst (take_damage 2 fallen)) /\
  consistent (fst (heal 2 fallen)) /\
  is_conscious (fst (heal 2 fallen)) = true /\
  Py.contains "unconscious" (conditions (fst (heal 2 fallen))) = false.
Proof.
  cbv zeta.
  destruct (combatant_ops_keep_consistent
              (mkCombatant "Goblin" ENEMY 0 7 15 0 None false ["unconscious"]) 2)
    as (Hd & Hh).
  - unfold consistent; simpl.
    repeat split; intros; try lia; try reflexivity; discriminate.
  - lia.
  - destruct Hh as (Hk & Hw).
    + simpl; lia.
    + simpl. apply NoDup_singleton.
    + split; [exact Hd |]. split; [exact Hk |].
      apply Hw; [simpl; lia | vm_compute; reflexivity].
Defined.

End CombatantFacts.

(** ** The descending stable sort *)

Section SortedReverse.
Context {A : Type} (key : A -> Z).

Local Abbreviation key_ge := (Py.key_ge key).
Local Abbreviation with_key := (Py.with_key key).

Lemma insert_desc_perm (x : A) (xs : list A) :
  Permutation (x :: xs) (Py.insert_desc key x xs).
Proof.
  induction xs as [| y r IH]; simpl; [reflexivity |].
  destruct (key x <? key y); [| reflexivity].
  rewrite perm_swap. apply perm_skip, IH.
Qed.

Lemma sorted_reverse_perm (xs : list A) :
  Permutation xs (Py.sorted_reverse key xs).
Proof.
  induction xs as [| x r IH]; simpl; [reflexivity |].
  rewrite <- insert_desc_perm. apply perm_skip, IH.
Qed.

Lemma insert_desc_sorted (x : A) (xs : list A) :
  StronglySorted key_ge xs -> StronglySorted key_ge (Py.insert_desc key x xs).
Proof.
  induction 1 as [| y r Hsorted IH Hall]; simpl.
  - repeat constructor.
  - destruct (Z.ltb_spec (key x) (key y)) as [Hlt | Hge].
    + constructor; [exact IH |].
      rewrite <- insert_desc_perm. constructor; [| exact Hall].
      unfold Py.key_ge; lia.
    + constructor; [constructor; assumption |].
      constructor; [exact Hge |].
      eapply List.Forall_impl; [| exact Hall].
      unfold Py.key_ge; intros; lia.
Qed.

Lemma sorted_reverse_sorted (xs : list A) :
  StronglySorted key_ge (Py.sorted_reverse key xs).
Proof.
  induction xs as [| x r IH]; simpl; [constructor |].
  apply insert_desc_sorted, IH.
Qed.

Lemma with_key_insert_desc (k : Z) (x : A) (xs : list A) :
  with_key k (Py.insert_desc key x xs) = with_key k (x :: xs).
Proof.
  unfold Py.with_key.
  induction xs as [| y r IH]; simpl; [reflexivity |].
  destruct (Z.ltb_spec (key x) (key y)) as [Hlt | Hge]; [| reflexivity].
  simpl in *. rewrite IH.
  destruct (Z.eqb_spec (key x) k), (Z.eqb_spec (key y) k); try reflexivity.
  lia.
Qed.

(** Stability: the elements of any one key keep their order. *)
Lemma sorted_reverse_stable (k : Z) (xs : list A) :
  with_key k (Py.sorted_reverse key xs) = with_key k xs.
Proof.
  induction xs as [| x r IH]; simpl; [reflexivity |].
  rewrite with_key_insert_desc. unfold Py.with_key in *; simpl.
  rewrite IH. reflexivity.
Qed.

(** A split of a filtered list comes from a split of the list. *)
Lemma filter_app_inv (p : A -> bool) (xs us vs : list A) :
  List.filter p xs = us ++ vs ->
  exists xs1 xs2, xs = xs1 ++ xs2 /\ List.filter p xs1 = us /\ List.filter p xs2 = vs.
Proof.
  revert us. induction xs as [| x r IH]; intros us Heq; simpl in Heq.
  - symmetry in Heq. apply app_eq_nil in Heq as [-> ->].
    exists [], []. repeat split.
  - destruct (p x) eqn:Hp.
    + destruct us as [| u us'].
      * exists [], (x :: r). simpl in *. rewrite Hp. repeat split. exact Heq.
      * simpl in Heq. injection Heq as -> Heq.
        destruct (IH us' Heq) as (l1 & l2 & -> & H1 & H2).
        exists (u :: l1), l2. simpl. rewrite Hp, H1. repeat split. exact H2.
    + destruct (IH us Heq) as (l1 & l2 & -> & H1 & H2).
      exists (x :: l1), l2. simpl. rewrite Hp. repeat split; assumption.
Qed.

(** Stability, pairwise: two elements of equal key that come in this
    order in the sorted list come in this order in the input. *)
Lemma sorted_reverse_keeps_order (xs l1 l2 l3 : list A) (a b : A) :
  Py.sorted_reverse key xs = l1 ++ a :: l2 ++ b :: l3 ->
  key a = key b ->
  exists m1 m2 m3, xs = m1 ++ a :: m2 ++ b :: m3.
Proof.
  intros Hs Hk.
  pose proof (sorted_reverse_stable (key a) xs) as Hst.
  rewrite Hs in Hst. unfold Py.with_key in Hst.
  rewrite List.filter_app in Hst; simpl in Hst.
  rewrite Z.eqb_refl in Hst.
  rewrite List.filter_app in Hst; simpl in Hst.
  rewrite <- Hk, Z.eqb_refl in Hst.
  symmetry in Hst.
  apply filter_app_inv in Hst as (p1 & q1 & -> & _ & Hq1).
  destruct q1 as [| y q1]; [discriminate Hq1 |].
  assert (Hsplit : exists q0 q2, y :: q1 = q0 ++ a :: q2 /\
            List.filter (fun c => key c =? key a) q2
            = List.filter (fun c => key c =? key a) l2 ++
              b :: List.filter (fun c => key c =? key a) l3).
  { clear - Hq1. remember (y :: q1) as q eqn:E. clear E y q1.
    induction q as [| z q IH]; simpl in Hq1; [discriminate Hq1 |].
    destruct (key z =? key a) eqn:Hz.
    - injection Hq1 as -> Hq1. exists [], q. split; [reflexivity | exact Hq1].
    - destruct (IH Hq1) as (q0 & q2 & -> & H2).
      exists (z :: q0), q2. split; [reflexivity | exact H2]. }
  destruct Hsplit as (q0 & q2 & -> & Hq2).
  apply filter_app_inv in Hq2 as (r1 & r2 & -> & _ & Hr2).
  assert (Hb : exists r0 r3, r2 = r0 ++ b :: r3).
  { clear - Hr2. induction r2 as [| z r IH]; simpl in Hr2; [discriminate Hr2 |].
    destruct (key z =? key a) eqn:Hz.
    - injection Hr2 as -> _. exists [], r. reflexivity.
    - destruct (IH Hr2) as (r0 & r3 & ->). exists (z :: r0), r3. reflexivity. }
  destruct Hb as (r0 & r3 & ->).
  exists (p1 ++ q0), (r1 ++ r0), r3.
  repeat (rewrite <- List.app_assoc; simpl). reflexivity.
Qed.

(** A descending list is fixed by its per-key sublists: whatever stable
    sorting method is used, the outcome is the one computed by
    [sorted_reverse]. *)
Lemma descending_stable_unique (l1 l2 : list A) :
  StronglySorted key_ge l1 -> StronglySorted key_ge l2 ->
  (forall k, with_key k l1 = with_key k l2) ->
  l1 = l2.
Proof.
  intros H1. revert l2.
  induction H1 as [| a l1' Hs1 IH Ha]; intros l2 H2 Hkeys.
  - destruct l2 as [| b l2']; [reflexivity |].
    specialize (Hkeys (key b)). unfold Py.with_key in Hkeys; simpl in Hkeys.
    rewrite Z.eqb_refl in Hkeys. discriminate Hkeys.
  - destruct l2 as [| b l2'].
    + specialize (Hkeys (key a)). unfold Py.with_key in Hkeys; simpl in Hkeys.
      rewrite Z.eqb_refl in Hkeys. discriminate Hkeys.
    + apply StronglySorted_inv in H2 as [Hs2 Hb].
      assert (Hab : key a <= key b).
      { pose proof (Hkeys (key a)) as Hk. unfold Py.with_key in Hk; simpl in Hk.
        rewrite Z.eqb_refl in Hk.
        destruct (Z.eqb_spec (key b) (key a)) as [-> | _]; [lia |].
        assert (Hin : In a (List.filter (fun c => key c =? key a) l2'))
          by (rewrite <- Hk; left; reflexivity).
        apply List.filter_In in Hin as [Hin _].
        rewrite List.Forall_forall in Hb. apply Hb in Hin.
        unfold Py.key_ge in Hin. exact Hin. }
      assert (Hba : key b <= key a).
      { pose proof (Hkeys (key b)) as Hk. unfold Py.with_key in Hk; simpl in Hk.
        rewrite Z.eqb_refl in Hk.
        destruct (Z.eqb_spec (key a) (key b)) as [-> | _]; [lia |].
        assert (Hin : In b (List.filter (fun c => key c =? key b) l1'))
          by (rewrite Hk; left; reflexivity).
        apply List.filter_In in Hin as [Hin _].
        rewrite List.Forall_forall in Ha. apply Ha in Hin.
        unfold Py.key_ge in Hin. exact Hin. }
      assert (Hkey : key a = key b) by lia.
      assert (Heq : a = b).
      { pose proof (Hkeys (key a)) as Hk. unfold Py.with_key in Hk; simpl in Hk.
        rewrite <- Hkey, Z.eqb_refl in Hk. congruence. }
      subst b. f_equal. apply IH; [exact Hs2 |].
      intros k. pose proof (Hkeys k) as Hk. unfold Py.with_key in *; simpl in Hk.
      destruct (key a =? k); congruence.
Qed.

Lemma sorted_reverse_unique (xs out : list A) :
  StronglySorted key_ge out ->
  (forall k, with_key k out = with_key k xs) ->
  out = Py.sorted_reverse key xs.
Proof.
  intros Hsorted Hstable.
  apply descending_stable_unique; [exact Hsorted | apply sorted_reverse_sorted |].
  intros k. rewrite sorted_reverse_stable. apply Hstable.
Qed.

End SortedReverse.

(** ** Encounters *)

Section EncounterFacts.
Import Enc.

(** [DiceRoller.d20] never raises: it returns one die of 1 .. 20 plus
    the modifier. *)
Lemma d20_ok (m : Z) (g : Dice.Rng) :
  exists r, Dice.d20 m g = (Ok r, Dice.mkRng (Dice.source g) (S (Dice.cursor g))) /\
    1 <= Dice.total r - m <= 20.
Proof.
  unfold Dice.d20, Dice.roll.
  change ((20 <? 1) || (1 <? 1)) with false. cbv iota.
  change (Z.to_nat 1) with 1%nat.
  unfold Dice.roll_dice, Dice.randint.
  eexists; split; [reflexivity |].
  cbn [Dice.total]. unfold Py.sum; cbn [fold_right].
  pose proof (Z.mod_pos_bound (Dice.source g (Dice.cursor g)) (20 - 1 + 1) ltac:(lia)).
  lia.
Qed.

Lemma deref_store_eq (h : Heap) (r : nat) (c : Combatant) :
  (r < length (combatant_objs h))%nat -> deref (store r c h) r = c.
Proof.
  intros Hr. unfold deref, store; simpl.
  rewrite list_lookup_insert_eq by exact Hr. reflexivity.
Qed.

Lemma deref_store_ne (h : Heap) (r r' : nat) (c : Combatant) :
  r <> r' -> deref (store r c h) r' = deref h r'.
Proof.
  intros Hne. unfold deref, store; simpl.
  rewrite list_lookup_insert_ne by exact Hne. reflexivity.
Qed.

(** The loop of [roll_initiative] never raises; it leaves the roster
    alone and gives every combatant it visits an initiative of
    1 .. 20. *)
Lemma roll_each_ok (todo : list nat) (e : Encounter) (h : Heap) (g : Dice.Rng) :
  exists e1 h1 g1, roll_each todo e h g = (Ok (e1, h1), g1) /\
    combatants e1 = combatants e /\
    enc_name e1 = enc_name e /\
    length (combatant_objs h1) = length (combatant_objs h) /\
    (forall r, (r < length (combatant_objs h))%nat ->
       In r todo \/ 1 <= initiative (deref h r) <= 20 ->
       1 <= initiative (deref h1 r) <= 20).
Proof.
  revert e h g. induction todo as [| r0 rest IH]; intros e h g; cbn [roll_each].
  - exists e, h, g. split; [reflexivity |]. split; [reflexivity |].
    split; [reflexivity |]. split; [reflexivity |].
    intros r _ [[] | Hold]. exact Hold.
  - destruct (d20_ok 0 g) as (roll & -> & Hroll).
    edestruct IH as (e1 & h1 & g1 & -> & Hc & Hn & Hlen & Hrange).
    exists e1, h1, g1. split; [reflexivity |]. rewrite Hc, Hn, Hlen.
    split; [reflexivity |]. split; [reflexivity |].
    split; [unfold store; simpl; apply length_insert |].
    intros r Hr Hcase. apply Hrange.
    + unfold store; simpl. rewrite length_insert. exact Hr.
    + destruct (Nat.eq_dec r0 r) as [-> | Hne].
      * right. rewrite deref_store_eq by exact Hr. simpl. lia.
      * destruct Hcase as [[Heq | Hin] | Hold]; [contradiction | left; exact Hin |].
        right. rewrite deref_store_ne by exact Hne. exact Hold.
Qed.

(** Writing an initiative twice keeps the last one. *)
Lemma set_initiative_twice (x y : Z) (c : Combatant) :
  set_initiative x (set_initiative y c) = set_initiative x c.
Proof. reflexivity. Qed.

Lemma set_initiative_same (c : Combatant) : set_initiative (initiative c) c = c.
Proof. destruct c; reflexivity. Qed.

(** The loop of [roll_initiative] draws one d20 for each entry of the
    roster, in its order: the combatant at position [i] receives the
    total of the [i]-th draw (the last of its draws, should the roster
    list it more than once), nothing but the initiative of a combatant
    is written, and combatants outside the roster are left alone. *)
Lemma roll_each_draws (todo : list nat) :
  forall (e : Encounter) (h : Heap) (g : Dice.Rng),
  exists e1 h1,
    roll_each todo e h g
    = (Ok (e1, h1), Dice.mkRng (Dice.source g) (Dice.cursor g + length todo)) /\
    (forall r, deref h1 r = set_initiative (initiative (deref h1 r)) (deref h r)) /\
    (forall r, ~ In r todo -> deref h1 r = deref h r) /\
    (forall i r, todo !! i = Some r -> (r < length (combatant_objs h))%nat ->
       (forall j, (i < j)%nat -> todo !! j <> Some r) ->
       exists roll,
         Dice.d20 0 (Dice.mkRng (Dice.source g) (Dice.cursor g + i))
         = (Ok roll, Dice.mkRng (Dice.source g) (S (Dice.cursor g + i))) /\
         initiative (deref h1 r) = Dice.total roll).
Proof.
  induction todo as [| r0 rest IH]; intros e h g; cbn [roll_each].
  - exists e, h. cbn [length]. rewrite Nat.add_0_r.
    split; [destruct g; reflexivity |].
    split; [intros r; symmetry; apply set_initiative_same |].
    split; [intros r _; reflexivity |].
    intros i r Hi. discriminate Hi.
  - destruct (d20_ok 0 g) as (roll & Hd & _). rewrite Hd.
    set (c0 := set_initiative (Dice.total roll) (deref h r0)).
    set (line := name c0 +:+ " rolled " +:+ pretty (initiative c0) +:+ " for initiative").
    destruct (IH (log_action line e) (store r0 c0 h)
                (Dice.mkRng (Dice.source g) (S (Dice.cursor g))))
      as (e1 & h1 & Hrun & Hfields & Hframe & Hdraw).
    cbn [Dice.source Dice.cursor] in Hrun, Hdraw.
    assert (Hstored : forall r,
              deref (store r0 c0 h) r = deref h r \/
              (r = r0 /\ (r0 < length (combatant_objs h))%nat /\
               deref (store r0 c0 h) r = c0)).
    { intros r. destruct (Nat.eq_dec r0 r) as [<- | Hne].
      - destruct (Nat.lt_ge_cases r0 (length (combatant_objs h))) as [Hlt | Hge].
        + right. split; [reflexivity |]. split; [exact Hlt |].
          apply deref_store_eq. exact Hlt.
        + left. unfold deref, store; cbn [combatant_objs].
          rewrite list_insert_ge by exact Hge. reflexivity.
      - left. apply deref_store_ne. exact Hne. }
    exists e1, h1.
    split.
    { rewrite Hrun. cbn [length]. do 2 f_equal. lia. }
    split.
    { intros r. rewrite (Hfields r) at 1.
      destruct (Hstored r) as [-> | (-> & _ & ->)]; [reflexivity |].
      subst c0. apply set_initiative_twice. }
    split.
    { intros r Hr. rewrite Hframe by (intros Hin; apply Hr; right; exact Hin).
      apply deref_store_ne. intros ->. apply Hr. left. reflexivity. }
    intros i r Hi Hlt Hlast. destruct i as [| i'].
    + injection Hi as <-. exists roll. rewrite Nat.add_0_r.
      split; [destruct g; exact Hd |].
      rewrite Hframe.
      * rewrite deref_store_eq by exact Hlt. reflexivity.
      * intros Hin. apply In_nth_error in Hin as [j Hj].
        apply (Hlast (S j)); [lia |].
        cbn [lookup list_lookup]. rewrite <- Hj. clear.
        revert j. induction rest as [| x r IHr]; intros [| j]; try reflexivity.
        apply IHr.
    + cbn [lookup list_lookup] in Hi.
      destruct (Hdraw i' r Hi) as (roll' & Hd' & Hinit).
      * unfold store; cbn [combatant_objs]. rewrite length_insert. exact Hlt.
      * intros j Hj. apply (Hlast (S j)). lia.
      * exists roll'. rewrite Nat.add_succ_r. split; [exact Hd' | exact Hinit].
Qed.

(** C3: on a non-empty roster [start_combat] returns, and the turn
    order it builds is the roster sorted by the rolled initiative in
    descending order and stably: it is a permutation of the roster, its
    initiatives never increase, for every initiative value the
    combatants carrying it come in their registration order, and two
    combatants of equal initiative that come in some order in the turn
    order come in that order in the roster.  The initiatives are the
    d20 rolls: one d20 is drawn for each entry of the roster, in
    registration order, the combatant at position [i] of the roster
    carries the total of the [i]-th draw (of its last draw, should the
    roster list it twice), a value of 1 .. 20; the rolls change nothing
    else in a combatant. *)
Theorem start_combat_stable_initiative_order
    (e : Encounter) (h : Heap) (g : Dice.Rng) :
  combatants e <> [] ->
  exists e' h' g', start_combat e h g = (Ok (e', h'), g') /\
    let initiative_of := fun r => initiative (deref h' r) in
    turn_order e' = Py.sorted_reverse initiative_of (combatants e) /\
    Permutation (combatants e) (turn_order e') /\
    StronglySorted (Py.key_ge initiative_of) (turn_order e') /\
    (forall k, Py.with_key initiative_of k (turn_order e')
               = Py.with_key initiative_of k (combatants e)) /\
    (forall l1 a l2 b l3,
        turn_order e' = l1 ++ a :: l2 ++ b :: l3 ->
        initiative_of a = initiative_of b ->
        exists m1 m2 m3, combatants e = m1 ++ a :: m2 ++ b :: m3) /\
    (forall r, In r (combatants e) -> (r < length (combatant_objs h))%nat ->
        1 <= initiative_of r <= 20) /\
    combatants e' = combatants e /\
    current_turn_index e' = 0 /\ round_number e' = 1 /\ is_active e' = true /\
    g' = Dice.mkRng (Dice.source g) (Dice.cursor g + length (combatants e)) /\
    (forall i r,
        combatants e !! i = Some r -> (r < length (combatant_objs h))%nat ->
        (forall j, (i < j)%nat -> combatants e !! j <> Some r) ->
        exists roll,
          Dice.d20 0 (Dice.mkRng (Dice.source g) (Dice.cursor g + i))
          = (Ok roll, Dice.mkRng (Dice.source g) (S (Dice.cursor g + i))) /\
          initiative_of r = Dice.total roll /\
          initiative_of r = 1 + Dice.source g (Dice.cursor g + i) mod 20) /\
    (forall r, deref h' r = set_initiative (initiative_of r) (deref h r)) /\
    (forall r, ~ In r (combatants e) -> deref h' r = deref h r).
Proof.
  intros Hne. unfold start_combat, roll_initiative.
  destruct (combatants e) as [| r0 rest] eqn:Hroster; [contradiction |].
  rewrite <- Hroster.
  destruct (roll_each_ok (combatants e) e h g)
    as (e1 & h1 & g1 & Hrun & Hc & _ & _ & Hrange).
  destruct (roll_each_draws (combatants e) e h g)
    as (e1' & h1' & Hrun' & Hfields & Hframe & Hdraw).
  rewrite Hrun in Hrun'. injection Hrun' as <- <- ->.
  rewrite Hrun.
  eexists; exists h1; eexists. split; [reflexivity |].
  cbn zeta. simpl turn_order. simpl combatants. rewrite Hc.
  split; [reflexivity |].
  split; [apply sorted_reverse_perm |].
  split; [apply sorted_reverse_sorted |].
  split; [intros k; apply sorted_reverse_stable |].
  split; [intros l1 a l2 b l3;
          apply (sorted_reverse_keeps_order (fun r => initiative (deref h1 r))) |].
  split; [intros r Hin Hr; apply Hrange; [exact Hr | left; exact Hin] |].
  do 4 (split; [reflexivity |]).
  split; [reflexivity |].
  split.
  { intros i r Hi Hlt Hlast.
    destruct (Hdraw i r Hi Hlt Hlast) as (roll & Hd & Hinit).
    exists roll. split; [exact Hd |]. split; [exact Hinit |].
    rewrite Hinit. clear - Hd. unfold Dice.d20, Dice.roll in Hd.
    change ((20 <? 1) || (1 <? 1)) with false in Hd. cbv iota in Hd.
    change (Z.to_nat 1) with 1%nat in Hd.
    unfold Dice.roll_dice, Dice.randint in Hd.
    cbn [Dice.source Dice.cursor] in Hd.
    injection Hd as <-. cbn [Dice.total]. unfold Py.sum; cbn [fold_right].
    change (20 - 1 + 1) with 20. lia. }
  split; [exact Hfields | exact Hframe].
Qed.

Lemma start_combat_stable_initiative_order_witness :
  let h := mkHeap [ mkCombatant "Ana" PLAYER 10 10 15 0 None true [];
                    mkCombatant "Goblin" ENEMY 7 7 15 0 None true [];
                    mkCombatant "Wolf" ENEMY 11 11 13 0 None true [] ] [] in
  let e := mkEncounter "Ambush" [0; 1; 2]%nat [] 0 0 false [] in
  let g := Dice.mkRng (fun n => if (n =? 1)%nat then 11 else 4) 0 in
  exists e' h' g', start_combat e h g = (Ok (e', h'), g') /\
    turn_order e' = Py.sorted_reverse (fun r => initiative (deref h' r)) [0; 1; 2]%nat /\
    map (fun r => initiative (deref h' r)) [0; 1; 2]%nat = [5; 12; 5].
Proof.
  cbv zeta.
  destruct (start_combat_stable_initiative_order
              (mkEncounter "Ambush" [0; 1; 2]%nat [] 0 0 false [])
              (mkHeap [ mkCombatant "Ana" PLAYER 10 10 15 0 None true [];
                        mkCombatant "Goblin" ENEMY 7 7 15 0 None true [];
                        mkCombatant "Wolf" ENEMY 11 11 13 0 None true [] ] [])
              (Dice.mkRng (fun n => if (n =? 1)%nat then 11 else 4) 0))
    as (e' & h' & g' & Hs & Ht & _ & _ & _ & _ & _ & _ & _ & _ & _ & _ & Htie & _).
  - simpl. discriminate.
  - exists e', h', g'. split; [exact Hs |]. split; [exact Ht |].
    assert (Hlast : forall i r j, (i < j)%nat -> ([0; 1; 2]%nat !! i = Some r) ->
              [0; 1; 2]%nat !! j <> Some r).
    { intros i r j Hij Hi.
      destruct i as [| [| [| i]]]; try discriminate Hi; injection Hi as <-;
        destruct j as [| [| [| j]]]; try lia; discriminate. }
    destruct (Htie 0%nat 0%nat eq_refl ltac:(simpl; lia)
                (fun j Hj => Hlast 0%nat 0%nat j Hj eq_refl)) as (_ & _ & _ & H0).
    destruct (Htie 1%nat 1%nat eq_refl ltac:(simpl; lia)
                (fun j Hj => Hlast 1%nat 1%nat j Hj eq_refl)) as (_ & _ & _ & H1).
    destruct (Htie 2%nat 2%nat eq_refl ltac:(simpl; lia)
                (fun j Hj => Hlast 2%nat 2%nat j Hj eq_refl)) as (_ & _ & _ & H2).
    cbn [map]. rewrite H0, H1, H2. reflexivity.
Defined.

(** The turn order of the example above: the goblin rolled 12, Ana and
    the wolf both rolled 5 and keep their registration order. *)
Example start_combat_example :
  let h := mkHeap [ mkCombatant "Ana" PLAYER 10 10 15 0 None true [];
                    mkCombatant "Goblin" ENEMY 7 7 15 0 None true [];
                    mkCombatant "Wolf" ENEMY 11 11 13 0 None true [] ] [] in
  let e := mkEncounter "Ambush" [0; 1; 2]%nat [] 0 0 false [] in
  let g := Dice.mkRng (fun n => if (n =? 1)%nat then 11 else 4) 0 in
  match start_combat e h g with
  | (Ok (e', h'), _) =>
      turn_order e' = [1; 0; 2]%nat /\
      map (fun r => initiative (deref h' r)) (turn_order e') = [12; 5; 5]
  | _ => False
  end.
Proof. vm_compute. split; reflexivity. Qed.

End EncounterFacts.

(** ** Turns and rounds *)

Section TurnFacts.
Import Enc.

Lemma sync_characters_combatants (todo : list nat) (h : Heap) :
  combatant_objs (sync_characters todo h) = combatant_objs h.
Proof.
  revert h. induction todo as [| r rest IH]; intros h; simpl; [reflexivity |].
  rewrite IH.
  destruct (character (deref h r)) as [cref |]; [| reflexivity].
  destruct (character_objs h !! cref); reflexivity.
Qed.

(** [end_combat] touches the flag and the log of the encounter and the
    characters of the heap, nothing else. *)
Lemma end_combat_keeps (e : Encounter) (h : Heap) :
  let e' := fst (end_combat e h) in
  let h' := snd (end_combat e h) in
  round_number e' = round_number e /\
  turn_order e' = turn_order e /\
  combatants e' = combatants e /\
  current_turn_index e' = current_turn_index e /\
  is_active e' = false /\
  combatant_objs h' = combatant_objs h.
Proof.
  unfold end_combat; cbv zeta.
  destruct ((0 <? length (conscious_of is_player h (combatants (set_is_active false e))))%nat
            && (length (conscious_of is_enemy h (combatants (set_is_active false e))) =? 0)%nat);
    [| destruct (length (conscious_of is_player h (combatants (set_is_active false e))) =? 0)%nat];
    simpl; rewrite sync_characters_combatants; repeat split.
Qed.

(** While the index stays inside the turn order, a call only moves the
    index. *)
Lemma next_turn_inside (e : Encounter) (h : Heap) :
  is_active e = true ->
  current_turn_index e + 1 < Z.of_nat (length (turn_order e)) ->
  next_turn e h = (set_current_turn_index (current_turn_index e + 1) e, h).
Proof.
  intros Hact Hlt. unfold next_turn. rewrite Hact; simpl.
  destruct (Z.leb_spec (Z.of_nat (length (turn_order e))) (current_turn_index e + 1));
    [lia | reflexivity].
Qed.

(** The call that reaches the end of the turn order starts the next
    round. *)
Lemma next_turn_wraps (e : Encounter) (h : Heap) :
  is_active e = true ->
  Z.of_nat (length (turn_order e)) <= current_turn_index e + 1 ->
  let e' := fst (next_turn e h) in
  let h' := snd (next_turn e h) in
  round_number e' = round_number e + 1 /\
  turn_order e' = List.filter (fun r => is_conscious (deref h r)) (turn_order e) /\
  combatants e' = combatants e /\
  current_turn_index e' = 0 /\
  combatant_objs h' = combatant_objs h.
Proof.
  intros Hact Hge. unfold next_turn. rewrite Hact; simpl negb; cbv iota zeta.
  destruct (Z.leb_spec (Z.of_nat (length (turn_order (set_current_turn_index
              (current_turn_index e + 1) e))))
              (current_turn_index (set_current_turn_index
              (current_turn_index e + 1) e))) as [_ | Hlt];
    [| simpl in Hlt; lia].
  match goal with
  | |- context [if should_end_combat ?e5 h then _ else _] =>
      destruct (should_end_combat e5 h);
      [ destruct (end_combat_keeps e5 h) as (Hr & Ht & Hc & Hi & _ & Ho);
        rewrite Hr, Ht, Hc, Hi, Ho
      | ]
  end; simpl; repeat split.
Qed.

Lemma acts_app (t1 t2 : list Action) (h : Heap) :
  acts (t1 ++ t2) h = acts t2 (acts t1 h).
Proof. unfold acts. apply fold_left_app. Qed.

Lemma play_turns_inside (script : list (list Action)) (e : Encounter) (h : Heap) :
  is_active e = true ->
  current_turn_index e + Z.of_nat (length script) < Z.of_nat (length (turn_order e)) ->
  exists e1, play_turns script e h = (e1, acts (concat script) h) /\
    is_active e1 = true /\
    current_turn_index e1 = current_turn_index e + Z.of_nat (length script) /\
    turn_order e1 = turn_order e /\
    round_number e1 = round_number e /\
    combatants e1 = combatants e.
Proof.
  revert e h. induction script as [| turn rest IH]; intros e h Hact Hlt.
  - exists e. simpl. repeat split; try assumption; lia.
  - cbn [play_turns length concat] in *.
    rewrite next_turn_inside by (assumption || lia).
    destruct (IH (set_current_turn_index (current_turn_index e + 1) e) (acts turn h))
      as (e1 & -> & Ha & Hi & Ht & Hr & Hc); simpl; [assumption | lia |].
    exists e1. rewrite acts_app. split; [reflexivity |]. simpl in *.
    repeat split; try assumption. lia.
Qed.

Lemma play_turns_snoc (script : list (list Action)) (turn : list Action)
    (e : Encounter) (h : Heap) :
  play_turns (script ++ [turn]) e h
  = next_turn (fst (play_turns script e h)) (acts turn (snd (play_turns script e h))).
Proof.
  revert e h. induction script as [| t rest IH]; intros e h.
  - simpl. destruct (next_turn e (acts turn h)); reflexivity.
  - cbn [play_turns app]. destruct (next_turn e (acts t h)) as [e1 h1].
    apply IH.
Qed.

(** Damage and healing of amounts >= 0 keep a combatant in good
    order. *)
Lemma take_damage_sound (c : Combatant) (amount : Z) :
  sound c -> 0 <= amount -> sound (fst (take_damage amount c)).
Proof.
  intros (Hcons & Hmax & Hnodup) Ha.
  split; [apply take_damage_consistent; assumption |].
  unfold take_damage; simpl.
  destruct (health c - Z.min amount (health c) <=? 0); simpl.
  - destruct (Py.contains "unconscious" (conditions c)) eqn:E; simpl.
    + split; [lia | exact Hnodup].
    + split; [lia |]. apply NoDup_app. split; [exact Hnodup |].
      split; [| apply NoDup_singleton].
      intros x Hx Hx'. apply list_elem_of_singleton in Hx'. subst x.
      apply contains_In in Hx. congruence.
  - split; [lia | exact Hnodup].
Qed.

Lemma remove_first_NoDup (x : string) (xs : list string) :
  NoDup xs -> NoDup (Py.remove_first x xs).
Proof.
  induction 1 as [| y r Hnotin Hnodup IH]; simpl; [constructor |].
  destruct (String.eqb y x); [exact Hnodup |].
  constructor; [| exact IH].
  intros Hin. apply Hnotin. clear - Hin.
  induction r as [| z r IH]; simpl in Hin; [exact Hin |].
  destruct (String.eqb z x).
  - right. exact Hin.
  - apply elem_of_cons in Hin as [-> | Hin]; [left | right; apply IH; exact Hin].
Qed.

Lemma heal_sound (c : Combatant) (amount : Z) :
  sound c -> 0 <= amount -> sound (fst (heal amount c)).
Proof.
  intros (Hcons & Hmax & Hnodup) Ha.
  split; [apply heal_consistent; (assumption || lia) |].
  unfold heal; simpl.
  destruct ((0 <? Z.min (max_health c) (health c + amount)) && negb (is_conscious c));
    simpl; [| split; [lia | exact Hnodup]].
  destruct (Py.contains "unconscious" (conditions c)); simpl.
  - split; [lia | apply remove_first_NoDup; exact Hnodup].
  - split; [lia | exact Hnodup].
Qed.

Lemma deref_sound (h : Heap) (r : nat) :
  Forall sound (combatant_objs h) -> (r < length (combatant_objs h))%nat ->
  sound (deref h r).
Proof.
  intros Hall Hr. unfold deref.
  destruct (lookup_lt_is_Some_2 (combatant_objs h) r Hr) as [c Hc].
  rewrite Hc. simpl. eapply Forall_lookup_1; eassumption.
Qed.

Lemma act_sound (h : Heap) (a : Action) :
  Forall sound (combatant_objs h) -> 0 <= amount_of a ->
  Forall sound (combatant_objs (act h a)) /\
  length (combatant_objs (act h a)) = length (combatant_objs h).
Proof.
  intros Hall Ha.
  assert (Hstore : forall r c, ((r < length (combatant_objs h))%nat -> sound c) ->
            Forall sound (combatant_objs (store r c h)) /\
            length (combatant_objs (store r c h)) = length (combatant_objs h)).
  { intros r c Hc. unfold store; simpl. split; [| apply length_insert].
    destruct (Nat.lt_ge_cases r (length (combatant_objs h))) as [Hlt | Hge].
    - apply Forall_insert; [exact Hall | apply Hc; exact Hlt].
    - rewrite list_insert_ge by exact Hge. exact Hall. }
  destruct a as [r amount | r amount]; simpl in *; apply Hstore; intros Hr.
  - apply take_damage_sound; [apply deref_sound; assumption | exact Ha].
  - apply heal_sound; [apply deref_sound; assumption | exact Ha].
Qed.

Lemma acts_sound (turn : list Action) (h : Heap) :
  Forall sound (combatant_objs h) ->
  Forall (fun a => 0 <= amount_of a) turn ->
  Forall sound (combatant_objs (acts turn h)) /\
  length (combatant_objs (acts turn h)) = length (combatant_objs h).
Proof.
  revert h. induction turn as [| a rest IH]; intros h Hall Hamounts.
  - split; [exact Hall | reflexivity].
  - apply Forall_cons in Hamounts as [Ha Hrest].
    destruct (act_sound h a Hall Ha) as [Hall1 Hlen1].
    destruct (IH (act h a) Hall1 Hrest) as [Hall2 Hlen2].
    unfold acts in *; simpl. split; [exact Hall2 | congruence].
Qed.

(** C2 (amended): in an active encounter standing at turn index 0
    with a non-empty turn order of length [n], [n] calls of
    [next_turn], with whatever damage and healing is dealt in between,
    raise the round counter by exactly 1 and leave in the turn order
    exactly the combatants whose [is_conscious] flag is set by then, in
    their order: the filter reads the flag, not the health.  When the
    combatants start in good order (flag set exactly at positive
    health) and the amounts dealt are not negative, those are exactly
    the combatants with health above 0: a combatant whose health
    reached 0 is removed.  The roster keeps all its members and the
    calls do not alter the combatant objects. *)
Theorem full_round_of_turns (e : Encounter) (h : Heap) (script : list (list Action)) :
  is_active e = true ->
  current_turn_index e = 0 ->
  turn_order e <> [] ->
  length script = length (turn_order e) ->
  let e' := fst (play_turns script e h) in
  let h' := snd (play_turns script e h) in
  let h_end := acts (concat script) h in
  round_number e' = round_number e + 1 /\
  turn_order e' = List.filter (fun r => is_conscious (deref h_end r)) (turn_order e) /\
  (Forall sound (combatant_objs h) ->
   Forall (fun a => 0 <= amount_of a) (concat script) ->
   forall r, In r (turn_order e) -> (r < length (combatant_objs h))%nat ->
     (In r (turn_order e') <-> 0 < health (deref h_end r)) /\
     (health (deref h_end r) <= 0 -> ~ In r (turn_order e'))) /\
  combatants e' = combatants e /\
  combatant_objs h' = combatant_objs h_end.
Proof.
  intros Hact Hidx Hne Hlen.
  destruct (exists_last (l := script)) as (init & turn & Hscript).
  { intros ->. destruct (turn_order e); [contradiction | discriminate Hlen]. }
  subst script. rewrite length_app in Hlen; simpl in Hlen.
  rewrite play_turns_snoc.
  destruct (play_turns_inside init e h Hact)
    as (e1 & Hrun & Ha1 & Hi1 & Ht1 & Hr1 & Hc1); [lia |].
  rewrite Hrun; cbn [fst snd].
  rewrite concat_app, acts_app; simpl concat. rewrite app_nil_r.
  set (h_end := acts turn (acts (concat init) h)).
  destruct (next_turn_wraps e1 h_end Ha1) as (Hr & Ht & Hc & _ & Ho);
    [rewrite Ht1; lia |].
  cbv zeta. rewrite Hr, Ht, Hc, Ho, Hr1, Ht1, Hc1.
  split; [reflexivity |]. split; [reflexivity |].
  split; [| split; reflexivity].
  intros Hsound Hamounts r Hin Hvalid.
  assert (Hr_sound : sound (deref h_end r)).
  { assert (Hboth : Forall (fun a => 0 <= amount_of a) (concat init ++ turn))
      by exact Hamounts.
    destruct (acts_sound (concat init ++ turn) h Hsound Hboth) as [Hall Hsame].
    rewrite acts_app in Hall, Hsame. fold h_end in Hall, Hsame.
    apply deref_sound; [exact Hall | lia]. }
  destruct Hr_sound as ([Hcons _] & _ & _).
  assert (Hiff : In r (List.filter (fun r => is_conscious (deref h_end r)) (turn_order e))
                 <-> 0 < health (deref h_end r)).
  { rewrite List.filter_In, Hcons. tauto. }
  split; [exact Hiff |]. intros Hzero Hstay. apply Hiff in Hstay. lia.
Qed.

(** Ana, a goblin and a wolf; the goblin takes 7 damage during the
    first turn, the wolf takes 4 and is healed by 2 during the second,
    the third turn passes without action: round 2 begins without the
    goblin, and the roster still has all three. *)
Lemma full_round_of_turns_witness :
  let h := mkHeap [ mkCombatant "Ana" PLAYER 10 10 15 12 None true [];
                    mkCombatant "Goblin" ENEMY 7 7 15 9 None true [];
                    mkCombatant "Wolf" ENEMY 11 11 13 5 None true [] ] [] in
  let e := mkEncounter "Ambush" [0; 1; 2]%nat [0; 1; 2]%nat 0 1 true [] in
  let script := [[Damage 1 7]; [Damage 2 4; Healing 2 2]; []] in
  round_number (fst (play_turns script e h)) = 2 /\
  turn_order (fst (play_turns script e h)) = [0; 2]%nat /\
  combatants (fst (play_turns script e h)) = [0; 1; 2]%nat /\
  ~ In 1%nat (turn_order (fst (play_turns script e h))).
Proof.
  cbv zeta.
  destruct (full_round_of_turns
              (mkEncounter "Ambush" [0; 1; 2]%nat [0; 1; 2]%nat 0 1 true [])
              (mkHeap [ mkCombatant "Ana" PLAYER 10 10 15 12 None true [];
                        mkCombatant "Goblin" ENEMY 7 7 15 9 None true [];
                        mkCombatant "Wolf" ENEMY 11 11 13 5 None true [] ] [])
              [[Damage 1 7]; [Damage 2 4; Healing 2 2]; []])
    as (Hr & Ht & Hh & Hc & _).
  - reflexivity.
  - reflexivity.
  - simpl. discriminate.
  - reflexivity.
  - split; [exact Hr |]. split; [exact Ht |]. split; [exact Hc |].
    apply (Hh ltac:(repeat constructor; unfold sound, consistent; simpl;
                    repeat split; intros; try lia; try discriminate;
                    try reflexivity; apply NoDup_nil_2)
              ltac:(repeat constructor; simpl; lia) 1%nat).
    + simpl. tauto.
    + simpl. lia.
    + vm_compute. discriminate.
Defined.

(** C2 (counterexample): a combatant at health 0 that keeps its turn.
    An enemy registered with [add_enemy "Ghost" 0 12] is conscious at
    health 0 from the start: after [start_combat] and a full round of
    two [next_turn] calls the round has advanced by one and the ghost
    is still in the turn order.  Likewise a goblin in good order at
    1 hit point that is healed by -1 (what a spell with the notation
    "1d4-2" deals on a roll of 1) drops to health 0 with its flag
    still set, and stays in the turn order of the next round. *)
Lemma zero_health_combatant_keeps_its_turn :
  (let h0 := mkHeap [] [Char.defaults "Ana" "fighter"] in
   let players := add_player 0 (Enc.new "Crypt") h0 in
   let setup := add_enemy "Ghost" 0 12 (fst players) (snd players) in
   match start_combat (fst setup) (snd setup) Dice.example_rng with
   | (Ok (e, h), _) =>
       is_active e = true /\ current_turn_index e = 0 /\
       length (turn_order e) = 2%nat /\
       round_number (fst (play_turns [[]; []] e h)) = round_number e + 1 /\
       name (deref (snd (play_turns [[]; []] e h)) 1) = "Ghost" /\
       health (deref (snd (play_turns [[]; []] e h)) 1) = 0 /\
       In 1%nat (turn_order (fst (play_turns [[]; []] e h)))
   | _ => False
   end) /\
  (let h := mkHeap [ mkCombatant "Ana" PLAYER 10 10 15 12 None true [];
                     mkCombatant "Goblin" ENEMY 1 7 15 9 None true [] ] [] in
   let e := mkEncounter "Ambush" [0; 1]%nat [0; 1]%nat 0 1 true [] in
   let script := [[Healing 1 (-1)]; []] in
   Forall sound (combatant_objs h) /\
   round_number (fst (play_turns script e h)) = round_number e + 1 /\
   health (deref (snd (play_turns script e h)) 1) = 0 /\
   In 1%nat (turn_order (fst (play_turns script e h)))).
Proof.
  split.
  - vm_compute. repeat split; auto.
  - cbv zeta. split.
    + repeat constructor; unfold consistent; simpl; intros;
        try lia; try discriminate; try reflexivity.
    + vm_compute. repeat split; auto.
Qed.

End TurnFacts.

(** ** Dice notation *)

Section DiceFacts.
Import Dice.

Lemma append_cons (c : ascii) (d r : string) :
  String c d +:+ r = String c (d +:+ r).
Proof. reflexivity. Qed.

Lemma append_nil (r : string) : EmptyString +:+ r = r.
Proof. reflexivity. Qed.

Lemma span_digits_spec (s : string) :
  s = fst (span_digits s) +:+ snd (span_digits s) /\
  all_digits (fst (span_digits s)) = true /\
  no_digit_ahead (snd (span_digits s)).
Proof.
  induction s as [| c r IH]; simpl; [repeat split |].
  destruct (is_digit c) eqn:Hc.
  - destruct (span_digits r) as [d rest]; simpl in *.
    destruct IH as (Heq & Hd & Hn).
    rewrite Hc, Hd, append_cons. repeat split; [congruence | exact Hn].
  - simpl. repeat split. exact Hc.
Qed.

Lemma span_digits_app (d rest : string) :
  all_digits d = true -> no_digit_ahead rest ->
  span_digits (d +:+ rest) = (d, rest).
Proof.
  intros Hd Hn. induction d as [| c r IH]; simpl in *.
  - destruct rest as [| c r]; simpl in *; [reflexivity |].
    rewrite Hn. reflexivity.
  - apply andb_true_iff in Hd as [Hc Hr].
    rewrite Hc, (IH Hr). reflexivity.
Qed.

Lemma span_digits_all (d : string) :
  all_digits d = true -> span_digits d = (d, EmptyString).
Proof.
  intros Hd. induction d as [| c r IH]; simpl in *; [reflexivity |].
  apply andb_true_iff in Hd as [Hc Hr].
  rewrite Hc, (IH Hr). reflexivity.
Qed.

Lemma is_sign_no_digit (c : ascii) : is_sign c = true -> is_digit c = false.
Proof.
  unfold is_sign. intros H. apply orb_true_iff in H as [H | H];
    apply Ascii.eqb_eq in H; subst c; reflexivity.
Qed.

Lemma is_empty_false (s : string) : s <> EmptyString -> is_empty s = false.
Proof. destruct s; [contradiction | reflexivity]. Qed.

Lemma is_empty_true (s : string) : is_empty s = true -> s = EmptyString.
Proof. destruct s; [reflexivity | discriminate]. Qed.

(** Every string of the grammar is matched, with its parts as groups. *)
Lemma notation_re_match (s c sd : string) (m : option string) :
  notation s c sd m -> re_match s = Some (mkMatch c sd m).
Proof.
  intros [c0 s0 [Hc Hcd] [Hs Hsd] | c0 s0 sg m0 [Hc Hcd] [Hs Hsd] Hsg [Hm Hmd]];
    unfold re_match; rewrite ?append_cons, ?append_nil.
  - rewrite (span_digits_app c0 (String "d" s0) Hcd) by reflexivity.
    rewrite (is_empty_false _ Hc). cbn [negb Ascii.eqb Bool.eqb].
    rewrite (span_digits_all s0 Hsd), (is_empty_false _ Hs). reflexivity.
  - rewrite (span_digits_app c0 (String "d" (s0 +:+ String sg m0)) Hcd) by reflexivity.
    rewrite (is_empty_false _ Hc). cbn [negb Ascii.eqb Bool.eqb].
    rewrite (span_digits_app s0 (String sg m0) Hsd)
      by (simpl; apply is_sign_no_digit; exact Hsg).
    rewrite (is_empty_false _ Hs).
    replace (at_end (String sg m0)) with false
      by (destruct m0; [contradiction | reflexivity]).
    rewrite Hsg. cbn [negb].
    rewrite (span_digits_all m0 Hmd), (is_empty_false _ Hm). reflexivity.
Qed.

Lemma last_char_app (a : string) (c : ascii) (r : string) :
  Py.last_char (a +:+ String c r) = Py.last_char (String c r).
Proof.
  induction a as [| x a IH]; [reflexivity |].
  change (String x a +:+ String c r) with (String x (a +:+ String c r)).
  cbn [Py.last_char]. rewrite IH.
  destruct a; reflexivity.
Qed.

Lemma at_end_cases (s : string) :
  at_end s = true -> s = EmptyString \/ s = Py.nl.
Proof.
  destruct s as [| c [| c' r]]; simpl; intros H;
    [left; reflexivity | right | discriminate].
  apply Ascii.eqb_eq in H. subst c. reflexivity.
Qed.

Lemma app_empty_r (s : string) : s +:+ EmptyString = s.
Proof.
  induction s as [| c r IH]; [reflexivity |].
  rewrite append_cons, IH. reflexivity.
Qed.

(** A matched string that does not end in a line feed is a string of
    the grammar. *)
Lemma re_match_notation (s : string) (mt : Match) :
  re_match s = Some mt ->
  Py.last_char s <> Some (ascii_of_nat 10) ->
  notation s (group1 mt) (group2 mt) (group3 mt).
Proof.
  unfold re_match. intros Hm Hlast.
  destruct (span_digits_spec s) as (Hs & Hd1 & _).
  destruct (span_digits s) as [g1 r1]; simpl in *.
  destruct (is_empty g1) eqn:Hg1; [discriminate |].
  destruct r1 as [| c1 r2]; [discriminate |].
  destruct (Ascii.eqb c1 "d") eqn:Hc1; simpl in Hm; [| discriminate].
  apply Ascii.eqb_eq in Hc1; subst c1.
  destruct (span_digits_spec r2) as (Hr2 & Hd2 & _).
  destruct (span_digits r2) as [g2 r3]; simpl in *.
  destruct (is_empty g2) eqn:Hg2; [discriminate |].
  assert (Hn1 : g1 <> EmptyString) by (intros ->; discriminate).
  assert (Hn2 : g2 <> EmptyString) by (intros ->; discriminate).
  destruct (at_end r3) eqn:He3.
  - injection Hm as <-; simpl.
    apply at_end_cases in He3 as [-> | ->].
    + rewrite app_empty_r in Hr2. subst r2 s.
      apply (notation_plain g1 g2); split; assumption.
    + exfalso. apply Hlast. subst r2 s.
      rewrite last_char_app, <- append_cons. unfold Py.nl.
      rewrite last_char_app. reflexivity.
  - destruct r3 as [| sg r4]; [discriminate |].
    destruct (is_sign sg) eqn:Hsg; simpl in Hm; [| discriminate].
    destruct (span_digits_spec r4) as (Hr4 & Hd3 & _).
    destruct (span_digits r4) as [g3 r5]; simpl in *.
    destruct (is_empty g3) eqn:Hg3; [discriminate |].
    assert (Hn3 : g3 <> EmptyString) by (intros ->; discriminate).
    destruct (at_end r5) eqn:He5; [| discriminate].
    injection Hm as <-; simpl.
    apply at_end_cases in He5 as [-> | ->].
    + rewrite app_empty_r in Hr4. subst r4 r2 s.
      apply (notation_modified g1 g2 sg g3); try split; assumption.
    + exfalso. apply Hlast. subst r4 r2 s.
      rewrite last_char_app, <- append_cons.
      rewrite last_char_app, <- append_cons. unfold Py.nl.
      rewrite last_char_app. reflexivity.
Qed.

(** *** The normalised string never ends in white space *)

Lemma isspace_lower_char (c : ascii) :
  Py.isspace (Py.lower_char c) = Py.isspace c.
Proof. destruct c as [[] [] [] [] [] [] [] []]; reflexivity. Qed.

Lemma rstrip_ends_clean (s : string) : Py.ends_clean (Py.rstrip s).
Proof.
  unfold Py.ends_clean. induction s as [| c r IH]; simpl; [exact I |].
  destruct (Py.rstrip r) as [| c' r'] eqn:Hr.
  - destruct (Py.isspace c) eqn:Hc; simpl; [exact I | exact Hc].
  - exact IH.
Qed.

Lemma last_char_lower (s : string) :
  Py.last_char (Py.lower s) = option_map Py.lower_char (Py.last_char s).
Proof.
  induction s as [| c r IH]; [reflexivity |].
  destruct r as [| c' r']; [reflexivity |].
  exact IH.
Qed.

Lemma lower_ends_clean (s : string) : Py.ends_clean s -> Py.ends_clean (Py.lower s).
Proof.
  unfold Py.ends_clean. rewrite last_char_lower.
  destruct (Py.last_char s) as [c |]; simpl; [| trivial].
  rewrite isspace_lower_char. trivial.
Qed.

Lemma last_char_remove_spaces (s : string) (c : ascii) :
  Py.last_char s = Some c -> Py.isspace c = false ->
  Py.last_char (Py.remove_spaces s) = Some c.
Proof.
  intros Hlast Hc. induction s as [| a r IH]; [discriminate Hlast |].
  destruct r as [| a' r'].
  - injection Hlast as ->. simpl.
    destruct (Ascii.eqb_spec c " ") as [-> | _]; [discriminate Hc | reflexivity].
  - specialize (IH Hlast).
    change (Py.remove_spaces (String a (String a' r')))
      with (if Ascii.eqb a " " then Py.remove_spaces (String a' r')
            else String a (Py.remove_spaces (String a' r'))).
    destruct (Ascii.eqb a " "); [exact IH |].
    destruct (Py.remove_spaces (String a' r')); [discriminate IH | exact IH].
Qed.

Lemma remove_spaces_ends_clean (s : string) :
  Py.ends_clean s -> Py.ends_clean (Py.remove_spaces s).
Proof.
  unfold Py.ends_clean. intros H.
  destruct (Py.last_char s) as [c |] eqn:Hl.
  - rewrite (last_char_remove_spaces s c Hl H). exact H.
  - destruct s as [| a r]; [exact I |].
    exfalso. clear H. revert a Hl.
    induction r as [| b r IH]; intros a Hl; [discriminate Hl |].
    apply (IH b). exact Hl.
Qed.

Lemma normalize_ends_clean (input : string) : Py.ends_clean (normalize input).
Proof.
  unfold normalize, Py.strip.
  apply remove_spaces_ends_clean, lower_ends_clean, rstrip_ends_clean.
Qed.

Lemma normalize_no_line_feed (input : string) :
  Py.last_char (normalize input) <> Some (ascii_of_nat 10).
Proof.
  pose proof (normalize_ends_clean input) as H. unfold Py.ends_clean in H.
  intros Heq. rewrite Heq in H. discriminate H.
Qed.

(** On a normalised string the pattern matches exactly the grammar. *)
Lemma re_match_iff_grammar (input : string) :
  (exists mt, re_match (normalize input) = Some mt) <-> in_grammar (normalize input).
Proof.
  split.
  - intros [mt Hm]. exists (group1 mt), (group2 mt), (group3 mt).
    apply re_match_notation; [exact Hm | apply normalize_no_line_feed].
  - intros (c & sd & m & Hn). eexists. apply notation_re_match. exact Hn.
Qed.

(** *** Rolling *)

Lemma roll_dice_spec (sides : Z) (n : nat) (g : Rng) :
  1 <= sides ->
  length (fst (roll_dice sides n g)) = n /\
  Forall (fun x => 1 <= x <= sides) (fst (roll_dice sides n g)).
Proof.
  intros Hs. revert g. induction n as [| k IH]; intros g; simpl.
  - split; [reflexivity | constructor].
  - destruct (IH (mkRng (source g) (S (cursor g)))) as [Hlen Hall].
    destruct (roll_dice sides k (mkRng (source g) (S (cursor g)))) as [rs g2].
    simpl in *. split; [congruence |].
    constructor; [| exact Hall].
    pose proof (Z.mod_pos_bound (source g (cursor g)) (sides - 1 + 1) ltac:(lia)).
    lia.
Qed.

Lemma roll_ok (sides count modifier : Z) (g : Rng) :
  1 <= sides -> 1 <= count ->
  exists r g', roll sides count modifier g = (Ok r, g') /\
    Dice.count r = count /\ Dice.sides r = sides /\
    Dice.modifier r = modifier /\
    length (rolls r) = Z.to_nat count /\
    Forall (fun x => 1 <= x <= sides) (rolls r) /\
    total r = Py.sum (rolls r) + modifier.
Proof.
  intros Hs Hc. unfold roll.
  destruct (Z.ltb_spec sides 1); [lia |].
  destruct (Z.ltb_spec count 1); [lia |]. cbn [orb].
  destruct (roll_dice_spec sides (Z.to_nat count) g Hs) as [Hlen Hall].
  destruct (roll_dice sides (Z.to_nat count) g) as [rs g1]; simpl in Hlen, Hall.
  eexists; eexists. split; [reflexivity |]. cbn [Dice.count Dice.sides Dice.modifier rolls total].
  repeat split; assumption.
Qed.

Lemma roll_rejects (sides count modifier : Z) (g : Rng) :
  sides < 1 \/ count < 1 ->
  roll sides count modifier g
  = (Raise (ValueError "Sides and count must be positive integers"), g).
Proof.
  intros H. unfold roll.
  destruct (Z.ltb_spec sides 1); destruct (Z.ltb_spec count 1);
    try reflexivity; lia.
Qed.

(** C5 (counterexample): the input ["ABC"] is outside the grammar and
    is rejected, but the error message is built from the normalised
    string ["abc"]; the original input does not occur in it. *)
Lemma parse_and_roll_error_is_normalised :
  ~ in_grammar (normalize "ABC") /\
  parse_and_roll "ABC" example_rng
    = (Raise (ValueError "Invalid dice format: abc. Use format like '1d20', '2d6+3'"),
       example_rng) /\
  carries (ValueError "Invalid dice format: abc. Use format like '1d20', '2d6+3'")
    "ABC" = false /\
  carries (ValueError "Invalid dice format: abc. Use format like '1d20', '2d6+3'")
    "abc" = true.
Proof.
  split.
  - intros Hg. apply re_match_iff_grammar in Hg as [mt Hm].
    vm_compute in Hm. discriminate Hm.
  - repeat split; vm_compute; reflexivity.
Qed.

(** A string of the grammar with a count of 0 is matched and then
    refused by [roll], with an error that names no input at all. *)
Example parse_and_roll_zero_dice :
  in_grammar (normalize "0d6") /\
  parse_and_roll "0d6" example_rng
    = (Raise (ValueError "Sides and count must be positive integers"), example_rng).
Proof.
  split; [| vm_compute; reflexivity].
  exists "0", "6", None.
  change (normalize "0d6") with ("0" +:+ "d" +:+ "6").
  apply notation_plain; split; (discriminate || reflexivity).
Qed.

(** C5 (amended): [parse_and_roll] normalises its input (strip, lower
    case, all spaces removed).  It returns a roll exactly when the
    normalised string belongs to the grammar with a count and a number
    of sides of at least 1, and then rolls the dice described: [count]
    dice of 1 .. [sides], the modifier and their total.  A string of
    the grammar with count or sides 0 is refused by [roll].  Every
    other input fails with the invalid-format error, whose message
    holds the normalised string. *)
Theorem parse_and_roll_grammar (input : string) (g : Rng) :
  let s := normalize input in
  ((exists r g', parse_and_roll input g = (Ok r, g')) <->
   (exists c sd m, notation s c sd m /\ 1 <= int c /\ 1 <= int sd)) /\
  (forall c sd m, notation s c sd m ->
     parse_and_roll input g = roll (int sd) (int c) (modifier_of m) g /\
     (1 <= int c -> 1 <= int sd ->
      exists r g', parse_and_roll input g = (Ok r, g') /\
        count r = int c /\ sides r = int sd /\ modifier r = modifier_of m /\
        length (rolls r) = Z.to_nat (int c) /\
        Forall (fun x => 1 <= x <= int sd) (rolls r) /\
        total r = Py.sum (rolls r) + modifier r) /\
     (int sd < 1 \/ int c < 1 ->
      parse_and_roll input g
      = (Raise (ValueError "Sides and count must be positive integers"), g))) /\
  (~ in_grammar s -> parse_and_roll input g = (Raise (invalid_format s), g)).
Proof.
  cbv zeta.
  assert (Hrun : forall c sd m, notation (normalize input) c sd m ->
            parse_and_roll input g = roll (int sd) (int c) (modifier_of m) g).
  { intros c sd m Hn. unfold parse_and_roll.
    rewrite (notation_re_match _ _ _ _ Hn). reflexivity. }
  split; [| split].
  - split.
    + intros (r & g' & Hr).
      destruct (re_match (normalize input)) as [mt |] eqn:Hm.
      * pose proof (re_match_notation _ _ Hm (normalize_no_line_feed input)) as Hn.
        exists (group1 mt), (group2 mt), (group3 mt). split; [exact Hn |].
        rewrite (Hrun _ _ _ Hn) in Hr.
        destruct (Z.le_gt_cases 1 (int (group1 mt))) as [Hc | Hc];
          destruct (Z.le_gt_cases 1 (int (group2 mt))) as [Hs | Hs];
          try (split; assumption);
          rewrite roll_rejects in Hr by lia; discriminate Hr.
      * unfold parse_and_roll in Hr. rewrite Hm in Hr. discriminate Hr.
    + intros (c & sd & m & Hn & Hc & Hs).
      rewrite (Hrun _ _ _ Hn).
      destruct (roll_ok (int sd) (int c) (modifier_of m) g Hs Hc) as (r & g' & Hr & _).
      exists r, g'. exact Hr.
  - intros c sd m Hn. split; [apply Hrun; exact Hn |]. split.
    + intros Hc Hs. rewrite (Hrun _ _ _ Hn).
      destruct (roll_ok (int sd) (int c) (modifier_of m) g Hs Hc)
        as (r & g' & Hr & H1 & H2 & H3 & H4 & H5 & H6).
      exists r, g'. rewrite H3. repeat split; assumption.
    + intros Hbad. rewrite (Hrun _ _ _ Hn). apply roll_rejects. exact Hbad.
  - intros Hout. unfold parse_and_roll.
    destruct (re_match (normalize input)) as [mt |] eqn:Hm; [| reflexivity].
    exfalso. apply Hout. apply re_match_iff_grammar. exists mt. exact Hm.
Qed.

Lemma parse_and_roll_grammar_witness :
  exists r g', parse_and_roll " 2D6 + 3 " example_rng = (Ok r, g') /\
    count r = 2 /\ sides r = 6 /\ modifier r = 3 /\
    Forall (fun x => 1 <= x <= 6) (rolls r) /\
    total r = Py.sum (rolls r) + modifier r.
Proof.
  destruct (parse_and_roll_grammar " 2D6 + 3 " example_rng) as (_ & Hin & _).
  destruct (Hin "2" "6" (Some "+3")) as (_ & Hok & _).
  - change (normalize " 2D6 + 3 ") with ("2" +:+ "d" +:+ "6" +:+ String "+" "3").
    apply notation_modified; try split; (discriminate || reflexivity).
  - destruct Hok as (r & g' & Hr & Hc & Hs & Hm & _ & Hall & Ht);
      [vm_compute; discriminate | vm_compute; discriminate |].
    exists r, g'. repeat split; assumption.
Defined.

End DiceFacts.

(** ** Sessions *)

Section SessionFacts.
Import Sess.

(** C6 (the code at the failing input): a session that was just
    created has the location "Starting Village", so its header block
    is the line "Current Location: Starting Village"; [get_context]
    returns the empty string for it, without header and without
    separator, because of its early return on an empty history. *)
Theorem get_context_of_new_session :
  let s := fst (new "test_session" "sessions" example_env) in
  story_history s = [] /\
  header s = ["Current Location: Starting Village"] /\
  get_context 10 s = "" /\
  get_context 10 s <> Py.join Py.nl (header s ++ [""]).
Proof.
  cbv zeta. repeat split; try (vm_compute; reflexivity).
  vm_compute. discriminate.
Qed.

(** An event of one of the four labelled kinds gives the line
    "<label>: <content>"; an event of any other kind gives no line. *)
Lemma context_line_labelled (ev : StoryEvent) (label : string) :
  role_label (event_type ev) = Some label ->
  context_line ev = [label +:+ ": " +:+ content ev].
Proof.
  unfold role_label, context_line.
  destruct (String.eqb (event_type ev) "dm_response");
    [intros [= <-]; reflexivity |].
  destruct (String.eqb (event_type ev) "player_action");
    [intros [= <-]; reflexivity |].
  destruct (String.eqb (event_type ev) "dice_roll");
    [intros [= <-]; reflexivity |].
  destruct (String.eqb (event_type ev) "system");
    [intros [= <-]; reflexivity | discriminate].
Qed.

Lemma context_line_unlabelled (ev : StoryEvent) :
  role_label (event_type ev) = None -> context_line ev = [].
Proof.
  unfold role_label, context_line.
  destruct (String.eqb (event_type ev) "dm_response"); [discriminate |].
  destruct (String.eqb (event_type ev) "player_action"); [discriminate |].
  destruct (String.eqb (event_type ev) "dice_roll"); [discriminate |].
  destruct (String.eqb (event_type ev) "system"); [discriminate | reflexivity].
Qed.

(** For a positive [last_n] the slice of [get_context] is the last
    [last_n] events. *)
Lemma slice_from_last {A : Type} (n : Z) (xs : list A) :
  0 < n -> Py.slice_from (- n) xs = last_events n xs.
Proof.
  intros Hn. unfold Py.slice_from, last_events.
  destruct (Z.ltb_spec (- n) 0); [| lia].
  f_equal. lia.
Qed.

(** On a session with at least one event and for a positive [last_n],
    [get_context] is the header, an empty line and one line for each of
    the last [last_n] events that has a role label, joined by line
    feeds. *)
Lemma get_context_transcript (last_n : Z) (s : GameSession) :
  story_history s <> [] -> 0 < last_n ->
  get_context last_n s
  = Py.join Py.nl
      (header s ++ [""]
       ++ concat (map context_line (last_events last_n (story_history s)))).
Proof.
  intros Hne Hn. unfold get_context.
  destruct (story_history s) as [| ev rest] eqn:Hh; [contradiction |].
  rewrite slice_from_last by assumption.
  rewrite <- List.app_assoc. reflexivity.
Qed.

(** [last_n = 0] selects every event, not none. *)
Example slice_from_zero :
  Py.slice_from (- 0) [1; 2; 3] = [1; 2; 3] /\ last_events 0 [1; 2; 3] = [].
Proof. split; reflexivity. Qed.

Lemma mapM_as_str (l : list string) : mapM as_str (map JStr l) = Some l.
Proof.
  induction l as [| x r IH]; [reflexivity |].
  cbn [map mapM]. rewrite IH. reflexivity.
Qed.

Lemma load_event_asdict (ev : StoryEvent) : load_event (asdict ev) = Some ev.
Proof. destruct ev; reflexivity. Qed.

Lemma mapM_load_event (h : list StoryEvent) :
  mapM load_event (map asdict h) = Some h.
Proof.
  induction h as [| ev r IH]; [reflexivity |].
  cbn [map mapM]. rewrite load_event_asdict, IH. reflexivity.
Qed.

Lemma as_opt_str_opt_str (o : option string) : as_opt_str (opt_str o) = Some o.
Proof. destruct o; reflexivity. Qed.

(** Reading back the record [save_session] builds. *)
Lemma load_fields_session_data (fresh s : GameSession) (stamp : string) :
  load_fields fresh (session_data s stamp)
  = Some (mkGameSession (session_id fresh) (sessions_dir fresh) (session_file fresh)
            (story_history s) (current_location s) (active_npcs s)
            (current_scene s) (session_notes s) (created_at s) (Some stamp)
            (turn_count s) (in_combat s) (current_encounter s)).
Proof.
  unfold load_fields, session_data, get_or, as_str_list.
  simpl.
  rewrite !mapM_as_str, as_opt_str_opt_str; simpl.
  rewrite mapM_load_event. reflexivity.
Qed.

(** C7: when [save_session] succeeds, a fresh [GameSession] created
    with the same identifier and directory loads the record and gets
    back [turn_count], [current_location] and the whole story history,
    event by event and in order (content, kind and metadata, and the
    time stamps too). *)
Theorem save_then_load_round_trip (s : GameSession) (env : Env) :
  session_file s = path_join (sessions_dir s) (session_id s +:+ ".json") ->
  fst (fst (save_session s env)) = true ->
  let env1 := snd (save_session s env) in
  let fresh := fst (new (session_id s) (sessions_dir s) env1) in
  let env2 := snd (new (session_id s) (sessions_dir s) env1) in
  let loaded := snd (load_session fresh env2) in
  fst (load_session fresh env2) = true /\
  turn_count loaded = turn_count s /\
  current_location loaded = current_location s /\
  story_history loaded = story_history s /\
  map content (story_history loaded) = map content (story_history s) /\
  map event_type (story_history loaded) = map event_type (story_history s) /\
  map metadata (story_history loaded) = map metadata (story_history s).
Proof.
  intros Hfile Hok. cbv zeta.
  unfold save_session, now, write_json in *.
  cbn [fst snd files unwritable clock ticks] in *.
  destruct (decide (session_file s ∈ unwritable env)) as [Hin | Hout];
    [cbn [fst snd] in Hok; discriminate Hok |].
  cbn [fst snd files unwritable clock ticks].
  unfold load_session, new, now. cbn [fst snd session_file files].
  rewrite <- Hfile, lookup_insert_eq, load_fields_session_data.
  cbn [fst snd turn_count current_location story_history].
  repeat split.
Qed.

Lemma save_then_load_round_trip_witness :
  let s0 := fst (new "camp" "sessions" example_env) in
  let env0 := snd (new "camp" "sessions" example_env) in
  let s1 := fst (add_story_event "player_action" "I search the room"
                   (Some [("dice_result", JObj [("total", JInt 15)])]) s0 env0) in
  let env1 := snd (add_story_event "player_action" "I search the room"
                     (Some [("dice_result", JObj [("total", JInt 15)])]) s0 env0) in
  let env2 := snd (save_session s1 env1) in
  let fresh := fst (new "camp" "sessions" env2) in
  let loaded := snd (load_session fresh (snd (new "camp" "sessions" env2))) in
  turn_count loaded = 1 /\
  current_location loaded = "Starting Village" /\
  story_history loaded = story_history s1.
Proof.
  cbv zeta.
  destruct (save_then_load_round_trip
              (fst (add_story_event "player_action" "I search the room"
                      (Some [("dice_result", JObj [("total", JInt 15)])])
                      (fst (new "camp" "sessions" example_env))
                      (snd (new "camp" "sessions" example_env))))
              (snd (add_story_event "player_action" "I search the room"
                      (Some [("dice_result", JObj [("total", JInt 15)])])
                      (fst (new "camp" "sessions" example_env))
                      (snd (new "camp" "sessions" example_env)))))
    as (_ & Ht & Hl & Hh & _).
  - reflexivity.
  - reflexivity.
  - split; [exact Ht |]. split; [exact Hl | exact Hh].
Defined.

End SessionFacts.

(** * Further properties of the code *)

(** ** Rolls and their descriptions *)

Section RollFacts.
Import Dice.

Lemma sum_bounds (sides : Z) (rs : list Z) :
  Forall (fun x => 1 <= x <= sides) rs ->
  Z.of_nat (length rs) <= Py.sum rs <= Z.of_nat (length rs) * sides.
Proof.
  unfold Py.sum. induction 1 as [| x r Hx Hall IH]; simpl fold_right.
  - simpl. lia.
  - rewrite length_cons, Nat2Z.inj_succ. nia.
Qed.

Lemma roll_dice_cursor (sides : Z) (n : nat) (g : Rng) :
  snd (roll_dice sides n g) = mkRng (source g) (cursor g + n).
Proof.
  revert g. induction n as [| k IH]; intros g; simpl.
  - destruct g; simpl. f_equal. lia.
  - specialize (IH (mkRng (source g) (S (cursor g)))).
    destruct (roll_dice sides k (mkRng (source g) (S (cursor g)))) as [rs g2].
    simpl in *. rewrite IH. f_equal. lia.
Qed.

(** X1: with at least one side and one die, [roll] returns [count]
    dice, its total lies between [count + modifier] and
    [count * sides + modifier], and it reads exactly [count] numbers
    from the generator. *)
Theorem roll_total_bounds (sides count modifier : Z) (g : Rng) :
  1 <= sides -> 1 <= count ->
  exists r, roll sides count modifier g
            = (Ok r, mkRng (source g) (cursor g + Z.to_nat count)) /\
    Z.of_nat (length (rolls r)) = count /\
    count + modifier <= total r <= count * sides + modifier.
Proof.
  intros Hs Hc. unfold roll.
  destruct (Z.ltb_spec sides 1); [lia |].
  destruct (Z.ltb_spec count 1); [lia |]. cbn [orb].
  pose proof (roll_dice_spec sides (Z.to_nat count) g Hs) as [Hlen Hall].
  pose proof (roll_dice_cursor sides (Z.to_nat count) g) as Hcur.
  destruct (roll_dice sides (Z.to_nat count) g) as [rs g1]; simpl in Hlen, Hall, Hcur.
  subst g1. eexists. split; [reflexivity |]. cbn [rolls total].
  pose proof (sum_bounds sides rs Hall) as Hsum.
  rewrite Hlen, Z2Nat.id in * by lia. split; [reflexivity | lia].
Qed.

Lemma roll_total_bounds_witness :
  exists r, roll 6 2 3 example_rng = (Ok r, mkRng (source example_rng) 2) /\
    5 <= total r <= 15.
Proof.
  destruct (roll_total_bounds 6 2 3 example_rng) as (r & Hr & _ & Hb); [lia | lia |].
  exists r. split; [exact Hr | lia].
Defined.

End RollFacts.

Section DescriptionFacts.
Import Dice.

Lemma int_digits_acc (acc : Z) (s : string) :
  int_digits acc s = acc * 10 ^ Z.of_nat (String.length s) + int_digits 0 s.
Proof.
  revert acc. induction s as [| c r IH]; intros acc; cbn [int_digits String.length].
  - simpl. lia.
  - rewrite IH, (IH (10 * 0 + digit_value c)).
    rewrite Nat2Z.inj_succ, Z.pow_succ_r by lia. ring.
Qed.

Lemma pretty_N_char_digit (d : N) :
  (d < 10)%N ->
  is_digit (pretty_N_char d) = true /\ digit_value (pretty_N_char d) = Z.of_N d.
Proof.
  intros Hd.
  assert (H : (d = 0 \/ d = 1 \/ d = 2 \/ d = 3 \/ d = 4 \/ d = 5 \/ d = 6
               \/ d = 7 \/ d = 8 \/ d = 9)%N) by lia.
  repeat (destruct H as [-> | H]; [split; reflexivity |]).
  subst d. split; reflexivity.
Qed.

Lemma pretty_N_go_digits (x : N) (s : string) :
  all_digits s = true ->
  all_digits (pretty_N_go x s) = true /\
  int_digits 0 (pretty_N_go x s)
  = Z.of_N x * 10 ^ Z.of_nat (String.length s) + int_digits 0 s /\
  ((0 < x)%N \/ s <> EmptyString -> pretty_N_go x s <> EmptyString).
Proof.
  revert s. induction (N.lt_wf_0 x) as [x _ IH]; intros s Hs.
  destruct (N.eq_dec x 0%N) as [-> | Hx].
  - rewrite pretty_N_go_0. split; [exact Hs |]. split; [simpl; lia |].
    intros [H | H]; [lia | exact H].
  - assert (Hpos : (0 < x)%N) by lia.
    rewrite pretty_N_go_step by exact Hpos.
    destruct (pretty_N_char_digit (x `mod` 10)%N) as [Hd Hv];
      [apply N.mod_lt; lia |].
    destruct (IH (x `div` 10)%N (N.div_lt x 10 Hpos eq_refl)
                (String (pretty_N_char (x `mod` 10)) s)) as (Ha & Hi & Hn).
    { cbn [all_digits]. rewrite Hd, Hs. reflexivity. }
    split; [exact Ha |]. split.
    + rewrite Hi. cbn [int_digits String.length].
      rewrite (int_digits_acc (10 * 0 + _) s), Hv.
      rewrite Nat2Z.inj_succ, Z.pow_succ_r by lia.
      pose proof (N.div_mod x 10 ltac:(lia)) as Hdm.
      assert (Hz : Z.of_N x = 10 * Z.of_N (x `div` 10) + Z.of_N (x `mod` 10)) by lia.
      rewrite Hz. ring.
    + intros _. apply Hn. right. discriminate.
Qed.

Lemma int_of_digits (s : string) :
  digits s -> int s = int_digits 0 s.
Proof.
  intros [Hne Hd]. destruct s as [| c r]; [contradiction |].
  cbn [all_digits] in Hd. apply andb_true_iff in Hd as [Hc _].
  unfold int.
  destruct (Ascii.eqb_spec c "-") as [-> | _]; [discriminate Hc |].
  destruct (Ascii.eqb_spec c "+") as [-> | _]; [discriminate Hc |].
  reflexivity.
Qed.

Lemma pretty_positive_digits (p : positive) :
  digits (pretty p) /\ int_digits 0 (pretty p) = Z.pos p.
Proof.
  unfold pretty, pretty_positive, pretty, pretty_N.
  destruct (decide (N.pos p = 0%N)) as [Heq | _]; [discriminate Heq |].
  destruct (pretty_N_go_digits (N.pos p) "" eq_refl) as (Ha & Hi & Hn).
  split; [split; [apply Hn; left; lia | exact Ha] |].
  rewrite Hi. simpl. lia.
Qed.

(** The decimal form of a number that is not negative is a run of
    digits that [int] reads back. *)
Lemma pretty_nonneg (n : Z) :
  0 <= n -> digits (pretty n) /\ int (pretty n) = n.
Proof.
  intros Hn. destruct n as [| p | p]; [| | lia].
  - split; [split; [discriminate | reflexivity] | reflexivity].
  - change (pretty (Z.pos p)) with (pretty p).
    destruct (pretty_positive_digits p) as [Hd Hi].
    split; [exact Hd |]. rewrite int_of_digits by exact Hd. exact Hi.
Qed.

Lemma append_assoc (a b c : string) : (a +:+ b) +:+ c = a +:+ (b +:+ c).
Proof.
  induction a as [| x a IH]; [reflexivity |].
  rewrite !append_cons, IH. reflexivity.
Qed.

(** A character the normalisation leaves alone. *)
Lemma notation_char_plain (c : ascii) :
  is_digit c = true \/ c = "d"%char \/ c = "+"%char \/ c = "-"%char ->
  Py.isspace c = false /\ Py.lower_char c = c /\ Ascii.eqb c " " = false.
Proof.
  intros [H | [-> | [-> | ->]]]; [| repeat split..].
  destruct c as [[] [] [] [] [] [] [] []]; try discriminate H; repeat split.
Qed.

Lemma normalize_plain (s : string) :
  Forall (fun c => Py.isspace c = false /\ Py.lower_char c = c
                   /\ Ascii.eqb c " " = false) (list_ascii_of_string s) ->
  normalize s = s.
Proof.
  intros Hall. unfold normalize, Py.strip.
  assert (Hl : Py.lstrip s = s).
  { destruct s as [| c r]; [reflexivity |]. simpl in *.
    apply Forall_cons in Hall as [(Hc & _) _]. rewrite Hc. reflexivity. }
  rewrite Hl.
  assert (Hr : Py.rstrip s = s).
  { clear Hl. induction s as [| c r IH]; [reflexivity |]. simpl in *.
    apply Forall_cons in Hall as [(Hc & _) Hrest].
    rewrite (IH Hrest). destruct r; [rewrite Hc |]; reflexivity. }
  rewrite Hr. clear Hl Hr.
  induction s as [| c r IH]; [reflexivity |]. simpl in *.
  apply Forall_cons in Hall as [(_ & Hlow & Hsp) Hrest].
  rewrite Hlow, Hsp, (IH Hrest). reflexivity.
Qed.

Lemma plain_app (a b : string) :
  Forall (fun c => Py.isspace c = false /\ Py.lower_char c = c
                   /\ Ascii.eqb c " " = false) (list_ascii_of_string a) ->
  Forall (fun c => Py.isspace c = false /\ Py.lower_char c = c
                   /\ Ascii.eqb c " " = false) (list_ascii_of_string b) ->
  Forall (fun c => Py.isspace c = false /\ Py.lower_char c = c
                   /\ Ascii.eqb c " " = false) (list_ascii_of_string (a +:+ b)).
Proof.
  intros Ha Hb. induction a as [| x a IH]; [exact Hb |].
  rewrite append_cons. simpl in *.
  apply Forall_cons in Ha as [Hx Ha]. constructor; [exact Hx | apply IH; exact Ha].
Qed.

Lemma digits_plain (s : string) :
  all_digits s = true ->
  Forall (fun c => Py.isspace c = false /\ Py.lower_char c = c
                   /\ Ascii.eqb c " " = false) (list_ascii_of_string s).
Proof.
  induction s as [| c r IH]; intros H; simpl in *; [constructor |].
  apply andb_true_iff in H as [Hc Hr].
  constructor; [apply notation_char_plain; left; exact Hc | apply IH; exact Hr].
Qed.

(** The description [roll] writes is a notation of the grammar, with
    the parts it was made from, and the normalisation leaves it as it
    is. *)
Lemma description_notation (sides count modifier : Z) :
  1 <= sides -> 1 <= count ->
  let desc := pretty count +:+ "d" +:+ pretty sides in
  let desc := if 0 <? modifier then desc +:+ "+" +:+ pretty modifier
              else if modifier <? 0 then desc +:+ pretty modifier
              else desc in
  normalize desc = desc /\
  exists c sd m, notation desc c sd m /\
    int c = count /\ int sd = sides /\ modifier_of m = modifier.
Proof.
  intros Hs Hc.
  destruct (pretty_nonneg count ltac:(lia)) as [Hcd Hci].
  destruct (pretty_nonneg sides ltac:(lia)) as [Hsd Hsi].
  pose proof (digits_plain _ (proj2 Hcd)) as Hcp.
  pose proof (digits_plain _ (proj2 Hsd)) as Hsp.
  assert (Hd : Forall (fun c => Py.isspace c = false /\ Py.lower_char c = c
                   /\ Ascii.eqb c " " = false) (list_ascii_of_string "d"))
    by (repeat constructor).
  cbv zeta.
  destruct (Z.ltb_spec 0 modifier) as [Hpos | Hnonpos];
    [| destruct (Z.ltb_spec modifier 0) as [Hneg | Hzero]].
  - destruct (pretty_nonneg modifier ltac:(lia)) as [Hmd Hmi].
    split.
    + apply normalize_plain. repeat apply plain_app; try assumption.
      * repeat constructor.
      * apply digits_plain, Hmd.
    + exists (pretty count), (pretty sides), (Some (String "+" (pretty modifier))).
      split; [| repeat split; try assumption].
      * rewrite !append_assoc.
        apply (notation_modified (pretty count) (pretty sides) "+" (pretty modifier));
          (assumption || reflexivity).
      * cbn [modifier_of int Ascii.eqb Bool.eqb].
        rewrite <- Hmi at 2. symmetry. apply int_of_digits. exact Hmd.
  - destruct modifier as [| p | p]; [lia | lia |].
    change (pretty (Z.neg p)) with ("-" +:+ pretty p).
    destruct (pretty_positive_digits p) as [Hpd Hpi].
    split.
    + apply normalize_plain. repeat apply plain_app; try assumption.
      * repeat constructor.
      * apply digits_plain, Hpd.
    + exists (pretty count), (pretty sides), (Some (String "-" (pretty p))).
      split; [| repeat split; try assumption].
      * rewrite !append_assoc.
        apply (notation_modified (pretty count) (pretty sides) "-" (pretty p));
          (assumption || reflexivity).
      * cbn [modifier_of int Ascii.eqb Bool.eqb]. rewrite Hpi. reflexivity.
  - assert (modifier = 0) by lia. subst modifier.
    split.
    + apply normalize_plain. repeat apply plain_app; assumption.
    + exists (pretty count), (pretty sides), None.
      split; [apply notation_plain; assumption | repeat split; assumption].
Qed.

(** X2: the description of a roll is dice notation for that roll:
    [parse_and_roll] given the description rolls the same number of
    dice with the same sides and modifier. *)
Theorem roll_description_round_trip (sides count modifier : Z) (g g' : Rng) :
  1 <= sides -> 1 <= count ->
  exists r g1, roll sides count modifier g = (Ok r, g1) /\
    parse_and_roll (description r) g' = roll sides count modifier g'.
Proof.
  intros Hs Hc.
  destruct (roll_ok sides count modifier g Hs Hc) as (r & g1 & Hr & _).
  exists r, g1. split; [exact Hr |].
  assert (Hdesc : description r
                  = let desc := pretty count +:+ "d" +:+ pretty sides in
                    if 0 <? modifier then desc +:+ "+" +:+ pretty modifier
                    else if modifier <? 0 then desc +:+ pretty modifier
                    else desc).
  { unfold roll in Hr.
    destruct ((sides <? 1) || (count <? 1)); [discriminate Hr |].
    destruct (roll_dice sides (Z.to_nat count) g) as [rs g2].
    injection Hr as <- _. reflexivity. }
  rewrite Hdesc.
  destruct (description_notation sides count modifier Hs Hc)
    as (Hnorm & c & sd & m & Hn & Hci & Hsi & Hmi).
  cbv zeta in *. unfold parse_and_roll. rewrite Hnorm.
  rewrite (notation_re_match _ _ _ _ Hn). cbn [group1 group2 group3].
  fold (modifier_of m). rewrite Hci, Hsi, Hmi. reflexivity.
Qed.

Lemma roll_description_round_trip_witness :
  exists r g1, roll 8 2 (-1) example_rng = (Ok r, g1) /\
    parse_and_roll (description r) example_rng = roll 8 2 (-1) example_rng.
Proof.
  apply (roll_description_round_trip 8 2 (-1) example_rng example_rng); lia.
Defined.

End DescriptionFacts.

Section AbilityRollFacts.
Import Rolls.

(** X3: [ability_score_roll] always returns: four dice of 1 .. 6 in
    descending order, the first three kept and the last one dropped;
    the dropped die is no larger than any kept die, and the total is the
    sum of the kept dice, that is the sum of the four dice less the
    dropped one, between 3 and 18. *)
Theorem ability_score_roll_drops_lowest (g : Dice.Rng) :
  exists r, ability_score_roll g
            = (Ok r, Dice.mkRng (Dice.source g) (Dice.cursor g + 4)) /\
    Permutation (fst (Dice.roll_dice 6 4 g)) (score_rolls r) /\
    score_rolls r = kept r ++ [dropped r] /\
    length (kept r) = 3%nat /\
    Forall (fun x => 1 <= x <= 6) (score_rolls r) /\
    StronglySorted (fun a b => b <= a) (score_rolls r) /\
    Forall (fun k => dropped r <= k) (kept r) /\
    score_total r = Py.sum (kept r) /\
    score_total r = Py.sum (fst (Dice.roll_dice 6 4 g)) - dropped r /\
    3 <= score_total r <= 18.
Proof.
  unfold ability_score_roll.
  pose proof (roll_dice_spec 6 4 g ltac:(lia)) as [Hlen Hall].
  pose proof (roll_dice_cursor 6 4 g) as Hcur.
  destruct (Dice.roll_dice 6 4 g) as [raw g1]. cbn [fst snd] in *. subst g1.
  pose proof (sorted_reverse_perm (fun x => x) raw) as Hperm.
  pose proof (sorted_reverse_sorted (fun x => x) raw) as Hsorted.
  assert (Hsum : Py.sum raw = Py.sum (Py.sorted_reverse (fun x => x) raw)).
  { unfold Py.sum. clear - Hperm. induction Hperm; simpl; lia. }
  assert (Hall' : Forall (fun x => 1 <= x <= 6) (Py.sorted_reverse (fun x => x) raw)).
  { rewrite <- Hperm. exact Hall. }
  apply Permutation_length in Hperm as Hlen'. rewrite Hlen in Hlen'.
  destruct (Py.sorted_reverse (fun x => x) raw) as [| a [| b [| c [| d [| x rest]]]]];
    try discriminate Hlen'.
  cbn [lookup list_lookup take]. eexists. split; [reflexivity |].
  cbn [score_rolls kept dropped score_total].
  apply StronglySorted_inv in Hsorted as [Hs1 Ha].
  apply StronglySorted_inv in Hs1 as [Hs2 Hb].
  apply StronglySorted_inv in Hs2 as [Hs3 Hc].
  unfold Py.key_ge in *.
  repeat match goal with
         | H : List.Forall _ (_ :: _) |- _ => apply List.Forall_cons_iff in H as [? H]
         | H : Forall _ (_ :: _) |- _ => apply Forall_cons in H as [? H]
         end.
  rewrite Hsum. unfold Py.sum; simpl.
  split; [exact Hperm |]. split; [reflexivity |]. split; [reflexivity |].
  split; [repeat constructor; lia |].
  split; [repeat constructor; lia |].
  split; [repeat constructor; lia |].
  split; [reflexivity |]. split; lia.
Qed.

(** X4: [ability_check] always returns, with the modifier
    [(score - 10) // 2] and the score recorded.  With advantage alone
    the total is the larger of two d20 plus the modifier, with
    disadvantage alone the smaller plus the modifier; with both flags or
    none it is one d20 plus the modifier, both flags together giving
    the very result of a plain check.  The total lies between
    [1 + modifier] and [20 + modifier]. *)
Theorem ability_check_total (score : Z) (adv dis : bool) (g : Dice.Rng) :
  exists r g', ability_check score adv dis g = (Ok r, g') /\
    modifier r = (score - 10) / 2 /\
    ability_score r = Some score /\
    1 + modifier r <= total r <= 20 + modifier r /\
    Forall (fun x => 1 <= x <= 20) (rolls r) /\
    (adv = true -> dis = false ->
     exists a b, rolls r = [a; b] /\ total r = Z.max a b + modifier r /\
       advantage_key r = Some true) /\
    (dis = true -> adv = false ->
     exists a b, rolls r = [a; b] /\ total r = Z.min a b + modifier r /\
       disadvantage_key r = Some true) /\
    (adv = dis ->
     exists a, rolls r = [a] /\ total r = a + modifier r /\
       ability_check score adv dis g = ability_check score false false g).
Proof.
  assert (Hr20 : forall x, 1 <= 1 + x mod (20 - 1 + 1) <= 20).
  { intros x. pose proof (Z.mod_pos_bound x (20 - 1 + 1) ltac:(lia)). lia. }
  unfold ability_check.
  destruct adv, dis; cbn [andb negb].
  - (* both flags: the plain roll *)
    unfold Dice.d20, Dice.roll.
    change ((20 <? 1) || (1 <? 1)) with false. cbv iota.
    change (Z.to_nat 1) with 1%nat.
    unfold Dice.roll_dice, Dice.randint.
    eexists; eexists. split; [reflexivity |].
    cbn [modifier ability_score total rolls with_ability_score of_roll
         Dice.rolls Dice.total Dice.modifier advantage_key disadvantage_key].
    unfold Py.sum; cbn [fold_right].
    pose proof (Hr20 (Dice.source g (Dice.cursor g))).
    split; [reflexivity |]. split; [reflexivity |]. split; [lia |].
    split; [repeat constructor; lia |].
    split; [discriminate |]. split; [discriminate |].
    intros _. eexists. split; [reflexivity |]. split; [lia | reflexivity].
  - unfold advantage, Dice.randint.
    eexists; eexists. split; [reflexivity |].
    cbn [modifier ability_score total rolls with_ability_score with_modifier
         advantage_key disadvantage_key Dice.source Dice.cursor].
    pose proof (Hr20 (Dice.source g (Dice.cursor g))).
    pose proof (Hr20 (Dice.source g (S (Dice.cursor g)))).
    split; [reflexivity |]. split; [reflexivity |]. split; [lia |].
    split; [repeat constructor; lia |].
    split; [intros _ _; eexists; eexists; repeat split |].
    split; [discriminate | discriminate].
  - unfold disadvantage, Dice.randint.
    eexists; eexists. split; [reflexivity |].
    cbn [modifier ability_score total rolls with_ability_score with_modifier
         advantage_key disadvantage_key Dice.source Dice.cursor].
    pose proof (Hr20 (Dice.source g (Dice.cursor g))).
    pose proof (Hr20 (Dice.source g (S (Dice.cursor g)))).
    split; [reflexivity |]. split; [reflexivity |]. split; [lia |].
    split; [repeat constructor; lia |].
    split; [discriminate |].
    split; [intros _ _; eexists; eexists; repeat split | discriminate].
  - unfold Dice.d20, Dice.roll.
    change ((20 <? 1) || (1 <? 1)) with false. cbv iota.
    change (Z.to_nat 1) with 1%nat.
    unfold Dice.roll_dice, Dice.randint.
    eexists; eexists. split; [reflexivity |].
    cbn [modifier ability_score total rolls with_ability_score of_roll
         Dice.rolls Dice.total Dice.modifier advantage_key disadvantage_key].
    unfold Py.sum; cbn [fold_right].
    pose proof (Hr20 (Dice.source g (Dice.cursor g))).
    split; [reflexivity |]. split; [reflexivity |]. split; [lia |].
    split; [repeat constructor; lia |].
    split; [discriminate |]. split; [discriminate |].
    intros _. eexists. split; [reflexivity |]. split; [lia | reflexivity].
Qed.

End AbilityRollFacts.

(** ** Characters: abilities, round trip, conditions, inventory *)

Section CharacterOpsFacts.
Import Char CharOps.

Lemma lower_char_idempotent (c : ascii) :
  Py.lower_char (Py.lower_char c) = Py.lower_char c.
Proof. destruct c as [[] [] [] [] [] [] [] []]; reflexivity. Qed.

Lemma lower_idempotent (s : string) : Py.lower (Py.lower s) = Py.lower s.
Proof.
  induction s as [| c r IH]; [reflexivity |].
  simpl. rewrite lower_char_idempotent, IH. reflexivity.
Qed.

(** X5: [get_modifier] knows the six ability names, in any mix of
    upper and lower case, and returns the floor of half the distance of
    the score from 10; for any other name it raises the [ValueError]
    that quotes the name in lower case. *)
Theorem get_modifier_names (ability : string) (c : Character) :
  (forall name score,
      In (name, score) (ability_scores c) -> Py.lower ability = name ->
      exists m, get_modifier ability c = Ok m /\
        2 * m <= score - 10 <= 2 * m + 1) /\
  (~ In (Py.lower ability) ability_names ->
   get_modifier ability c
   = Raise (ValueError ("Unknown ability: " +:+ Py.lower ability))) /\
  get_modifier (Py.lower ability) c = get_modifier ability c.
Proof.
  split; [| split].
  - intros name score Hin Hname. unfold get_modifier. rewrite Hname.
    assert (Hget : Py.dict_get name (ability_scores c) = Some score).
    { simpl in Hin.
      repeat (destruct Hin as [Hin | Hin]; [injection Hin as <- <-; reflexivity |]).
      contradiction. }
    rewrite Hget. eexists. split; [reflexivity |].
    pose proof (Z.div_mod (score - 10) 2 ltac:(lia)).
    pose proof (Z.mod_pos_bound (score - 10) 2 ltac:(lia)). lia.
  - intros Hout. unfold get_modifier.
    assert (Hget : Py.dict_get (Py.lower ability) (ability_scores c) = None).
    { unfold ability_scores, ability_names in *. cbn [Py.dict_get].
      repeat match goal with
             | |- context [String.eqb ?k (Py.lower ability)] =>
                 destruct (String.eqb_spec k (Py.lower ability)) as [Heq | _];
                 [exfalso; apply Hout; rewrite <- Heq; simpl; tauto |]
             end.
      reflexivity. }
    rewrite Hget. reflexivity.
  - unfold get_modifier. rewrite lower_idempotent. reflexivity.
Qed.

Lemma get_modifier_names_witness :
  exists m, get_modifier "DEXterity" (defaults "Ana" "rogue") = Ok m /\
    2 * m <= 10 - 10 <= 2 * m + 1.
Proof.
  destruct (get_modifier_names "DEXterity" (defaults "Ana" "rogue")) as (Hknown & _).
  apply (Hknown "dexterity" 10); [simpl; tauto | reflexivity].
Defined.

(** What the constructor stores, in one expression. *)
Lemma post_init_unfold (c : Character) :
  __post_init__ c =
  Ok (let start := Z.max 1 (default 8 (Py.dict_get (Py.lower (character_class c)) hit_dice)
                            + ability_modifier (constitution c)) in
      let c1 := if max_health c =? 10
                then set_health start (set_max_health start c) else c in
      if armor_class c =? 10
      then set_armor_class (10 + ability_modifier (dexterity c)) c1 else c1).
Proof.
  unfold __post_init__, _calculate_starting_hp.
  rewrite get_modifier_constitution. cbn [Py.bind].
  destruct (max_health c =? 10); cbn [Py.bind];
    destruct (armor_class c =? 10) eqn:Hac; simpl; rewrite ?Hac; reflexivity.
Qed.

Lemma character_eq_fields (c : Character) (hp mh ac : Z) :
  mkCharacter (name c) (character_class c) (level c) (experience c)
    (strength c) (dexterity c) (constitution c) (intelligence c) (wisdom c)
    (charisma c) hp mh ac (inventory c) (gold c) (conditions c) (temporary_hp c)
  = c <-> hp = health c /\ mh = max_health c /\ ac = armor_class c.
Proof.
  destruct c; simpl. split.
  - intros [= -> -> ->]. repeat split.
  - intros (-> & -> & ->). reflexivity.
Qed.

(** X6: [from_dict(to_dict(c))] gives back [c] exactly when [c] does
    not trip a sentinel: its [max_health] is not 10, or else both its
    health and its recomputed starting hit points are 10; and its
    [armor_class] is not 10, or else its dexterity modifier is 0.  Every
    character just returned by the constructor is of that kind. *)
Theorem from_dict_to_dict_fixed_points :
  (forall c : Character,
      from_dict (to_dict c) = Ok c <->
      ((max_health c = 10 ->
        health c = 10 /\
        Z.max 1 (default 8 (Py.dict_get (Py.lower (character_class c)) hit_dice)
                 + ability_modifier (constitution c)) = 10) /\
       (armor_class c = 10 -> ability_modifier (dexterity c) = 0))) /\
  (forall f c : Character, new f = Ok c -> from_dict (to_dict c) = Ok c).
Proof.
  assert (Hiff : forall c : Character,
      from_dict (to_dict c) = Ok c <->
      ((max_health c = 10 ->
        health c = 10 /\
        Z.max 1 (default 8 (Py.dict_get (Py.lower (character_class c)) hit_dice)
                 + ability_modifier (constitution c)) = 10) /\
       (armor_class c = 10 -> ability_modifier (dexterity c) = 0))).
  { intros c. unfold from_dict, to_dict. rewrite post_init_unfold. cbv zeta.
    set (start := Z.max 1 (default 8 (Py.dict_get (Py.lower (character_class c)) hit_dice)
                           + ability_modifier (constitution c))).
    assert (Hres : forall c' : Character, Ok c' = Ok c <-> c' = c)
      by (intros c'; split; [intros [= ->]; reflexivity | intros ->; reflexivity]).
    rewrite Hres.
    destruct (Z.eqb_spec (max_health c) 10) as [Hmh | Hmh];
      destruct (Z.eqb_spec (armor_class c) 10) as [Hac | Hac].
    - change (set_armor_class (10 + ability_modifier (dexterity c))
                (set_health start (set_max_health start c)))
        with (mkCharacter (name c) (character_class c) (level c) (experience c)
                (strength c) (dexterity c) (constitution c) (intelligence c)
                (wisdom c) (charisma c) start start
                (10 + ability_modifier (dexterity c)) (inventory c) (gold c)
                (conditions c) (temporary_hp c)).
      rewrite character_eq_fields. split.
      + intros (H1 & H2 & H3). split; intros _; [split; lia | lia].
      + intros [H1 H2]. destruct (H1 Hmh) as [Hh Hs]. specialize (H2 Hac).
        repeat split; lia.
    - change (set_health start (set_max_health start c))
        with (mkCharacter (name c) (character_class c) (level c) (experience c)
                (strength c) (dexterity c) (constitution c) (intelligence c)
                (wisdom c) (charisma c) start start
                (armor_class c) (inventory c) (gold c)
                (conditions c) (temporary_hp c)).
      rewrite character_eq_fields. split.
      + intros (H1 & H2 & _). split; [intros _; split; lia | intros; contradiction].
      + intros [H1 _]. destruct (H1 Hmh) as [Hh Hs]. repeat split; lia.
    - change (set_armor_class (10 + ability_modifier (dexterity c)) c)
        with (mkCharacter (name c) (character_class c) (level c) (experience c)
                (strength c) (dexterity c) (constitution c) (intelligence c)
                (wisdom c) (charisma c) (health c) (max_health c)
                (10 + ability_modifier (dexterity c)) (inventory c) (gold c)
                (conditions c) (temporary_hp c)).
      rewrite character_eq_fields. split.
      + intros (_ & _ & H3). split; [intros; contradiction | intros _; lia].
      + intros [_ H2]. specialize (H2 Hac). repeat split; lia.
    - split; [intros _; split; intros; contradiction | reflexivity]. }
  split; [exact Hiff |].
  intros f c Hnew. apply Hiff.
  unfold new in Hnew. rewrite post_init_unfold in Hnew. cbv zeta in Hnew.
  injection Hnew as <-.
  destruct (Z.eqb_spec (max_health f) 10) as [Hmh | Hmh];
    destruct (Z.eqb_spec (armor_class f) 10) as [Hac | Hac]; simpl.
  - split; [intros Hten; split; exact Hten | intros; lia].
  - split; [intros Hten; split; exact Hten | intros; contradiction].
  - split; [intros; contradiction | intros; lia].
  - split; intros; contradiction.
Qed.

End CharacterOpsFacts.

Section CharacterSetFacts.
Import Char CharOps.

Lemma set_conditions_same (c : Character) : set_conditions (conditions c) c = c.
Proof. destruct c; reflexivity. Qed.

Lemma contains_remove_first_other (x y : string) (xs : list string) :
  x <> y -> Py.contains y (Py.remove_first x xs) = Py.contains y xs.
Proof.
  intros Hne. induction xs as [| z r IH]; simpl; [reflexivity |].
  destruct (String.eqb_spec z x) as [-> | Hzx]; simpl.
  - destruct (String.eqb_spec x y); [contradiction | reflexivity].
  - rewrite IH. reflexivity.
Qed.

Lemma remove_first_absent (x : string) (xs : list string) :
  Py.contains x xs = false -> Py.remove_first x (xs ++ [x]) = xs.
Proof.
  induction xs as [| z r IH]; simpl; intros H.
  - rewrite String.eqb_refl. reflexivity.
  - apply orb_false_iff in H as [Hz Hr]. rewrite Hz, (IH Hr). reflexivity.
Qed.

(** X7: the conditions behave as a set as long as they hold no entry
    twice: adding a condition makes it present, changes nothing when it
    is present already and never creates a duplicate; removing it from a
    duplicate-free list makes it absent; neither touches the presence of
    another condition; and removing a condition that was just added to a
    character without it gives the character back. *)
Theorem condition_set_operations (c : Character) (x y : string) :
  has_condition x (add_condition x c) = true /\
  add_condition x (add_condition x c) = add_condition x c /\
  (has_condition x c = true -> add_condition x c = c) /\
  (has_condition x c = false -> remove_condition x c = c) /\
  (has_condition x c = false -> remove_condition x (add_condition x c) = c) /\
  (x <> y ->
   has_condition y (add_condition x c) = has_condition y c /\
   has_condition y (remove_condition x c) = has_condition y c) /\
  (NoDup (conditions c) ->
   NoDup (conditions (add_condition x c)) /\
   NoDup (conditions (remove_condition x c)) /\
   has_condition x (remove_condition x c) = false).
Proof.
  unfold has_condition, add_condition, remove_condition.
  assert (Hadd : Py.contains x (conditions
                   (if negb (Py.contains x (conditions c))
                    then set_conditions (conditions c ++ [x]) c else c)) = true).
  { destruct (Py.contains x (conditions c)) eqn:E; simpl; [exact E |].
    rewrite contains_app; simpl. rewrite String.eqb_refl. apply orb_true_r. }
  split; [exact Hadd |].
  split; [rewrite Hadd; reflexivity |].
  split; [intros ->; reflexivity |].
  split; [intros ->; reflexivity |].
  split.
  { intros E. rewrite E; simpl. rewrite contains_app; simpl.
    rewrite String.eqb_refl, orb_true_r.
    rewrite remove_first_absent by exact E.
    destruct c; reflexivity. }
  split.
  { intros Hne. split.
    - destruct (Py.contains x (conditions c)); simpl; [reflexivity |].
      rewrite contains_app; simpl.
      destruct (String.eqb_spec x y); [contradiction |]. rewrite !orb_false_r.
      reflexivity.
    - destruct (Py.contains x (conditions c)); simpl; [| reflexivity].
      apply contains_remove_first_other. exact Hne. }
  intros Hnodup. split; [| split].
  - destruct (Py.contains x (conditions c)) eqn:E; simpl; [exact Hnodup |].
    apply NoDup_app. split; [exact Hnodup |]. split; [| apply NoDup_singleton].
    intros z Hz Hz'. apply list_elem_of_singleton in Hz'. subst z.
    apply contains_In in Hz. congruence.
  - destruct (Py.contains x (conditions c)); simpl;
      [apply remove_first_NoDup |]; exact Hnodup.
  - destruct (Py.contains x (conditions c)) eqn:E; simpl; [| exact E].
    apply contains_remove_first. exact Hnodup.
Qed.

Lemma condition_set_operations_witness :
  let c := add_condition "poisoned" (defaults "Ana" "rogue") in
  has_condition "poisoned" c = true /\
  has_condition "poisoned" (remove_condition "poisoned" c) = false.
Proof.
  cbv zeta.
  destruct (condition_set_operations (defaults "Ana" "rogue") "poisoned" "stunned")
    as (Hhas & _).
  split; [exact Hhas |].
  destruct (condition_set_operations
              (add_condition "poisoned" (defaults "Ana" "rogue")) "poisoned" "stunned")
    as (_ & _ & _ & _ & _ & _ & Hset).
  apply Hset. vm_compute. apply NoDup_singleton.
Defined.

Lemma remove_first_perm (x : string) (xs : list string) :
  Py.contains x xs = true -> Permutation xs (x :: Py.remove_first x xs).
Proof.
  induction xs as [| z r IH]; simpl; [discriminate |].
  destruct (String.eqb_spec z x) as [-> | Hne]; simpl; intros H.
  - reflexivity.
  - rewrite perm_swap. apply perm_skip, IH, H.
Qed.

(** X8: the inventory is a bag: [remove_item] answers whether the item
    was there; when it was, exactly one copy goes and the rest stays
    (the inventory was the item plus what is left), and when it was not,
    nothing changes.  An item that is added can be removed, which leaves
    the former content, a second copy included. *)
Theorem inventory_bag_operations (c : Character) (item : string) :
  snd (remove_item item c) = has_item item c /\
  (has_item item c = true ->
   Permutation (inventory c) (item :: inventory (fst (remove_item item c))) /\
   length (inventory c) = S (length (inventory (fst (remove_item item c))))) /\
  (has_item item c = false -> fst (remove_item item c) = c) /\
  has_item item (add_item item c) = true /\
  snd (remove_item item (add_item item c)) = true /\
  Permutation (inventory (fst (remove_item item (add_item item c)))) (inventory c) /\
  (forall other, has_item other c = true -> has_item other (add_item item c) = true).
Proof.
  unfold remove_item, has_item, add_item.
  assert (Hadd : Py.contains item (inventory (set_inventory (inventory c ++ [item]) c))
                 = true).
  { simpl. rewrite contains_app; simpl. rewrite String.eqb_refl. apply orb_true_r. }
  split; [destruct (Py.contains item (inventory c)); reflexivity |].
  split.
  { intros E. rewrite E; simpl.
    pose proof (remove_first_perm item (inventory c) E) as Hp.
    split; [exact Hp |]. apply Permutation_length in Hp. exact Hp. }
  split; [intros ->; reflexivity |].
  split; [exact Hadd |].
  split; [rewrite Hadd; reflexivity |].
  split.
  { rewrite Hadd; simpl.
    assert (Hin : Py.contains item (inventory c ++ [item]) = true) by exact Hadd.
    pose proof (remove_first_perm item (inventory c ++ [item]) Hin) as Hp.
    apply (Permutation_cons_inv (a := item)).
    rewrite <- Hp. symmetry. apply Permutation_cons_append. }
  intros other Ho. simpl. rewrite contains_app, Ho. reflexivity.
Qed.

Lemma inventory_bag_operations_witness :
  Permutation (inventory (defaults "Ana" "rogue"))
    ("Starting armor" ::
     inventory (fst (remove_item "Starting armor" (defaults "Ana" "rogue")))).
Proof.
  destruct (inventory_bag_operations (defaults "Ana" "rogue") "Starting armor")
    as (_ & Hrem & _).
  apply Hrem. reflexivity.
Defined.

Lemma level_up_record (c : Character) (x l m hp : Z) :
  set_health hp (set_max_health m (set_level l (set_experience x c)))
  = mkCharacter (name c) (character_class c) l x (strength c) (dexterity c)
      (constitution c) (intelligence c) (wisdom c) (charisma c) hp m
      (armor_class c) (inventory c) (gold c) (conditions c) (temporary_hp c).
Proof. reflexivity. Qed.

Lemma set_experience_record (c : Character) (x : Z) :
  set_experience x c
  = mkCharacter (name c) (character_class c) (level c) x (strength c) (dexterity c)
      (constitution c) (intelligence c) (wisdom c) (charisma c) (health c)
      (max_health c) (armor_class c) (inventory c) (gold c) (conditions c)
      (temporary_hp c).
Proof. reflexivity. Qed.

(** X9: experience adds up: when a level is worth at least one hit
    point, gaining [a] and then [b] experience (neither negative) leaves
    the character exactly as gaining [a + b] at once, and the level never
    goes down on the way. *)
Theorem gain_experience_additive (c : Character) (a b : Z) :
  0 <= a -> 0 <= b ->
  1 <= 5 + ability_modifier (constitution c) ->
  exists c1 c2,
    gain_experience a c = Ok c1 /\
    gain_experience b c1 = Ok c2 /\
    gain_experience (a + b) c = Ok c2 /\
    level c <= level c1 <= level c2.
Proof.
  intros Ha Hb Hk.
  assert (Hmono : 1 + (experience c + a) / 1000
                  <= 1 + (experience c + a + b) / 1000)
    by (apply Z.add_le_mono_l, Z.div_le_mono; lia).
  pose proof (gain_experience_unfold a c) as H1. cbv zeta in H1.
  pose proof (gain_experience_unfold (a + b) c) as H3. cbv zeta in H3.
  replace (experience c + (a + b)) with (experience c + a + b) in H3 by lia.
  remember (5 + ability_modifier (constitution c)) as k eqn:Ek.
  remember (1 + (experience c + a) / 1000) as n1 eqn:E1.
  remember (1 + (experience c + a + b) / 1000) as n2 eqn:E2.
  rewrite level_up_record in H1, H3. rewrite set_experience_record in H1, H3.
  destruct (Z.ltb_spec (level c) n1) as [L1 | L1].
  - eexists. eexists. split; [exact H1 |].
    destruct (Z.ltb_spec (level c) n2) as [L3 | L3]; [| exfalso; lia].
    rewrite H3.
    rewrite gain_experience_unfold. cbv zeta.
    rewrite level_up_record, set_experience_record.
    cbn [level experience constitution health max_health
         name character_class strength dexterity intelligence wisdom charisma
         armor_class inventory gold conditions temporary_hp].
    rewrite <- Ek, <- E2.
    destruct (Z.ltb_spec n1 n2) as [L2 | L2].
    + split; [| split; [reflexivity | cbn [level]; lia]].
      f_equal. f_equal; try lia; rewrite ?Z.max_r by nia; ring.
    + assert (Hn : n1 = n2) by lia.
      split; [| split; [reflexivity | cbn [level]; lia]].
      f_equal. f_equal; try lia; rewrite ?Z.max_r by nia; ring.
  - destruct (Z.ltb_spec (level c) n2) as [L3 | L3];
      (eexists; eexists; split; [exact H1 |]);
      rewrite H3, gain_experience_unfold; cbv zeta;
      rewrite level_up_record, set_experience_record;
      cbn [level experience constitution health max_health
           name character_class strength dexterity intelligence wisdom charisma
           armor_class inventory gold conditions temporary_hp];
      rewrite <- Ek, <- E2.
    + destruct (Z.ltb_spec (level c) n2) as [_ | L4]; [| exfalso; lia].
      split; [reflexivity |]. split; [reflexivity | cbn [level]; lia].
    + destruct (Z.ltb_spec (level c) n2) as [L4 | _]; [exfalso; lia |].
      split; [reflexivity |]. split; [reflexivity | cbn [level]; lia].
Qed.

Lemma gain_experience_additive_witness :
  exists c1 c2,
    gain_experience 700 (defaults "Ana" "rogue") = Ok c1 /\
    gain_experience 1800 c1 = Ok c2 /\
    gain_experience 2500 (defaults "Ana" "rogue") = Ok c2.
Proof.
  destruct (gain_experience_additive (defaults "Ana" "rogue") 700 1800)
    as (c1 & c2 & H1 & H2 & H3 & _); [lia | lia | vm_compute; discriminate |].
  exists c1, c2. split; [exact H1 |]. split; [exact H2 | exact H3].
Defined.

End CharacterSetFacts.

Section CharacterHealthFacts.
Import Char CharOps.

(** X10: damage adds up and has one threshold: on a character with
    health and temporary hit points that are not negative, taking [a]
    and then [b] damage leaves the character as taking [a + b] at once;
    when the character starts at positive health, the report says
    unconscious, and [is_alive] turns false, exactly when the damage
    reaches the sum of temporary hit points and health. *)
Theorem take_damage_additive (c : Character) (a b : Z) :
  0 <= a -> 0 <= b -> 0 <= health c -> 0 <= temporary_hp c ->
  fst (take_damage b (fst (take_damage a c))) = fst (take_damage (a + b) c) /\
  (0 < health c ->
   (unconscious (snd (take_damage a c)) = true <-> temporary_hp c + health c <= a) /\
   (is_alive (fst (take_damage a c)) = false <-> temporary_hp c + health c <= a)) /\
  damage_taken (snd (take_damage a c)) = a /\
  current_health (snd (take_damage a c)) = health (fst (take_damage a c)).
Proof.
  intros Ha Hb Hh Ht.
  destruct c as [nm cls lv xp st dx cn it ws ch hp mh ac inv gd cond thp].
  unfold take_damage, is_alive, set_health, set_temporary_hp.
  cbn [fst snd health temporary_hp name character_class level experience strength
       dexterity constitution intelligence wisdom charisma max_health armor_class
       inventory gold conditions unconscious damage_taken current_health] in *.
  split; [f_equal; lia |].
  split; [intros Hpos; rewrite Z.leb_le, Z.ltb_ge; lia |].
  split; reflexivity.
Qed.

Lemma take_damage_additive_witness :
  let c := set_temporary_hp 4 (defaults "Mira" "wizard") in
  fst (take_damage 5 (fst (take_damage 3 c))) = fst (take_damage 8 c).
Proof.
  cbv zeta.
  apply (take_damage_additive (set_temporary_hp 4 (defaults "Mira" "wizard")) 3 5);
    simpl; lia.
Defined.

(** X11: healing by an amount that is not negative, on a character not
    above its maximum, applies [min(healing, max_health - health)],
    reports a full heal exactly when the healing covers the missing
    health, adds up ([a] then [b] is [a + b]) and touches neither the
    temporary hit points nor the conditions: an "unconscious" condition
    stays, so [is_conscious] can remain false at positive health. *)
Theorem heal_report (c : Character) (a b : Z) :
  0 <= a -> 0 <= b -> health c <= max_health c ->
  healing_applied (snd (heal a c)) = Z.min a (max_health c - health c) /\
  health (fst (heal a c)) = health c + healing_applied (snd (heal a c)) /\
  (fully_healed (snd (heal a c)) = true <-> max_health c - health c <= a) /\
  fst (heal b (fst (heal a c))) = fst (heal (a + b) c) /\
  temporary_hp (fst (heal a c)) = temporary_hp c /\
  conditions (fst (heal a c)) = conditions c /\
  (has_condition "unconscious" c = true -> is_conscious (fst (heal a c)) = false).
Proof.
  intros Ha Hb Hmax.
  destruct c as [nm cls lv xp st dx cn it ws ch hp mh ac inv gd cond thp].
  unfold heal, is_conscious, has_condition, set_health.
  cbn [fst snd health temporary_hp name character_class level experience strength
       dexterity constitution intelligence wisdom charisma max_health armor_class
       inventory gold conditions healing_applied fully_healed] in *.
  split; [lia |]. split; [lia |].
  split; [rewrite Z.leb_le; lia |].
  split; [f_equal; lia |].
  split; [reflexivity |]. split; [reflexivity |].
  intros ->. apply andb_false_r.
Qed.

Lemma heal_report_witness :
  let c := set_health 5 (set_max_health 20 (defaults "Mira" "wizard")) in
  healing_applied (snd (heal 30 c)) = 15 /\
  fst (heal 4 (fst (heal 3 c))) = fst (heal 7 c).
Proof.
  cbv zeta.
  destruct (heal_report (set_health 5 (set_max_health 20 (defaults "Mira" "wizard")))
              30 0) as (Happlied & _); [lia | lia | simpl; lia |].
  destruct (heal_report (set_health 5 (set_max_health 20 (defaults "Mira" "wizard")))
              3 4) as (_ & _ & _ & Hadd & _); [lia | lia | simpl; lia |].
  split; [exact Happlied | exact Hadd].
Defined.

End CharacterHealthFacts.

(** ** Encounters: registration, turns, the current combatant *)

Section RegistrationFacts.
Import Enc Combat.

Lemma deref_alloc_old (c : Combatant) (h : Heap) (r : nat) :
  (r < length (combatant_objs h))%nat -> deref (snd (alloc c h)) r = deref h r.
Proof.
  intros Hr. unfold deref, alloc; simpl.
  rewrite lookup_app_l by exact Hr. reflexivity.
Qed.

Lemma deref_alloc_new (c : Combatant) (h : Heap) :
  deref (snd (alloc c h)) (fst (alloc c h)) = c.
Proof.
  unfold deref, alloc; simpl.
  rewrite lookup_app_r by lia. rewrite Nat.sub_diag. reflexivity.
Qed.

(** Registering a freshly allocated combatant. *)
Lemma register_fresh (c : Combatant) (e : Encounter) (h : Heap) :
  roster_ok e h ->
  let e' := add_combatant (fst (alloc c h)) e in
  let h' := snd (alloc c h) in
  combatants e' = combatants e ++ [length (combatant_objs h)] /\
  deref h' (length (combatant_objs h)) = c /\
  (forall r, (r < length (combatant_objs h))%nat -> deref h' r = deref h r) /\
  roster_ok e' h' /\
  turn_order e' = turn_order e /\
  character_objs h' = character_objs h.
Proof.
  intros [Hnodup Hvalid]. cbv zeta.
  split; [reflexivity |].
  split; [apply (deref_alloc_new c h) |].
  split; [intros r Hr; apply deref_alloc_old; exact Hr |].
  split; [| split; reflexivity].
  unfold roster_ok; simpl. split.
  - apply NoDup_app. split; [exact Hnodup |]. split; [| apply NoDup_singleton].
    intros r Hr Hr'. apply list_elem_of_singleton in Hr'. subst r.
    rewrite Forall_forall in Hvalid. apply Hvalid in Hr. lia.
  - rewrite length_app; simpl. apply Forall_app. split.
    + eapply Forall_impl; [exact Hvalid |]. simpl. intros; lia.
    + repeat constructor. lia.
Qed.

(** X12: registration appends.  [add_enemy], [add_npc] and
    [add_player] put a new combatant object at the end of the roster
    and keep the roster free of dangling or repeated references; the
    objects already there and the turn order are untouched.  An enemy
    or NPC starts conscious at full health; a player's combatant copies
    the character's health, maximum, armor class and conditions and
    points back to the character. *)
Theorem registration_appends (e : Encounter) (h : Heap) (nm : string) (hp ac : Z)
    (cref : nat) (ch : Char.Character) :
  roster_ok e h ->
  character_objs h !! cref = Some ch ->
  let fresh := length (combatant_objs h) in
  (let e' := fst (add_enemy nm hp ac e h) in
   let h' := snd (add_enemy nm hp ac e h) in
   combatants e' = combatants e ++ [fresh] /\
   deref h' fresh = mkCombatant nm ENEMY hp hp ac 0 None true [] /\
   (forall r, (r < fresh)%nat -> deref h' r = deref h r) /\
   roster_ok e' h' /\ turn_order e' = turn_order e) /\
  (let e' := fst (add_npc nm hp ac e h) in
   let h' := snd (add_npc nm hp ac e h) in
   combatants e' = combatants e ++ [fresh] /\
   deref h' fresh = mkCombatant nm NPC hp hp ac 0 None true [] /\
   (forall r, (r < fresh)%nat -> deref h' r = deref h r) /\
   roster_ok e' h' /\ turn_order e' = turn_order e) /\
  (let e' := fst (add_player cref e h) in
   let h' := snd (add_player cref e h) in
   combatants e' = combatants e ++ [fresh] /\
   deref h' fresh
   = mkCombatant (Char.name ch) PLAYER (Char.health ch) (Char.max_health ch)
       (Char.armor_class ch) 0 (Some cref) true (Char.conditions ch) /\
   (forall r, (r < fresh)%nat -> deref h' r = deref h r) /\
   roster_ok e' h' /\ turn_order e' = turn_order e /\
   character_objs h' !! cref = Some ch).
Proof.
  intros Hok Hch. cbv zeta. split; [| split].
  - destruct (register_fresh (mkCombatant nm ENEMY hp hp ac 0 None true []) e h Hok)
      as (H1 & H2 & H3 & H4 & H5 & _).
    unfold add_enemy, alloc in *. cbn [fst snd] in *.
    exact (conj H1 (conj H2 (conj H3 (conj H4 H5)))).
  - destruct (register_fresh (mkCombatant nm NPC hp hp ac 0 None true []) e h Hok)
      as (H1 & H2 & H3 & H4 & H5 & _).
    unfold add_npc, alloc in *. cbn [fst snd] in *.
    exact (conj H1 (conj H2 (conj H3 (conj H4 H5)))).
  - destruct (register_fresh (from_character cref ch) e h Hok)
      as (H1 & H2 & H3 & H4 & H5 & H6).
    unfold add_player. rewrite Hch. unfold alloc in *. cbn [fst snd] in *.
    rewrite H6. exact (conj H1 (conj H2 (conj H3 (conj H4 (conj H5 Hch))))).
Qed.

Lemma registration_appends_witness :
  let h := mkHeap [] [Char.defaults "Ana" "rogue"] in
  let e := Enc.new "Ambush" in
  combatants (fst (add_player 0 e h)) = [0%nat] /\
  health (deref (snd (add_player 0 e h)) 0) = 10.
Proof.
  cbv zeta.
  destruct (registration_appends (Enc.new "Ambush")
              (mkHeap [] [Char.defaults "Ana" "rogue"]) "" 0 0 0
              (Char.defaults "Ana" "rogue")) as (_ & _ & Hp).
  - split; [apply NoDup_nil_2 | constructor].
  - reflexivity.
  - destruct Hp as (Hc & Hd & _). split; [exact Hc |].
    exact (f_equal health Hd).
Defined.

End RegistrationFacts.

Section TurnOrderFacts.
Import Enc Combat.

Lemma list_filter_sublist {A : Type} (f : A -> bool) (xs : list A) :
  List.filter f xs `sublist_of` xs.
Proof.
  induction xs as [| x r IH]; simpl; [constructor |].
  destruct (f x); [apply sublist_skip | apply sublist_cons]; exact IH.
Qed.

Lemma log_action_prefix (action : string) (e : Encounter) :
  combat_log e `prefix_of` combat_log (log_action action e).
Proof. unfold log_action; simpl. apply prefix_app_r. reflexivity. Qed.

Lemma end_combat_log_prefix (e : Encounter) (h : Heap) :
  combat_log e `prefix_of` combat_log (fst (end_combat e h)).
Proof.
  unfold end_combat; cbv zeta; cbn [fst].
  destruct ((0 <? length (conscious_of is_player h (combatants (set_is_active false e))))%nat
            && (length (conscious_of is_enemy h (combatants (set_is_active false e))) =? 0)%nat);
    [| destruct (length (conscious_of is_player h (combatants (set_is_active false e))) =? 0)%nat];
    apply (log_action_prefix _ (set_is_active false e)).
Qed.

(** One call of [next_turn]: what can change and in which direction. *)
Lemma next_turn_monotone (e : Encounter) (h : Heap) :
  let e' := fst (next_turn e h) in
  turn_order e' `sublist_of` turn_order e /\
  combatants e' = combatants e /\
  round_number e <= round_number e' <= round_number e + 1 /\
  combat_log e `prefix_of` combat_log e' /\
  (is_active e = false -> next_turn e h = (e, h)) /\
  (is_active e' = true -> is_active e = true) /\
  combatant_objs (snd (next_turn e h)) = combatant_objs h /\
  (index_ok e -> index_ok e').
Proof.
  cbv zeta. unfold next_turn.
  destruct (is_active e) eqn:Hact; cbn [negb].
  2: { cbn [fst snd]. rewrite Hact.
       split; [reflexivity |]. split; [reflexivity |]. split; [lia |].
       split; [reflexivity |]. split; [reflexivity |]. split; [discriminate |].
       split; [reflexivity | exact (fun H => H)]. }
  destruct (Z.leb_spec (Z.of_nat (length (turn_order (set_current_turn_index
              (current_turn_index e + 1) e))))
              (current_turn_index (set_current_turn_index
              (current_turn_index e + 1) e))) as [Hwrap | Hin];
    [simpl in Hwrap | simpl in Hin].
  - cbv zeta.
    match goal with
    | |- context [if should_end_combat ?x h then _ else _] =>
        set (e5 := x);
        assert (H5 : turn_order e5 `sublist_of` turn_order e /\
                     combatants e5 = combatants e /\
                     round_number e5 = round_number e + 1 /\
                     combat_log e `prefix_of` combat_log e5 /\
                     current_turn_index e5 = 0)
    end.
    { subst e5; simpl. split; [apply list_filter_sublist |].
      split; [reflexivity |]. split; [reflexivity |].
      split; [apply prefix_app_r; reflexivity | reflexivity]. }
    destruct H5 as (Hsub & Hc & Hr & Hl & Hi).
    destruct (should_end_combat e5 h).
    + destruct (end_combat_keeps e5 h) as (Hr' & Ht' & Hc' & Hi' & _ & Ho').
      pose proof (end_combat_log_prefix e5 h) as Hl'.
      rewrite Ht', Hc', Hr', Ho'.
      split; [exact Hsub |]. split; [exact Hc |]. split; [lia |].
      split; [etransitivity; eassumption |].
      split; [discriminate |]. split; [reflexivity |]. split; [reflexivity |].
      intros _. unfold index_ok. rewrite Hi', Ht', Hi.
      split; [lia |]. destruct (turn_order e5); [left; reflexivity | right; simpl; lia].
    + cbn [fst snd].
      split; [exact Hsub |]. split; [exact Hc |]. split; [lia |].
      split; [exact Hl |].
      split; [discriminate |]. split; [reflexivity |]. split; [reflexivity |].
      intros _. unfold index_ok. rewrite Hi.
      split; [lia |]. destruct (turn_order e5); [left; reflexivity | right; simpl; lia].
  - cbn [fst snd]. simpl.
    split; [reflexivity |]. split; [reflexivity |]. split; [lia |].
    split; [reflexivity |]. split; [discriminate |].
    split; [reflexivity |]. split; [reflexivity |].
    intros [H0 _]. unfold index_ok; simpl. split; [lia | right; lia].
Qed.

Lemma acts_objs_length (turn : list Action) (h : Heap) :
  length (combatant_objs (acts turn h)) = length (combatant_objs h).
Proof.
  revert h. induction turn as [| a rest IH]; intros h; [reflexivity |].
  unfold acts in *; simpl. rewrite IH.
  destruct a; unfold act, store; simpl; apply length_insert.
Qed.

(** X13: turns only take away.  Through any run of [next_turn] calls,
    with any damage and healing in between, the turn order stays a
    sub-sequence of what it was (nobody joins or comes back, and the
    order of those who stay is kept), the roster is the same list, the
    round counter never goes down, the combat log only grows at its end,
    and an encounter that is not active is left exactly as it was. *)
Theorem turns_only_remove (script : list (list Action)) (e : Encounter) (h : Heap) :
  let e' := fst (play_turns script e h) in
  turn_order e' `sublist_of` turn_order e /\
  combatants e' = combatants e /\
  round_number e <= round_number e' <= round_number e + Z.of_nat (length script) /\
  combat_log e `prefix_of` combat_log e' /\
  (is_active e = false -> e' = e) /\
  (is_active e' = true -> is_active e = true) /\
  length (combatant_objs (snd (play_turns script e h))) = length (combatant_objs h).
Proof.
  cbv zeta. revert e h. induction script as [| turn rest IH]; intros e h.
  - cbn [play_turns fst snd length].
    split; [reflexivity |]. split; [reflexivity |]. split; [lia |].
    split; [reflexivity |]. split; [reflexivity |].
    split; [exact (fun H => H) | reflexivity].
  - cbn [play_turns].
    destruct (next_turn_monotone e (acts turn h))
      as (Hs & Hc & Hr & Hl & Hoff & Hon & Ho & _).
    destruct (next_turn e (acts turn h)) as [e1 h1] eqn:Hstep. cbn [fst snd] in *.
    destruct (IH e1 h1) as (Hs' & Hc' & Hr' & Hl' & Hoff' & Hon' & Ho').
    split; [etransitivity; eassumption |].
    split; [congruence |].
    split; [rewrite length_cons, Nat2Z.inj_succ; lia |].
    split; [etransitivity; eassumption |].
    split.
    { intros Hact. specialize (Hoff Hact). injection Hoff as -> _.
      apply Hoff'. exact Hact. }
    split; [intros H; apply Hon, Hon', H |].
    rewrite Ho', <- (acts_objs_length turn h). f_equal. exact Ho.
Qed.

(** X14: the turn index stays in range.  After [start_combat] has
    returned, whatever turns are played, the index of the current turn
    points into the turn order (or the turn order is empty), so
    [get_current_combatant] never fails with an index error; it returns
    a member of the turn order, and nobody exactly when the encounter is
    over or the turn order is empty. *)
Theorem current_combatant_in_range (e e1 : Encounter) (h h1 : Heap) (g g1 : Dice.Rng)
    (script : list (list Action)) :
  Enc.start_combat e h g = (Ok (e1, h1), g1) ->
  let e2 := fst (play_turns script e1 h1) in
  index_ok e1 /\ index_ok e2 /\
  exists current, get_current_combatant e2 = Ok current /\
    (forall r, current = Some r -> In r (turn_order e2)) /\
    (current = None <-> is_active e2 = false \/ turn_order e2 = []).
Proof.
  intros Hstart.
  assert (Hok1 : index_ok e1).
  { unfold Enc.start_combat, roll_initiative in Hstart.
    destruct (combatants e) as [| r0 rest] eqn:Hroster; [discriminate Hstart |].
    rewrite <- Hroster in Hstart.
    destruct (roll_each_ok (combatants e) e h g) as (e0 & h0 & g0 & Hroll & Hc & _).
    rewrite Hroll in Hstart. injection Hstart as <- _ _.
    unfold index_ok; simpl. split; [lia |]. right.
    rewrite Hc, Hroster.
    pose proof (sorted_reverse_perm (fun r => initiative (deref h0 r)) (r0 :: rest)) as Hp.
    apply Permutation_length in Hp. rewrite <- Hp. simpl. lia. }
  cbv zeta. split; [exact Hok1 |].
  assert (Hok2 : index_ok (fst (play_turns script e1 h1))).
  { clear Hstart. revert e1 h1 Hok1.
    induction script as [| turn rest IH]; intros e1 h1 Hok1; [exact Hok1 |].
    cbn [play_turns].
    destruct (next_turn_monotone e1 (acts turn h1)) as (_ & _ & _ & _ & _ & _ & _ & Hi).
    destruct (next_turn e1 (acts turn h1)) as [e' h']. cbn [fst] in Hi.
    apply IH, Hi, Hok1. }
  split; [exact Hok2 |].
  destruct Hok2 as [H0 Hrange]. unfold get_current_combatant.
  set (e2 := fst (play_turns script e1 h1)) in *.
  destruct (is_active e2) eqn:Hact; cbn [negb orb].
  2: { exists None. split; [reflexivity |]. split; [discriminate |].
       split; [left; reflexivity | reflexivity]. }
  destruct (turn_order e2) as [| r0 rest] eqn:Horder.
  { exists None. split; [reflexivity |]. split; [discriminate |].
    split; [right; reflexivity | reflexivity]. }
  destruct Hrange as [Hnil | Hlt]; [discriminate Hnil |].
  cbn [length Nat.eqb]. unfold py_index.
  destruct (Z.leb_spec 0 (current_turn_index e2)) as [_ | Hneg]; [| lia].
  destruct (Z.ltb_spec (current_turn_index e2) (Z.of_nat (length (r0 :: rest))))
    as [_ | Hge]; [| lia].
  cbn [andb].
  destruct (lookup_lt_is_Some_2 (r0 :: rest) (Z.to_nat (current_turn_index e2)))
    as [r Hr]; [lia |].
  rewrite Hr. exists (Some r). split; [reflexivity |].
  split.
  - intros r' [= <-]. apply list_elem_of_In. eapply list_elem_of_lookup_2. exact Hr.
  - split; [discriminate | intros [H | H]; discriminate H].
Qed.

Lemma current_combatant_in_range_witness :
  let h := mkHeap [ mkCombatant "Ana" PLAYER 10 10 15 0 None true [];
                    mkCombatant "Goblin" ENEMY 7 7 15 0 None true [] ] [] in
  let e := mkEncounter "Ambush" [0; 1]%nat [] 0 0 false [] in
  match Enc.start_combat e h Dice.example_rng with
  | (Ok (e1, h1), _) =>
      exists current,
        get_current_combatant (fst (play_turns [[Damage 1 3]; []; []] e1 h1))
        = Ok current
  | _ => False
  end.
Proof.
  cbv zeta.
  destruct (Enc.start_combat
              (mkEncounter "Ambush" [0; 1]%nat [] 0 0 false [])
              (mkHeap [ mkCombatant "Ana" PLAYER 10 10 15 0 None true [];
                        mkCombatant "Goblin" ENEMY 7 7 15 0 None true [] ] [])
              Dice.example_rng) as [[[e1 h1] | ex] g1] eqn:Hstart.
  - destruct (current_combatant_in_range _ _ _ _ _ _ [[Damage 1 3]; []; []] Hstart)
      as (_ & _ & current & Hc & _).
    exists current. exact Hc.
  - vm_compute in Hstart. discriminate Hstart.
Defined.

End TurnOrderFacts.

(** ** The end of combat *)

Section EndCombatFacts.
Import Enc Combat.

Lemma synced_idempotent (c : Combatant) (ch : Char.Character) :
  synced c (synced c ch) = synced c ch.
Proof. reflexivity. Qed.

Lemma deref_same_objs (h h' : Heap) (r : nat) :
  combatant_objs h' = combatant_objs h -> deref h' r = deref h r.
Proof. intros Heq. unfold deref. rewrite Heq. reflexivity. Qed.

(** The copying loop, seen from one character: it receives the values
    of the combatants linked to it, and is left alone when none is. *)
Lemma sync_characters_lookup (todo : list nat) (h : Heap) (cref : nat)
    (ch : Char.Character) (c : Combatant) :
  character_objs h !! cref = Some ch ->
  (forall r, In r todo -> character (deref h r) = Some cref ->
             synced (deref h r) = synced c) ->
  character_objs (sync_characters todo h) !! cref
  = Some (if existsb (fun r => bool_decide (character (deref h r) = Some cref)) todo
          then synced c ch else ch).
Proof.
  revert h ch. induction todo as [| r0 rest IH]; intros h ch Hch Hsame.
  - exact Hch.
  - cbn [sync_characters existsb].
    set (h1 := match character (deref h r0) with
               | Some c0 =>
                   match character_objs h !! c0 with
                   | Some ch0 =>
                       mkHeap (combatant_objs h)
                         (<[c0 := Char.set_conditions (conditions (deref h r0))
                                    (Char.set_health (health (deref h r0)) ch0)]>
                            (character_objs h))
                   | None => h
                   end
               | None => h
               end).
    assert (Hobjs : combatant_objs h1 = combatant_objs h).
    { subst h1. destruct (character (deref h r0)) as [c0 |]; [| reflexivity].
      destruct (character_objs h !! c0); reflexivity. }
    assert (Hderef : forall r, deref h1 r = deref h r)
      by (intros r; apply deref_same_objs, Hobjs).
    assert (Hrest : forall r, In r rest -> character (deref h1 r) = Some cref ->
                      synced (deref h1 r) = synced c).
    { intros r Hin. rewrite Hderef. apply Hsame. right. exact Hin. }
    assert (Hex : existsb (fun r => bool_decide (character (deref h1 r) = Some cref)) rest
                  = existsb (fun r => bool_decide (character (deref h r) = Some cref)) rest).
    { clear -Hderef. induction rest as [| x r IHr]; [reflexivity |].
      cbn [existsb]. rewrite IHr, Hderef. reflexivity. }
    destruct (bool_decide (character (deref h r0) = Some cref)) eqn:Hlinked.
    + apply bool_decide_eq_true in Hlinked.
      assert (Hch1 : character_objs h1 !! cref = Some (synced c ch)).
      { subst h1. rewrite Hlinked, Hch. simpl.
        rewrite list_lookup_insert_eq
          by (apply lookup_lt_is_Some_1; eexists; exact Hch).
        fold (synced (deref h r0) ch).
        rewrite (Hsame r0 (or_introl eq_refl) Hlinked). reflexivity. }
      rewrite (IH h1 (synced c ch) Hch1 Hrest), Hex. clear Hex. cbn [orb].
      destruct (existsb _ rest); reflexivity.
    + apply bool_decide_eq_false in Hlinked.
      assert (Hch1 : character_objs h1 !! cref = Some ch).
      { subst h1. destruct (character (deref h r0)) as [c0 |] eqn:E; [| exact Hch].
        destruct (character_objs h !! c0) eqn:E0; [| exact Hch]. simpl.
        rewrite list_lookup_insert_ne by congruence. exact Hch. }
      rewrite (IH h1 ch Hch1 Hrest), Hex. reflexivity.
Qed.

(** X15: [end_combat] switches the encounter off and copies each
    combatant's health and conditions onto the character it points to:
    a character linked from the roster ends with the health and the
    conditions of its combatant (when several combatants point to one
    character they must agree), its other fields as before; a character
    no roster member points to is left alone; the combatants themselves,
    the roster, the turn order and the round are unchanged. *)
Theorem end_combat_syncs_characters (e : Encounter) (h : Heap) (r cref : nat)
    (ch : Char.Character) :
  In r (combatants e) ->
  character (deref h r) = Some cref ->
  character_objs h !! cref = Some ch ->
  (forall r', In r' (combatants e) -> character (deref h r') = Some cref ->
              health (deref h r') = health (deref h r) /\
              conditions (deref h r') = conditions (deref h r)) ->
  let e' := fst (end_combat e h) in
  let h' := snd (end_combat e h) in
  is_active e' = false /\
  character_objs h' !! cref = Some (synced (deref h r) ch) /\
  (forall other och,
      character_objs h !! other = Some och ->
      (forall r', In r' (combatants e) -> character (deref h r') <> Some other) ->
      character_objs h' !! other = Some och) /\
  combatant_objs h' = combatant_objs h /\
  combatants e' = combatants e /\ turn_order e' = turn_order e /\
  round_number e' = round_number e.
Proof.
  intros Hin Hlink Hch Hagree.
  destruct (end_combat_keeps e h) as (Hr & Ht & Hc & _ & Hact & Ho).
  cbv zeta. split; [exact Hact |].
  assert (Hsnd : snd (end_combat e h) = sync_characters (combatants e) h).
  { unfold end_combat; cbv zeta; cbn [snd].
    destruct ((0 <? length (conscious_of is_player h (combatants (set_is_active false e))))%nat
              && (length (conscious_of is_enemy h (combatants (set_is_active false e))) =? 0)%nat);
      [| destruct (length (conscious_of is_player h (combatants (set_is_active false e))) =? 0)%nat];
      reflexivity. }
  rewrite Hsnd in *.
  split.
  { rewrite (sync_characters_lookup (combatants e) h cref ch (deref h r) Hch).
    - assert (Hex : existsb (fun r0 => bool_decide (character (deref h r0) = Some cref))
                      (combatants e) = true).
      { apply existsb_exists. exists r. split; [exact Hin |].
        apply bool_decide_eq_true. exact Hlink. }
      rewrite Hex. reflexivity.
    - intros r' Hin' Hlink'. destruct (Hagree r' Hin' Hlink') as [Hh Hcnd].
      unfold synced. rewrite Hh, Hcnd. reflexivity. }
  split.
  { intros other och Hoch Hnone.
    rewrite (sync_characters_lookup (combatants e) h other och no_combatant Hoch).
    - assert (Hex : existsb (fun r0 => bool_decide (character (deref h r0) = Some other))
                      (combatants e) = false).
      { apply not_true_is_false. intros Hex. apply existsb_exists in Hex as (r' & Hin' & Hb).
        apply bool_decide_eq_true in Hb. exact (Hnone r' Hin' Hb). }
      rewrite Hex. reflexivity.
    - intros r' Hin' Hlink'. exfalso. exact (Hnone r' Hin' Hlink'). }
  repeat split; assumption.
Qed.

Lemma end_combat_syncs_characters_witness :
  let h := mkHeap [ mkCombatant "Ana" PLAYER 4 10 15 0 (Some 0%nat) true ["poisoned"];
                    mkCombatant "Goblin" ENEMY 0 7 15 0 None false ["unconscious"] ]
             [ Char.defaults "Ana" "rogue" ] in
  let e := mkEncounter "Ambush" [0; 1]%nat [0]%nat 0 3 true [] in
  is_active (fst (end_combat e h)) = false /\
  character_objs (snd (end_combat e h)) !! 0%nat
  = Some (Char.set_conditions ["poisoned"]
            (Char.set_health 4 (Char.defaults "Ana" "rogue"))).
Proof.
  cbv zeta.
  destruct (end_combat_syncs_characters
              (mkEncounter "Ambush" [0; 1]%nat [0]%nat 0 3 true [])
              (mkHeap [ mkCombatant "Ana" PLAYER 4 10 15 0 (Some 0%nat) true ["poisoned"];
                        mkCombatant "Goblin" ENEMY 0 7 15 0 None false ["unconscious"] ]
                 [ Char.defaults "Ana" "rogue" ])
              0%nat 0%nat (Char.defaults "Ana" "rogue")) as (Hact & Hsync & _).
  - simpl. tauto.
  - reflexivity.
  - reflexivity.
  - intros r' [<- | [<- | []]]; simpl; [tauto | discriminate].
  - split; [exact Hact | exact Hsync].
Defined.

End EndCombatFacts.

(** ** Attacks *)

Section AttackFacts.
Import Enc Combat.

(** A reference that reads as a conscious combatant is a live one. *)
Lemma conscious_in_range (h : Heap) (r : nat) :
  is_conscious (deref h r) = true -> (r < length (combatant_objs h))%nat.
Proof.
  unfold deref. destruct (combatant_objs h !! r) as [c |] eqn:E; simpl.
  - intros _. eapply lookup_lt_Some. exact E.
  - discriminate.
Qed.

(** Whether a notation is accepted does not depend on the generator. *)
Lemma parse_and_roll_cases (s : string) :
  (exists msg, forall g, Dice.parse_and_roll s g = (Raise (ValueError msg), g)) \/
  (exists sides count modifier, 1 <= sides /\ 1 <= count /\
     forall g, Dice.parse_and_roll s g = Dice.roll sides count modifier g).
Proof.
  unfold Dice.parse_and_roll.
  destruct (Dice.re_match (Dice.normalize s)) as [m |].
  - destruct (Z.le_gt_cases 1 (Dice.int (Dice.group2 m))) as [Hs | Hs];
      destruct (Z.le_gt_cases 1 (Dice.int (Dice.group1 m))) as [Hc | Hc].
    + right. eexists _, _, _. split; [exact Hs |]. split; [exact Hc |].
      intros g. reflexivity.
    + left. eexists. intros g. apply roll_rejects. lia.
    + left. eexists. intros g. apply roll_rejects. lia.
    + left. eexists. intros g. apply roll_rejects. lia.
  - left. eexists. intros g. reflexivity.
Qed.

Lemma roll_reads (sides count modifier : Z) (g : Dice.Rng) :
  1 <= sides -> 1 <= count ->
  exists r, Dice.roll sides count modifier g
            = (Ok r, Dice.mkRng (Dice.source g) (Dice.cursor g + Z.to_nat count)) /\
    count + modifier <= Dice.total r <= count * sides + modifier.
Proof.
  intros Hs Hc. unfold Dice.roll.
  destruct (Z.ltb_spec sides 1); [lia |].
  destruct (Z.ltb_spec count 1); [lia |]. cbn [orb].
  pose proof (roll_dice_spec sides (Z.to_nat count) g Hs) as [Hlen Hall].
  pose proof (roll_dice_cursor sides (Z.to_nat count) g) as Hcur.
  destruct (Dice.roll_dice sides (Z.to_nat count) g) as [rs g1];
    simpl in Hlen, Hall, Hcur.
  subst g1. eexists. split; [reflexivity |]. cbn [Dice.total].
  pose proof (sum_bounds sides rs Hall) as Hsum.
  rewrite Hlen, Z2Nat.id in Hsum by lia. lia.
Qed.

Lemma store_sound (r : nat) (c : Combatant) (h : Heap) :
  Forall sound (combatant_objs h) ->
  ((r < length (combatant_objs h))%nat -> sound c) ->
  Forall sound (combatant_objs (store r c h)).
Proof.
  intros Hall Hc. unfold store; simpl.
  destruct (Nat.lt_ge_cases r (length (combatant_objs h))) as [Hlt | Hge].
  - apply Forall_insert; [exact Hall | apply Hc; exact Hlt].
  - rewrite list_insert_ge by exact Hge. exact Hall.
Qed.

Lemma set_combat_log_same (e : Encounter) : set_combat_log (combat_log e) e = e.
Proof. destruct e; reflexivity. Qed.

(** The fields of a combatant after [take_damage] and [heal]. *)
Lemma take_damage_fields (c : Combatant) (d : Z) :
  health (fst (take_damage d c)) = health c - Z.min d (health c) /\
  max_health (fst (take_damage d c)) = max_health c /\
  name (fst (take_damage d c)) = name c /\
  is_conscious (fst (take_damage d c))
  = (if health c - Z.min d (health c) <=? 0 then false else is_conscious c).
Proof.
  unfold take_damage. cbn [fst health set_health].
  destruct (health c - Z.min d (health c) <=? 0).
  - cbn [conditions set_is_conscious set_health].
    destruct (negb (Py.contains "unconscious" (conditions c))); repeat split.
  - repeat split.
Qed.

Lemma heal_fields (c : Combatant) (d : Z) :
  health (fst (heal d c)) = Z.min (max_health c) (health c + d) /\
  max_health (fst (heal d c)) = max_health c /\
  name (fst (heal d c)) = name c.
Proof.
  unfold heal.
  cbn [fst health max_health is_conscious conditions set_health set_is_conscious].
  destruct ((0 <? Z.min (max_health c) (health c + d)) && negb (is_conscious c)).
  - destruct (Py.contains "unconscious" (conditions c)); repeat split.
  - repeat split.
Qed.

(** The four ways an attack can go. *)
Lemma attack_cases (attacker target : nat) (weapon_damage : string)
    (e : Encounter) (h : Heap) (g : Dice.Rng) :
  let g1 := Dice.mkRng (Dice.source g) (S (Dice.cursor g)) in
  let ac := armor_class (deref h target) in
  ((is_conscious (deref h attacker) = false \/ is_conscious (deref h target) = false) /\
   exists msg, attack attacker target weapon_damage e h g
               = (Ok (AttackRefused msg), e, h, g)) \/
  (is_conscious (deref h attacker) = true /\ is_conscious (deref h target) = true /\
   exists roll, 1 <= roll <= 20 /\
     ((roll < ac /\
       exists line, attack attacker target weapon_damage e h g
                    = (Ok (AttackMissed (name (deref h attacker)) (name (deref h target))
                             roll ac), log_action line e, h, g1)) \/
      (ac <= roll /\
       (exists msg, forall g0,
           Dice.parse_and_roll weapon_damage g0 = (Raise (ValueError msg), g0)) /\
       exists msg, attack attacker target weapon_damage e h g
                   = (Ok (AttackBadDice (name (deref h attacker)) (name (deref h target))
                            roll ac msg), e, h, g1)) \/
      (ac <= roll /\
       exists dr n line lines,
         Dice.parse_and_roll weapon_damage g1
         = (Ok dr, Dice.mkRng (Dice.source g) (S (Dice.cursor g) + n)) /\
         let damage := Z.max 1 (Dice.total dr) in
         let c := fst (take_damage damage (deref h target)) in
         (lines = [] \/ exists line', lines = [line']) /\
         (is_conscious c = true -> lines = []) /\
         attack attacker target weapon_damage e h g
         = (Ok (AttackHit (name (deref h attacker)) (name (deref h target))
                  roll ac damage dr (health c) (negb (is_conscious c))),
            set_combat_log (combat_log (log_action line e) ++ lines) e,
            store target c h,
            Dice.mkRng (Dice.source g) (S (Dice.cursor g) + n))))).
Proof.
  cbv zeta. unfold attack.
  destruct (is_conscious (deref h attacker)) eqn:Ha; cbn [negb];
    [| left; split; [left; reflexivity | eexists; reflexivity]].
  destruct (is_conscious (deref h target)) eqn:Ht; cbn [negb];
    [| left; split; [right; reflexivity | eexists; reflexivity]].
  right. split; [reflexivity |]. split; [reflexivity |].
  destruct (d20_ok 0 g) as (ar & Hd & Hrange). rewrite Hd. cbv zeta.
  exists (Dice.total ar). split; [lia |].
  destruct (Z.leb_spec (armor_class (deref h target)) (Dice.total ar)) as [Hhit | Hmiss].
  - right.
    destruct (parse_and_roll_cases weapon_damage)
      as [(msg & Hbad) | (sd & c & md & Hsd & Hc & Hgood)].
    + left. split; [exact Hhit |]. split; [exists msg; exact Hbad |].
      rewrite Hbad. eexists. reflexivity.
    + right. split; [exact Hhit |].
      rewrite Hgood.
      destruct (roll_reads sd c md (Dice.mkRng (Dice.source g) (S (Dice.cursor g))) Hsd Hc)
        as (dr & Hroll & _).
      rewrite Hroll. cbn [Dice.source Dice.cursor].
      rewrite !deref_store_eq by (apply conscious_in_range; exact Ht).
      exists dr, (Z.to_nat c).
      destruct (is_conscious (fst (take_damage (Z.max 1 (Dice.total dr)) (deref h target))))
        eqn:Hc'; cbn [negb].
      * eexists _, []. split; [reflexivity |]. split; [left; reflexivity |].
        split; [reflexivity |].
        rewrite app_nil_r.
        repeat f_equal.
      * eexists _, [_]. split; [reflexivity |]. split; [right; eexists; reflexivity |].
        split; [discriminate |].
        repeat f_equal.
  - left. split; [exact Hmiss |]. eexists. reflexivity.
Qed.

Lemma log_action_fields (line : string) (e : Encounter) :
  enc_name (log_action line e) = enc_name e /\
  combatants (log_action line e) = combatants e /\
  turn_order (log_action line e) = turn_order e /\
  current_turn_index (log_action line e) = current_turn_index e /\
  round_number (log_action line e) = round_number e /\
  is_active (log_action line e) = is_active e.
Proof. repeat split. Qed.

(** X16: [attack] never raises (a damage notation that cannot be rolled
    is caught) and touches nothing but the object of the target and the
    log: name, roster, turn order, turn index, round and activity flag
    of the encounter are as before, the log only grows, the characters
    and all other combatants are unchanged, no object is created.  With
    an unconscious attacker or an unconscious target the call is
    refused: nothing changes and no die is rolled. *)
Theorem attack_frame (attacker target : nat) (weapon_damage : string)
    (e e' : Encounter) (h h' : Heap) (g g' : Dice.Rng) (res : Res AttackResult) :
  attack attacker target weapon_damage e h g = (res, e', h', g') ->
  (exists r, res = Ok r) /\
  enc_name e' = enc_name e /\ combatants e' = combatants e /\
  turn_order e' = turn_order e /\ current_turn_index e' = current_turn_index e /\
  round_number e' = round_number e /\ is_active e' = is_active e /\
  combat_log e `prefix_of` combat_log e' /\
  character_objs h' = character_objs h /\
  length (combatant_objs h') = length (combatant_objs h) /\
  (forall r, r <> target -> deref h' r = deref h r) /\
  Dice.source g' = Dice.source g /\ (Dice.cursor g <= Dice.cursor g')%nat /\
  (is_conscious (deref h attacker) = false \/ is_conscious (deref h target) = false ->
   e' = e /\ h' = h /\ g' = g /\ exists msg, res = Ok (AttackRefused msg)).
Proof.
  intros Hrun.
  destruct (attack_cases attacker target weapon_damage e h g)
    as [(Hun & msg & Hcall)
       | (Ha & Ht & roll & Hroll &
          [(Hlt & line & Hcall)
          | [(Hge & _ & msg & Hcall)
            | (Hge & dr & n & line & lines & _ & _ & _ & Hcall)]])];
    cbv zeta in Hcall; rewrite Hcall in Hrun;
    injection Hrun as <- <- <- <-.
  - split; [eexists; reflexivity |].
    do 6 (split; [reflexivity |]).
    split; [reflexivity |]. split; [reflexivity |]. split; [reflexivity |].
    split; [intros r _; reflexivity |].
    split; [reflexivity |]. split; [lia |].
    intros _. do 3 (split; [reflexivity |]). exists msg. reflexivity.
  - split; [eexists; reflexivity |].
    do 6 (split; [reflexivity |]).
    split; [apply log_action_prefix |].
    split; [reflexivity |]. split; [reflexivity |].
    split; [intros r _; reflexivity |].
    split; [reflexivity |]. split; [cbn [Dice.cursor]; lia |].
    intros [Hx | Hx]; congruence.
  - split; [eexists; reflexivity |].
    do 6 (split; [reflexivity |]).
    split; [reflexivity |]. split; [reflexivity |]. split; [reflexivity |].
    split; [intros r _; reflexivity |].
    split; [reflexivity |]. split; [cbn [Dice.cursor]; lia |].
    intros [Hx | Hx]; congruence.
  - split; [eexists; reflexivity |].
    do 6 (split; [reflexivity |]).
    split.
    { cbn [combat_log set_combat_log]. unfold log_action; cbn [combat_log set_combat_log].
      rewrite <- app_assoc. apply prefix_app_r. reflexivity. }
    split; [reflexivity |].
    split; [apply length_insert |].
    split; [intros r Hr; apply deref_store_ne; congruence |].
    split; [reflexivity |].
    split; [cbn [Dice.cursor]; lia |].
    intros [Hx | Hx]; congruence.
Qed.

Lemma attack_frame_witness :
  let h := mkHeap [ mkCombatant "Ana" PLAYER 10 10 15 0 None true [];
                    mkCombatant "Goblin" ENEMY 7 7 15 0 None true [] ] [] in
  let e := mkEncounter "Ambush" [0; 1]%nat [0; 1]%nat 0 1 true [] in
  let out := attack 0 1 "1d6" e h Dice.example_rng in
  (exists r, fst (fst (fst out)) = Ok r) /\
  turn_order (snd (fst (fst out))) = [0; 1]%nat /\
  deref (snd (fst out)) 0 = deref h 0.
Proof.
  cbv zeta.
  destruct (attack_frame 0 1 "1d6"
              (mkEncounter "Ambush" [0; 1]%nat [0; 1]%nat 0 1 true [])
              (snd (fst (fst (attack 0 1 "1d6"
                 (mkEncounter "Ambush" [0; 1]%nat [0; 1]%nat 0 1 true [])
                 (mkHeap [ mkCombatant "Ana" PLAYER 10 10 15 0 None true [];
                           mkCombatant "Goblin" ENEMY 7 7 15 0 None true [] ] [])
                 Dice.example_rng))))
              (mkHeap [ mkCombatant "Ana" PLAYER 10 10 15 0 None true [];
                        mkCombatant "Goblin" ENEMY 7 7 15 0 None true [] ] [])
              (snd (fst (attack 0 1 "1d6"
                 (mkEncounter "Ambush" [0; 1]%nat [0; 1]%nat 0 1 true [])
                 (mkHeap [ mkCombatant "Ana" PLAYER 10 10 15 0 None true [];
                           mkCombatant "Goblin" ENEMY 7 7 15 0 None true [] ] [])
                 Dice.example_rng)))
              Dice.example_rng
              (snd (attack 0 1 "1d6"
                 (mkEncounter "Ambush" [0; 1]%nat [0; 1]%nat 0 1 true [])
                 (mkHeap [ mkCombatant "Ana" PLAYER 10 10 15 0 None true [];
                           mkCombatant "Goblin" ENEMY 7 7 15 0 None true [] ] [])
                 Dice.example_rng))
              (fst (fst (fst (attack 0 1 "1d6"
                 (mkEncounter "Ambush" [0; 1]%nat [0; 1]%nat 0 1 true [])
                 (mkHeap [ mkCombatant "Ana" PLAYER 10 10 15 0 None true [];
                           mkCombatant "Goblin" ENEMY 7 7 15 0 None true [] ] [])
                 Dice.example_rng)))))
    as (Hok & _ & _ & Hto & _ & _ & _ & _ & _ & _ & Hother & _).
  - vm_compute. reflexivity.
  - split; [exact Hok |]. split; [exact Hto |]. apply Hother. discriminate.
Defined.



End AttackFacts.

(** ** Spells *)

Section SpellFacts.
Import Enc Combat.

Lemma apply_effect_fields (effect : list (string * string)) (a : Z) (c : Combatant) :
  name (apply_effect effect a c) = name c /\
  max_health (apply_effect effect a c) = max_health c.
Proof.
  unfold apply_effect.
  destruct (Py.dict_get "type" effect) as [ty |]; [| split; reflexivity].
  destruct (String.eqb ty "damage").
  - destruct (take_damage_fields c a) as (_ & Hm & Hn & _). split; assumption.
  - destruct (String.eqb ty "healing"); [| split; reflexivity].
    destruct (heal_fields c a) as (_ & Hm & Hn). split; assumption.
Qed.

Lemma apply_effect_sound (effect : list (string * string)) (a : Z) (c : Combatant) :
  sound c -> 0 <= a -> sound (apply_effect effect a c).
Proof.
  intros Hc Ha. unfold apply_effect.
  destruct (Py.dict_get "type" effect) as [ty |]; [| exact Hc].
  destruct (String.eqb ty "damage"); [apply take_damage_sound; assumption |].
  destruct (String.eqb ty "healing"); [apply heal_sound; assumption | exact Hc].
Qed.

(** Storing the outcome of an effect renames nobody. *)
Lemma store_effect_name (effect : list (string * string)) (a : Z) (h : Heap)
    (t r : nat) :
  name (deref (store t (apply_effect effect a (deref h t)) h) r) = name (deref h r).
Proof.
  destruct (decide (r = t)) as [-> | Hne].
  - destruct (Nat.lt_ge_cases t (length (combatant_objs h))) as [Hlt | Hge].
    + rewrite deref_store_eq by exact Hlt. apply apply_effect_fields.
    + unfold deref, store; cbn [combatant_objs].
      rewrite list_insert_ge by exact Hge. reflexivity.
  - rewrite deref_store_ne by congruence. reflexivity.
Qed.

(** An effect without a usable type is skipped for every target. *)
Lemma cast_each_skips (caster : nat) (spell_name : string)
    (effect : list (string * string)) (todo : list nat) (effects : list Effect)
    (e : Encounter) (h : Heap) (g : Dice.Rng) :
  effect_dice effect = None ->
  cast_each caster spell_name effect todo effects e h g = (Ok effects, e, h, g).
Proof.
  unfold effect_dice. intros Hnone.
  induction todo as [| t rest IH]; [reflexivity |].
  cbn [cast_each].
  destruct (Py.dict_get "type" effect) as [ty |]; [| exact IH].
  destruct (String.eqb ty "damage"); [discriminate Hnone |].
  destruct (String.eqb ty "healing"); [discriminate Hnone | exact IH].
Qed.

(** A notation that cannot be rolled stops the loop at the first
    target. *)
Lemma cast_each_raises (caster : nat) (spell_name : string)
    (effect : list (string * string)) (t : nat) (rest : list nat)
    (effects : list Effect) (e : Encounter) (h : Heap) (g g1 : Dice.Rng)
    (s : string) (ex : Exn) :
  effect_dice effect = Some s ->
  Dice.parse_and_roll s g = (Raise ex, g1) ->
  cast_each caster spell_name effect (t :: rest) effects e h g = (Raise ex, e, h, g1).
Proof.
  unfold effect_dice. intros Hs Hp. cbn [cast_each].
  destruct (Py.dict_get "type" effect) as [ty |]; [| discriminate Hs].
  destruct (String.eqb ty "damage").
  - injection Hs as Hs. rewrite Hs, Hp. reflexivity.
  - destruct (String.eqb ty "healing"); [| discriminate Hs].
    injection Hs as Hs. rewrite Hs, Hp. reflexivity.
Qed.

(** One turn of the loop with a roll that succeeds. *)
Lemma cast_each_step (caster : nat) (spell_name : string)
    (effect : list (string * string)) (t : nat) (rest : list nat)
    (effects : list Effect) (e : Encounter) (h : Heap) (g g1 : Dice.Rng)
    (s ty : string) (roll : Dice.Roll) :
  effect_dice effect = Some s ->
  Py.dict_get "type" effect = Some ty ->
  Dice.parse_and_roll s g = (Ok roll, g1) ->
  exists line,
    cast_each caster spell_name effect (t :: rest) effects e h g
    = cast_each caster spell_name effect rest
        (effects ++ [mkEffect
                       (name (deref (store t (apply_effect effect (Dice.total roll)
                                                (deref h t)) h) t))
                       ty (Dice.total roll)
                       (health (deref (store t (apply_effect effect (Dice.total roll)
                                                  (deref h t)) h) t))])
        (log_action line e)
        (store t (apply_effect effect (Dice.total roll) (deref h t)) h) g1.
Proof.
  unfold effect_dice, apply_effect. intros Hs Hty Hp. cbn [cast_each].
  rewrite Hty in *.
  destruct (String.eqb_spec ty "damage") as [-> | _].
  - injection Hs as Hs. rewrite Hs, Hp. eexists. reflexivity.
  - destruct (String.eqb_spec ty "healing") as [-> | _]; [| discriminate Hs].
    injection Hs as Hs. rewrite Hs, Hp. eexists. reflexivity.
Qed.

(** The loop of [cast_spell] for an effect whose notation describes
    [count] dice of [sides] sides and a modifier. *)
Lemma cast_each_rolls (caster : nat) (spell_name : string)
    (effect : list (string * string)) (s ty : string) (sides count modifier : Z) :
  effect_dice effect = Some s ->
  Py.dict_get "type" effect = Some ty ->
  (forall g0, Dice.parse_and_roll s g0 = Dice.roll sides count modifier g0) ->
  1 <= sides -> 1 <= count ->
  forall (todo : list nat) (effects : list Effect) (e : Encounter) (h : Heap)
         (g : Dice.Rng),
  exists new lines h',
    cast_each caster spell_name effect todo effects e h g
    = (Ok (effects ++ new), set_combat_log (combat_log e ++ lines) e, h',
       Dice.mkRng (Dice.source g) (Dice.cursor g + length todo * Z.to_nat count)) /\
    length new = length todo /\ length lines = length todo /\
    character_objs h' = character_objs h /\
    length (combatant_objs h') = length (combatant_objs h) /\
    (forall r, ~ In r todo -> deref h' r = deref h r) /\
    (forall r, name (deref h' r) = name (deref h r)) /\
    (forall i t ef, todo !! i = Some t -> new !! i = Some ef ->
       effect_target ef = name (deref h t) /\ effect_type ef = ty /\
       count + modifier <= effect_amount ef <= count * sides + modifier /\
       (NoDup todo ->
        effect_target_health ef = health (deref h' t) /\
        ((t < length (combatant_objs h))%nat ->
         deref h' t = apply_effect effect (effect_amount ef) (deref h t)))) /\
    (0 <= count + modifier -> Forall sound (combatant_objs h) ->
     Forall sound (combatant_objs h')).
Proof.
  intros Hs Hty Hparse Hsides Hcount.
  induction todo as [| t rest IH]; intros effects e h g.
  - exists [], [], h. cbn [cast_each length Nat.mul].
    rewrite !app_nil_r, Nat.add_0_r, set_combat_log_same.
    split; [destruct g; reflexivity |].
    split; [reflexivity |]. split; [reflexivity |]. split; [reflexivity |].
    split; [reflexivity |]. split; [intros r _; reflexivity |].
    split; [intros r; reflexivity |].
    split; [intros i t ef Hi; discriminate Hi |].
    intros _ Hall. exact Hall.
  - destruct (roll_reads sides count modifier g Hsides Hcount) as (roll & Hroll & Hbounds).
    rewrite <- Hparse in Hroll.
    destruct (cast_each_step caster spell_name effect t rest effects e h g _ s ty roll
                Hs Hty Hroll) as (line & Hstep).
    rewrite Hstep. clear Hstep.
    set (h1 := store t (apply_effect effect (Dice.total roll) (deref h t)) h).
    set (entry := mkEffect (name (deref h1 t)) ty (Dice.total roll) (health (deref h1 t))).
    destruct (IH (effects ++ [entry]) (log_action line e) h1
                (Dice.mkRng (Dice.source g) (Dice.cursor g + Z.to_nat count)))
      as (new & lines & h' & Hrun & Hlen & Hlines & Hchars & Hobjs & Hframe & Hnames
          & Heach & Hsound).
    assert (Hlen1 : length (combatant_objs h1) = length (combatant_objs h))
      by apply length_insert.
    exists (entry :: new),
      (("[Round " +:+ pretty (round_number e) +:+ "] " +:+ line) :: lines), h'.
    split.
    { rewrite Hrun. cbn [Dice.source Dice.cursor length Nat.mul].
      rewrite <- (app_assoc effects [entry] new), Nat.add_assoc.
      unfold log_action. cbn [combat_log set_combat_log].
      rewrite <- app_assoc. reflexivity. }
    split; [cbn [length]; congruence |].
    split; [cbn [length]; congruence |].
    split; [exact Hchars |].
    split; [congruence |].
    split.
    { intros r Hr. rewrite Hframe by (intros Hin; apply Hr; right; exact Hin).
      apply deref_store_ne. intros ->. apply Hr. left. reflexivity. }
    split.
    { intros r. rewrite Hnames. apply store_effect_name. }
    split.
    { intros i t' ef Hi Hef. destruct i as [| j]; cbn in Hi, Hef.
      - injection Hi as <-. injection Hef as <-. cbn [effect_target effect_type
          effect_amount effect_target_health entry].
        split; [apply store_effect_name |]. split; [reflexivity |].
        split; [exact Hbounds |].
        intros Hnd. apply NoDup_cons in Hnd as [Hnotin _].
        assert (Hsame : deref h' t = deref h1 t).
        { apply Hframe. intros Hin. apply Hnotin, list_elem_of_In. exact Hin. }
        rewrite Hsame. split; [reflexivity |].
        intros Hlt. apply deref_store_eq. exact Hlt.
      - destruct (Heach j t' ef Hi Hef) as (Hn & Ht & Hb & Hnodup).
        split; [rewrite Hn; apply store_effect_name |].
        split; [exact Ht |]. split; [exact Hb |].
        intros Hnd. apply NoDup_cons in Hnd as [Hnotin Hnd].
        destruct (Hnodup Hnd) as [Hhealth Hobj].
        split; [exact Hhealth |].
        intros Hlt. rewrite Hobj by (rewrite Hlen1; exact Hlt).
        f_equal. apply deref_store_ne. intros ->.
        apply Hnotin. eapply list_elem_of_lookup_2. exact Hi. }
    intros Hnonneg Hall. apply Hsound; [exact Hnonneg |].
    apply store_sound; [exact Hall |].
    intros Hlt. apply apply_effect_sound; [apply deref_sound; assumption | lia].
Qed.

(** X18: the calls of [cast_spell] that roll nothing.  An unconscious
    caster is refused and nothing changes.  For a conscious caster, an
    effect without a type, or of a type other than "damage" and
    "healing", and an empty target list give a result with no effects
    and leave encounter, combatants and generator as they were; and a
    dice notation that cannot be rolled is not caught as in [attack]:
    with at least one target the error leaves [cast_spell], before
    anything has changed. *)
Theorem cast_spell_without_roll (caster : nat) (spell_name : string)
    (targets : list nat) (effect : list (string * string))
    (e : Encounter) (h : Heap) (g : Dice.Rng) :
  (is_conscious (deref h caster) = false ->
   cast_spell caster spell_name targets effect e h g
   = (Ok (SpellRefused (name (deref h caster)
                        +:+ " is unconscious and cannot cast spells")), e, h, g)) /\
  (is_conscious (deref h caster) = true ->
   (effect_dice effect = None \/ targets = [] ->
    cast_spell caster spell_name targets effect e h g
    = (Ok (SpellCast (name (deref h caster)) spell_name
             (map (fun t => name (deref h t)) targets) []), e, h, g)) /\
   (forall s ex g1,
      effect_dice effect = Some s -> targets <> [] ->
      Dice.parse_and_roll s g = (Raise ex, g1) ->
      cast_spell caster spell_name targets effect e h g = (Raise ex, e, h, g1))).
Proof.
  unfold cast_spell. split.
  - intros ->. reflexivity.
  - intros ->. cbn [negb]. cbv zeta. split.
    + intros [Hnone | ->]; [| reflexivity].
      rewrite cast_each_skips by exact Hnone. reflexivity.
    + intros s ex g1 Hs Hne Hp.
      destruct targets as [| t rest]; [congruence |].
      rewrite (cast_each_raises caster spell_name effect t rest [] e h g g1 s ex Hs Hp).
      reflexivity.
Qed.

(** X19: a spell that rolls.  For a conscious caster and an effect of
    type "damage" or "healing" whose notation stands for [count] dice
    of [sides] sides and a modifier, [cast_spell] rolls once for each
    target, in the order of the list, and returns one effect for each:
    it names the target and the type and carries an amount within
    [count + modifier .. count * sides + modifier]; when no target is
    listed twice it reports the health the target ends with, and the
    target is what [take_damage] or [heal] makes of it for that amount.
    Combatants outside the list and all characters are unchanged, the
    log grows by one line for each target, roster and turn order are
    untouched, and combatants in good order stay so when the amounts
    cannot be negative. *)
Theorem cast_spell_effects (caster : nat) (spell_name : string)
    (targets : list nat) (effect : list (string * string))
    (s ty : string) (sides count modifier : Z)
    (e : Encounter) (h : Heap) (g : Dice.Rng) :
  is_conscious (deref h caster) = true ->
  Py.dict_get "type" effect = Some ty ->
  effect_dice effect = Some s ->
  (forall g0, Dice.parse_and_roll s g0 = Dice.roll sides count modifier g0) ->
  1 <= sides -> 1 <= count ->
  exists effects lines h',
    cast_spell caster spell_name targets effect e h g
    = (Ok (SpellCast (name (deref h caster)) spell_name
             (map (fun t => name (deref h t)) targets) effects),
       set_combat_log (combat_log e ++ lines) e, h',
       Dice.mkRng (Dice.source g) (Dice.cursor g + length targets * Z.to_nat count)) /\
    length effects = length targets /\ length lines = length targets /\
    character_objs h' = character_objs h /\
    length (combatant_objs h') = length (combatant_objs h) /\
    (forall r, ~ In r targets -> deref h' r = deref h r) /\
    (forall i t ef, targets !! i = Some t -> effects !! i = Some ef ->
       effect_target ef = name (deref h t) /\ effect_type ef = ty /\
       count + modifier <= effect_amount ef <= count * sides + modifier /\
       (NoDup targets ->
        effect_target_health ef = health (deref h' t) /\
        ((t < length (combatant_objs h))%nat ->
         deref h' t = apply_effect effect (effect_amount ef) (deref h t)))) /\
    (0 <= count + modifier -> Forall sound (combatant_objs h) ->
     Forall sound (combatant_objs h')).
Proof.
  intros Hc Hty Hs Hparse Hsides Hcount.
  destruct (cast_each_rolls caster spell_name effect s ty sides count modifier
              Hs Hty Hparse Hsides Hcount targets [] e h g)
    as (new & lines & h' & Hrun & Hlen & Hlines & Hchars & Hobjs & Hframe & _
        & Heach & Hsound).
  exists new, lines, h'. unfold cast_spell. rewrite Hc. cbn [negb]. cbv zeta.
  rewrite Hrun. cbn [app].
  split; [reflexivity |].
  exact (conj Hlen (conj Hlines (conj Hchars (conj Hobjs (conj Hframe
           (conj Heach Hsound)))))).
Qed.

Lemma cast_spell_effects_witness :
  let h := mkHeap [ mkCombatant "Ana" PLAYER 10 10 15 0 None true [];
                    mkCombatant "Goblin" ENEMY 7 7 15 0 None true [];
                    mkCombatant "Orc" ENEMY 15 15 13 0 None true [] ] [] in
  let e := mkEncounter "Ambush" [0; 1; 2]%nat [0; 1; 2]%nat 0 1 true [] in
  exists effects lines h',
    cast_spell 0 "Burning Hands" [1; 2]%nat [("type", "damage"); ("damage", "3d6")]
      e h Dice.example_rng
    = (Ok (SpellCast "Ana" "Burning Hands" ["Goblin"; "Orc"] effects),
       set_combat_log (combat_log e ++ lines) e, h',
       Dice.mkRng (Dice.source Dice.example_rng) 6) /\
    length effects = 2%nat /\ deref h' 0 = deref h 0.
Proof.
  cbv zeta.
  destruct (cast_spell_effects 0 "Burning Hands" [1; 2]%nat
              [("type", "damage"); ("damage", "3d6")] "3d6" "damage" 6 3 0
              (mkEncounter "Ambush" [0; 1; 2]%nat [0; 1; 2]%nat 0 1 true [])
              (mkHeap [ mkCombatant "Ana" PLAYER 10 10 15 0 None true [];
                        mkCombatant "Goblin" ENEMY 7 7 15 0 None true [];
                        mkCombatant "Orc" ENEMY 15 15 13 0 None true [] ] [])
              Dice.example_rng)
    as (effects & lines & h' & Hrun & Hlen & _ & _ & _ & Hframe & _).
  - reflexivity.
  - reflexivity.
  - reflexivity.
  - intros g0. reflexivity.
  - lia.
  - lia.
  - exists effects, lines, h'. split; [exact Hrun |]. split; [exact Hlen |].
    apply Hframe. simpl. intros [H | [H | []]]; discriminate H.
Defined.

End SpellFacts.

(** ** The combat log and the enemy templates *)

Section LogAndTemplateFacts.
Import Enc Combat.

Lemma drop_min_length {A : Type} (n : nat) (xs : list A) :
  drop (Nat.min n (length xs)) xs = drop n xs.
Proof.
  destruct (Nat.le_ge_cases n (length xs)) as [Hle | Hge].
  - rewrite Nat.min_l by exact Hle. reflexivity.
  - rewrite Nat.min_r by exact Hge. rewrite !drop_ge by lia. reflexivity.
Qed.

(** X20: [get_combat_log(last_n)] is the slice [combat_log[-last_n:]]:
    always an end piece of the log; for a positive [last_n] the last
    [last_n] entries, or the whole log when it is shorter; for
    [last_n = 0] not the empty list but the whole log; for a negative
    [last_n] the log without its first [-last_n] entries.  Right after
    [log_action], every positive [last_n] shows the new entry last. *)
Theorem get_combat_log_window (last_n : Z) (e : Encounter) :
  get_combat_log last_n e `suffix_of` combat_log e /\
  (0 < last_n ->
   get_combat_log last_n e
   = drop (length (combat_log e) - Z.to_nat last_n) (combat_log e) /\
   length (get_combat_log last_n e)
   = Nat.min (Z.to_nat last_n) (length (combat_log e))) /\
  (last_n = 0 -> get_combat_log last_n e = combat_log e) /\
  (last_n < 0 ->
   get_combat_log last_n e = drop (Z.to_nat (- last_n)) (combat_log e)) /\
  (0 < last_n -> forall action,
   last (get_combat_log last_n (log_action action e))
   = Some ("[Round " +:+ pretty (round_number e) +:+ "] " +:+ action)).
Proof.
  assert (Hpos : forall e0, 0 < last_n ->
            get_combat_log last_n e0
            = drop (length (combat_log e0) - Z.to_nat last_n) (combat_log e0)).
  { intros e0 Hn. unfold get_combat_log, Py.slice_from.
    destruct (Z.ltb_spec (- last_n) 0) as [_ | Hge]; [| lia].
    f_equal. lia. }
  split.
  { unfold get_combat_log, Py.slice_from.
    destruct (- last_n <? 0); apply suffix_drop. }
  split.
  { intros Hn. split; [apply Hpos; exact Hn |].
    rewrite Hpos by exact Hn. rewrite length_drop. lia. }
  split.
  { intros ->. unfold get_combat_log, Py.slice_from. cbn [Z.opp Z.ltb Z.compare].
    rewrite Z.min_l by lia. reflexivity. }
  split.
  { intros Hn. unfold get_combat_log, Py.slice_from.
    destruct (Z.ltb_spec (- last_n) 0) as [Hlt | _]; [lia |].
    rewrite <- (drop_min_length (Z.to_nat (- last_n))). f_equal. lia. }
  intros Hn action. rewrite Hpos by exact Hn.
  unfold log_action. cbn [combat_log set_combat_log].
  rewrite length_app. cbn [length].
  rewrite drop_app_le by lia. apply last_snoc.
Qed.

Lemma enemy_sound (nm : string) (hp ac : Z) :
  0 < hp -> sound (mkCombatant nm ENEMY hp hp ac 0 None true []).
Proof.
  intros Hhp. unfold sound, consistent. cbn.
  split; [split; split; intros H; (reflexivity || lia || discriminate H) |].
  split; [lia | apply NoDup_nil_2].
Qed.

Lemma dict_get_none {V : Type} (key : string) (d : list (string * V)) :
  Py.dict_get key d = None <-> ~ In key (map fst d).
Proof.
  induction d as [| [k v] r IH]; cbn [Py.dict_get map fst In].
  - tauto.
  - destruct (String.eqb_spec k key) as [-> | Hne].
    + split; [discriminate | intros H; exfalso; apply H; left; reflexivity].
    + rewrite IH. tauto.
Qed.

(** X21: [create_enemy] accepts exactly the seven keys of
    [ENEMY_TEMPLATES].  For a key of the table it returns an ENEMY at
    full health, conscious, without conditions or character, in good
    order, with the health and armor class of the template; a name that
    is given and not empty is used as it is, and a missing or empty
    name is replaced by the key in title case with blanks for
    underscores.  Any other type is rejected with a [ValueError] that
    names it. *)
Theorem create_enemy_templates (enemy_type : string) (nm : option string) :
  (forall hp ac dmg,
      Py.dict_get enemy_type ENEMY_TEMPLATES = Some (hp, ac, dmg) ->
      exists c, create_enemy enemy_type nm = Ok c /\
        combatant_type c = ENEMY /\ health c = hp /\ max_health c = hp /\
        armor_class c = ac /\ 7 <= hp /\ initiative c = 0 /\
        is_conscious c = true /\ conditions c = [] /\ character c = None /\
        sound c /\
        (forall n, nm = Some n -> n <> "" -> name c = n) /\
        (nm = None \/ nm = Some "" ->
         name c = title (underscores_to_spaces enemy_type))) /\
  (In enemy_type (map fst ENEMY_TEMPLATES) <->
   exists c, create_enemy enemy_type nm = Ok c) /\
  (~ In enemy_type (map fst ENEMY_TEMPLATES) ->
   create_enemy enemy_type nm
   = Raise (ValueError ("Unknown enemy type: " +:+ enemy_type))) /\
  map (fun k => create_enemy k None) (map fst ENEMY_TEMPLATES)
  = [ Ok (mkCombatant "Goblin" ENEMY 7 7 15 0 None true []);
      Ok (mkCombatant "Orc" ENEMY 15 15 13 0 None true []);
      Ok (mkCombatant "Skeleton" ENEMY 13 13 13 0 None true []);
      Ok (mkCombatant "Wolf" ENEMY 11 11 13 0 None true []);
      Ok (mkCombatant "Bandit" ENEMY 11 11 12 0 None true []);
      Ok (mkCombatant "Ogre" ENEMY 59 59 11 0 None true []);
      Ok (mkCombatant "Dragon Wyrmling" ENEMY 75 75 17 0 None true []) ].
Proof.
  split; [| split; [| split]].
  - intros hp ac dmg Hget. unfold create_enemy. rewrite Hget.
    assert (Hhp : 7 <= hp).
    { clear nm. unfold ENEMY_TEMPLATES in Hget. cbn [Py.dict_get] in Hget.
      repeat match type of Hget with
             | (if ?b then _ else _) = _ =>
                 destruct b; [injection Hget as <- _ _; lia |]
             end.
      discriminate Hget. }
    eexists. split; [reflexivity |].
    cbn [combatant_type health max_health armor_class initiative is_conscious
         conditions character name].
    do 9 (split; [reflexivity || exact Hhp |]).
    split; [apply enemy_sound; lia |].
    split.
    + intros n -> Hn. destruct n; [congruence | reflexivity].
    + intros [-> | ->]; reflexivity.
  - split.
    + intros Hin. unfold create_enemy.
      destruct (Py.dict_get enemy_type ENEMY_TEMPLATES) as [[[hp ac] dmg] |] eqn:Hget.
      * eexists. reflexivity.
      * apply dict_get_none in Hget. contradiction.
    + intros [c Hc]. unfold create_enemy in Hc.
      destruct (Py.dict_get enemy_type ENEMY_TEMPLATES) as [[[hp ac] dmg] |] eqn:Hget.
      * destruct (in_dec string_dec enemy_type (map fst ENEMY_TEMPLATES)) as [Hin | Hout];
          [exact Hin |].
        apply dict_get_none in Hout. congruence.
      * discriminate Hc.
  - intros Hout. apply dict_get_none in Hout. unfold create_enemy.
    rewrite Hout. reflexivity.
  - vm_compute. reflexivity.
Qed.

End LogAndTemplateFacts.

(** ** The story log *)

Section StoryFacts.
Import Sess Story.

(** [add_story_event] in closed form: the event is stamped with the
    clock, and every third event the session is saved, which reads the
    clock once more. *)
Lemma add_story_event_unfold (ty content : string)
    (md : option (list (string * JSON))) (s : GameSession) (env : Env) :
  let ev := mkStoryEvent (clock env (ticks env)) ty content (default [] md) in
  let s2 := set_turn_count (turn_count s + 1)
              (set_story_history (story_history s ++ [ev]) s) in
  let stamp := clock env (S (ticks env)) in
  add_story_event ty content md s env
  = if (turn_count s + 1) mod 3 =? 0
    then if bool_decide (session_file s ∈ unwritable env)
         then (s2, mkEnv (files env) (unwritable env) (clock env) (S (S (ticks env))))
         else (set_last_saved (Some stamp) s2,
               mkEnv (<[session_file s := Document (session_data s2 stamp)]> (files env))
                 (unwritable env) (clock env) (S (S (ticks env))))
    else (s2, mkEnv (files env) (unwritable env) (clock env) (S (ticks env))).
Proof.
  cbv zeta. unfold add_story_event, save_session, write_json, now.
  cbn [turn_count set_turn_count set_story_history session_file files unwritable
       clock ticks].
  destruct ((turn_count s + 1) mod 3 =? 0); [| reflexivity].
  destruct (decide (session_file s ∈ unwritable env)) as [Hin | Hout].
  - rewrite bool_decide_eq_true_2 by exact Hin. reflexivity.
  - rewrite bool_decide_eq_false_2 by exact Hout. reflexivity.
Qed.

(** What one event changes in the session. *)
Lemma add_story_event_frame (ty content : string)
    (md : option (list (string * JSON))) (s : GameSession) (env : Env) :
  let s1 := fst (add_story_event ty content md s env) in
  let env1 := snd (add_story_event ty content md s env) in
  story_history s1
  = story_history s ++ [mkStoryEvent (clock env (ticks env)) ty content (default [] md)] /\
  turn_count s1 = turn_count s + 1 /\
  session_file s1 = session_file s /\
  current_location s1 = current_location s /\
  in_combat s1 = in_combat s /\
  current_encounter s1 = current_encounter s /\
  unwritable env1 = unwritable env.
Proof.
  cbv zeta. rewrite add_story_event_unfold. cbv zeta.
  destruct ((turn_count s + 1) mod 3 =? 0);
    [destruct (bool_decide (session_file s ∈ unwritable env)) |];
    repeat split.
Qed.

(** What one event changes in the files. *)
Lemma add_story_event_files (ty content : string)
    (md : option (list (string * JSON))) (s : GameSession) (env : Env) :
  let s1 := fst (add_story_event ty content md s env) in
  let env1 := snd (add_story_event ty content md s env) in
  ((turn_count s + 1) mod 3 <> 0 \/ session_file s ∈ unwritable env ->
   files env1 = files env) /\
  ((turn_count s + 1) mod 3 = 0 -> session_file s ∉ unwritable env ->
   files env1
   = <[session_file s := Document (session_data s1 (clock env (S (ticks env))))]>
       (files env)).
Proof.
  cbv zeta. rewrite add_story_event_unfold. cbv zeta.
  destruct (Z.eqb_spec ((turn_count s + 1) mod 3) 0) as [Hz | Hnz].
  - destruct (decide (session_file s ∈ unwritable env)) as [Hin | Hout].
    + rewrite bool_decide_eq_true_2 by exact Hin.
      split; [reflexivity | intros _ Hout; contradiction].
    + rewrite bool_decide_eq_false_2 by exact Hout.
      split; [intros [H | H]; contradiction | intros _ _; reflexivity].
  - split; [reflexivity | intros H; contradiction].
Qed.

(** A run of events, as the file sees it. *)
Lemma add_events_saved (events : list (string * string * option (list (string * JSON)))) :
  forall (s : GameSession) (env : Env),
  turn_count s = Z.of_nat (length (story_history s)) ->
  session_file s ∉ unwritable env ->
  let s' := fst (add_events events s env) in
  let env' := snd (add_events events s env) in
  let kept := 3 * (turn_count s' / 3) in
  (exists news,
      story_history s' = story_history s ++ news /\
      map (fun ev => (event_type ev, content ev, metadata ev)) news
      = map (fun x => (fst (fst x), snd (fst x), default [] (snd x))) events) /\
  turn_count s' = Z.of_nat (length (story_history s')) /\
  session_file s' = session_file s /\
  current_location s' = current_location s /\
  in_combat s' = in_combat s /\
  current_encounter s' = current_encounter s /\
  unwritable env' = unwritable env /\
  (kept <= turn_count s -> files env' = files env) /\
  (turn_count s < kept ->
   exists sx stamp,
     files env' !! session_file s = Some (Document (session_data sx stamp)) /\
     story_history sx = take (Z.to_nat kept) (story_history s') /\
     turn_count sx = kept /\
     current_location sx = current_location s /\
     in_combat sx = in_combat s /\
     current_encounter sx = current_encounter s).
Proof.
  induction events as [| [[ty c] md] rest IH]; intros s env Htc Hw.
  - cbn [add_events fst snd]. cbv zeta.
    split; [exists []; split; [rewrite app_nil_r; reflexivity | reflexivity] |].
    split; [exact Htc |].
    do 5 (split; [reflexivity |]).
    split; [reflexivity |].
    intros Hlt. exfalso. revert Hlt. Z.div_mod_to_equations. lia.
  - cbn [add_events].
    destruct (add_story_event_frame ty c md s env)
      as (Hh1 & Ht1 & Hf1 & Hl1 & Hc1 & He1 & Hu1).
    destruct (add_story_event_files ty c md s env) as (Hkeep & Hsave).
    destruct (add_story_event ty c md s env) as [s1 env1]. cbn [fst snd] in *.
    assert (Htc1 : turn_count s1 = Z.of_nat (length (story_history s1))).
    { rewrite Ht1, Hh1, length_app, Htc. cbn [length]. lia. }
    assert (Hw1 : session_file s1 ∉ unwritable env1) by (rewrite Hf1, Hu1; exact Hw).
    specialize (IH s1 env1 Htc1 Hw1). cbv zeta in IH.
    destruct IH as ((news & Hnews & Hmap) & Htc' & Hf' & Hl' & Hc' & He' & Hu'
                    & Hnone & Hsome).
    set (s' := fst (add_events rest s1 env1)) in *.
    set (env' := snd (add_events rest s1 env1)) in *.
    assert (Hge : turn_count s1 <= turn_count s').
    { rewrite Htc', Htc1, Hnews, length_app. lia. }
    split.
    { exists (mkStoryEvent (clock env (ticks env)) ty c (default [] md) :: news).
      split; [rewrite Hnews, Hh1, <- app_assoc; reflexivity |].
      cbn [map fst snd event_type content metadata]. rewrite Hmap. reflexivity. }
    split; [exact Htc' |].
    split; [congruence |]. split; [congruence |]. split; [congruence |].
    split; [congruence |]. split; [congruence |].
    split.
    { intros Hk.
      rewrite Hnone by lia. apply Hkeep. left.
      revert Hk Hge. rewrite Ht1. generalize (turn_count s') (turn_count s).
      intros a b. Z.div_mod_to_equations. lia. }
    intros Hk.
    destruct (Z.lt_ge_cases (turn_count s1) (3 * (turn_count s' / 3))) as [Hlater | Hnow].
    + destruct (Hsome Hlater) as (sx & stamp & Hfile & Hhx & Htx & Hlx & Hcx & Hex).
      exists sx, stamp. rewrite <- Hf1.
      split; [exact Hfile |]. split; [exact Hhx |]. split; [exact Htx |].
      split; [congruence |]. split; congruence.
    + assert (Heq : 3 * (turn_count s' / 3) = turn_count s1) by lia.
      assert (Hmod : (turn_count s + 1) mod 3 = 0).
      { revert Heq. rewrite Ht1. generalize (turn_count s') (turn_count s).
        intros a b. Z.div_mod_to_equations. lia. }
      exists s1, (clock env (S (ticks env))).
      rewrite (Hnone Hnow), (Hsave Hmod Hw), lookup_insert_eq.
      split; [reflexivity |].
      split.
      { rewrite Heq, Htc1, Nat2Z.id, Hnews, take_app_length. reflexivity. }
      split; [symmetry; exact Heq |].
      split; [exact Hl1 |]. split; [exact Hc1 | exact He1].
Qed.

(** X22: the autosave.  Starting from a session whose turn counter
    counts its events, with a session file that can be written, any run
    of [add_story_event] calls appends the events in order and saves
    the session at every third event: the file then holds the events
    up to the last multiple of three, so that a fresh session loading
    it gets all but the last [turn_count mod 3] events, at most two
    short of the session in memory.  When the run reaches no multiple
    of three, no file is touched. *)
Theorem autosave_every_third_event
    (events : list (string * string * option (list (string * JSON))))
    (s : GameSession) (env : Env) :
  turn_count s = Z.of_nat (length (story_history s)) ->
  session_file s ∉ unwritable env ->
  let s' := fst (add_events events s env) in
  let env' := snd (add_events events s env) in
  let kept := 3 * (turn_count s' / 3) in
  story_history s `prefix_of` story_history s' /\
  map (fun ev => (event_type ev, content ev, metadata ev))
    (drop (length (story_history s)) (story_history s'))
  = map (fun x => (fst (fst x), snd (fst x), default [] (snd x))) events /\
  turn_count s' = turn_count s + Z.of_nat (length events) /\
  turn_count s' - 2 <= kept <= turn_count s' /\
  (kept <= turn_count s -> files env' = files env) /\
  (turn_count s < kept ->
   forall fresh, session_file fresh = session_file s ->
   exists loaded,
     load_session fresh env' = (true, loaded) /\
     story_history loaded = take (Z.to_nat kept) (story_history s') /\
     turn_count loaded = kept /\
     current_location loaded = current_location s /\
     in_combat loaded = in_combat s /\
     current_encounter loaded = current_encounter s).
Proof.
  intros Htc Hw. cbv zeta.
  destruct (add_events_saved events s env Htc Hw)
    as ((news & Hnews & Hmap) & Htc' & _ & _ & _ & _ & _ & Hnone & Hsome).
  split; [rewrite Hnews; apply prefix_app_r; reflexivity |].
  split; [rewrite Hnews, drop_app_length; exact Hmap |].
  split.
  { rewrite Htc', Hnews, length_app, Htc.
    apply (f_equal (@length _)) in Hmap. rewrite !length_map in Hmap. lia. }
  split; [Z.div_mod_to_equations; lia |].
  split; [exact Hnone |].
  intros Hk fresh Hfresh.
  destruct (Hsome Hk) as (sx & stamp & Hfile & Hhx & Htx & Hlx & Hcx & Hex).
  unfold load_session. rewrite Hfresh, Hfile, load_fields_session_data.
  eexists. split; [reflexivity |].
  cbn [story_history turn_count current_location in_combat current_encounter].
  split; [exact Hhx |]. split; [exact Htx |]. split; [exact Hlx |].
  split; [exact Hcx | exact Hex].
Qed.

Lemma autosave_every_third_event_witness :
  let s0 := fst (Sess.new "camp" "sessions" example_env) in
  let env0 := snd (Sess.new "camp" "sessions" example_env) in
  let run := add_events
               [ ("player_action", "I open the door", None);
                 ("dm_response", "It creaks", Some [("personality", JStr "grim")]);
                 ("player_action", "I step in", None);
                 ("system", "Combat started: Ambush", None) ] s0 env0 in
  exists loaded,
    load_session s0 (snd run) = (true, loaded) /\
    map content (story_history loaded)
    = ["I open the door"; "It creaks"; "I step in"] /\
    turn_count loaded = 3 /\ turn_count (fst run) = 4.
Proof.
  cbv zeta.
  destruct (autosave_every_third_event
              [ ("player_action", "I open the door", None);
                ("dm_response", "It creaks", Some [("personality", JStr "grim")]);
                ("player_action", "I step in", None);
                ("system", "Combat started: Ambush", None) ]
              (fst (Sess.new "camp" "sessions" example_env))
              (snd (Sess.new "camp" "sessions" example_env)))
    as (_ & _ & Hcount & _ & _ & Hload).
  - reflexivity.
  - cbn. apply not_elem_of_empty.
  - destruct (Hload ltac:(vm_compute; reflexivity)
                (fst (Sess.new "camp" "sessions" example_env)) eq_refl)
      as (loaded & Hl & Hh & Ht & _).
    exists loaded. split; [exact Hl |].
    split; [rewrite Hh; vm_compute; reflexivity |].
    split; [rewrite Ht; vm_compute; reflexivity | exact Hcount].
Defined.

End StoryFacts.

(** ** What the context shows after an entry *)

Section ContextFacts.
Import Sess Story.

Lemma add_story_event_header (ty content : string)
    (md : option (list (string * JSON))) (s : GameSession) (env : Env) :
  header (fst (add_story_event ty content md s env)) = header s.
Proof.
  rewrite add_story_event_unfold. cbv zeta.
  destruct ((turn_count s + 1) mod 3 =? 0);
    [destruct (bool_decide (session_file s ∈ unwritable env)) |];
    reflexivity.
Qed.

Lemma last_events_snoc {A : Type} (n : Z) (xs : list A) (a : A) :
  0 < n -> last_events n (xs ++ [a]) = last_events (n - 1) xs ++ [a].
Proof.
  intros Hn. unfold last_events. rewrite length_app. cbn [length].
  rewrite drop_app_le by lia. f_equal. f_equal. lia.
Qed.

(** The context of a session right after one event was added. *)
Lemma get_context_after_event (ty content label : string)
    (md : option (list (string * JSON))) (s : GameSession) (env : Env) (last_n : Z) :
  0 < last_n ->
  role_label ty = Some label ->
  get_context last_n (fst (add_story_event ty content md s env))
  = Py.join Py.nl
      (header s ++ [""]
       ++ concat (map context_line (last_events (last_n - 1) (story_history s)))
       ++ [label +:+ ": " +:+ content]).
Proof.
  intros Hn Hlabel.
  destruct (add_story_event_frame ty content md s env) as (Hh & _).
  rewrite get_context_transcript; [| rewrite Hh; intros H; destruct (story_history s);
                                     discriminate H | exact Hn].
  rewrite add_story_event_header, Hh, last_events_snoc by exact Hn.
  rewrite map_app, concat_app. cbn [map concat].
  rewrite (context_line_labelled _ label) by exact Hlabel.
  rewrite app_nil_r. reflexivity.
Qed.

(** X23: [add_dm_response] appends one "dm_response" event, whose
    metadata hold the personality when one is given and not empty, and
    nothing otherwise; for a positive [last_n] the context of the
    session then ends with the line "DM: <response>", after the lines
    of the [last_n - 1] events before it, under the unchanged
    header. *)
Theorem dm_response_in_context (response : string) (personality : option string)
    (s : GameSession) (env : Env) (last_n : Z) :
  0 < last_n ->
  let s' := fst (add_dm_response response personality s env) in
  turn_count s' = turn_count s + 1 /\
  map (fun ev => (event_type ev, content ev, metadata ev))
    (drop (length (story_history s)) (story_history s'))
  = [("dm_response", response,
      match personality with
      | Some p => if Dice.is_empty p then [] else [("personality", JStr p)]
      | None => []
      end)] /\
  get_context last_n s'
  = Py.join Py.nl
      (header s ++ [""]
       ++ concat (map context_line (last_events (last_n - 1) (story_history s)))
       ++ ["DM: " +:+ response]).
Proof.
  intros Hn. cbv zeta. unfold add_dm_response.
  set (md := match personality with
             | Some p => if truthy p then [("personality", JStr p)] else []
             | None => []
             end).
  destruct (add_story_event_frame "dm_response" response (Some md) s env)
    as (Hh & Ht & _).
  split; [exact Ht |].
  split.
  { rewrite Hh, drop_app_length. cbn [map event_type content metadata default].
    subst md. unfold truthy. destruct personality as [p |]; [| reflexivity].
    destruct (Dice.is_empty p); reflexivity. }
  rewrite (get_context_after_event "dm_response" response "DM")
    by (exact Hn || reflexivity).
  reflexivity.
Qed.

Lemma dm_response_in_context_witness :
  let s0 := fst (Sess.new "camp" "sessions" example_env) in
  let env0 := snd (Sess.new "camp" "sessions" example_env) in
  get_context 10 (fst (add_dm_response "A door creaks." (Some "grim") s0 env0))
  = "Current Location: Starting Village" +:+ Py.nl +:+ Py.nl +:+ "DM: A door creaks.".
Proof.
  cbv zeta.
  destruct (dm_response_in_context "A door creaks." (Some "grim")
              (fst (Sess.new "camp" "sessions" example_env))
              (snd (Sess.new "camp" "sessions" example_env)) 10) as (_ & _ & Hc).
  - lia.
  - rewrite Hc. vm_compute. reflexivity.
Defined.

(** X24: [add_player_action].  Without a dice result, or with an empty
    one, it appends a single "player_action" event with empty metadata.
    With a dice result it appends two events, in this order: the
    "player_action" carrying the result under ["dice_result"], then a
    "dice_roll" whose text is "<description>: <total>" (with "dice
    roll" and 0 for missing entries) and whose metadata are the result
    itself.  The context of the session then ends with the line
    "Player: <action>", followed in the second case by the line
    "Roll: <description>: <total>". *)
Theorem player_action_in_context (str_of : JSON -> string) (action : string)
    (dice_result : option (list (string * JSON)))
    (s : GameSession) (env : Env) (last_n : Z) :
  1 < last_n ->
  let s' := fst (add_player_action str_of action dice_result s env) in
  let added := map (fun ev => (event_type ev, content ev, metadata ev))
                 (drop (length (story_history s)) (story_history s')) in
  let older k := concat (map context_line (last_events k (story_history s))) in
  match dice_result with
  | Some (p :: rest) =>
      let d := p :: rest in
      let roll_line := str_of (get_or "description" (JStr "dice roll") d) +:+ ": "
                       +:+ str_of (get_or "total" (JInt 0) d) in
      turn_count s' = turn_count s + 2 /\
      added = [("player_action", action, [("dice_result", JObj d)]);
               ("dice_roll", roll_line, d)] /\
      get_context last_n s'
      = Py.join Py.nl (header s ++ [""] ++ older (last_n - 2)
                       ++ ["Player: " +:+ action; "Roll: " +:+ roll_line])
  | _ =>
      turn_count s' = turn_count s + 1 /\
      added = [("player_action", action, [])] /\
      get_context last_n s'
      = Py.join Py.nl (header s ++ [""] ++ older (last_n - 1)
                       ++ ["Player: " +:+ action])
  end.
Proof.
  intros Hn. cbv zeta.
  assert (Hone :
            let s' := fst (add_story_event "player_action" action (Some []) s env) in
            turn_count s' = turn_count s + 1 /\
            map (fun ev => (event_type ev, content ev, metadata ev))
              (drop (length (story_history s)) (story_history s'))
            = [("player_action", action, [])] /\
            get_context last_n s'
            = Py.join Py.nl
                (header s ++ [""]
                 ++ concat (map context_line (last_events (last_n - 1) (story_history s)))
                 ++ ["Player: " +:+ action])).
  { cbv zeta.
    destruct (add_story_event_frame "player_action" action (Some []) s env)
      as (Hh & Ht & _).
    split; [exact Ht |].
    split; [rewrite Hh, drop_app_length; reflexivity |].
    rewrite (get_context_after_event "player_action" action "Player")
      by (lia || reflexivity).
    reflexivity. }
  destruct dice_result as [[| p rest] |].
  - exact Hone.
  - unfold add_player_action.
    set (d := p :: rest).
    destruct (add_story_event_frame "player_action" action
                (Some [("dice_result", JObj d)]) s env) as (Hh1 & Ht1 & _).
    pose proof (add_story_event_header "player_action" action
                  (Some [("dice_result", JObj d)]) s env) as Hhd1.
    destruct (add_story_event "player_action" action
                (Some [("dice_result", JObj d)]) s env) as [s1 env1].
    cbn [fst snd] in *. cbv beta iota zeta.
    set (roll_line := str_of (get_or "description" (JStr "dice roll") d) +:+ ": "
                      +:+ str_of (get_or "total" (JInt 0) d)).
    destruct (add_story_event_frame "dice_roll" roll_line (Some d) s1 env1)
      as (Hh2 & Ht2 & _).
    split; [rewrite Ht2, Ht1; lia |].
    split.
    { rewrite Hh2, Hh1, <- app_assoc, drop_app_length. reflexivity. }
    rewrite (get_context_after_event "dice_roll" roll_line "Roll") by (lia || reflexivity).
    rewrite Hhd1, Hh1, last_events_snoc by lia.
    rewrite map_app, concat_app. cbn [map concat].
    rewrite (context_line_labelled _ "Player") by reflexivity.
    cbn [content]. rewrite app_nil_r, <- !app_assoc. cbn [app].
    replace (last_n - 1 - 1) with (last_n - 2) by lia. reflexivity.
  - exact Hone.
Qed.

Lemma player_action_in_context_witness :
  let s0 := fst (Sess.new "camp" "sessions" example_env) in
  let env0 := snd (Sess.new "camp" "sessions" example_env) in
  get_context 10
    (fst (add_player_action str_scalar "I pick the lock"
            (Some [("description", JStr "1d20+3"); ("total", JInt 17)]) s0 env0))
  = "Current Location: Starting Village" +:+ Py.nl +:+ Py.nl
    +:+ "Player: I pick the lock" +:+ Py.nl +:+ "Roll: 1d20+3: 17".
Proof.
  cbv zeta.
  pose proof (player_action_in_context str_scalar "I pick the lock"
                (Some [("description", JStr "1d20+3"); ("total", JInt 17)])
                (fst (Sess.new "camp" "sessions" example_env))
                (snd (Sess.new "camp" "sessions" example_env)) 10) as H.
  destruct H as (_ & _ & Hc).
  - lia.
  - rewrite Hc. vm_compute. reflexivity.
Defined.

(** X25: combat in the session.  [start_combat] sets the combat flag
    and the encounter name before it logs "Combat started: <name>", so
    that the context header gains the line "Status: Currently in
    combat" and an autosave triggered by that very event records the
    session as in combat.  [end_combat] right after it clears both and
    logs "Combat ended: <name>", with "Unknown encounter" for an empty
    name; the two calls add exactly these two system events.  Outside
    combat [end_combat] does nothing at all. *)
Theorem session_combat_round_trip (encounter_name : string)
    (s : GameSession) (env : Env) :
  let s1 := fst (Story.start_combat encounter_name s env) in
  let env1 := snd (Story.start_combat encounter_name s env) in
  let s2 := fst (Story.end_combat s1 env1) in
  in_combat s1 = true /\ current_encounter s1 = Some encounter_name /\
  In "Status: Currently in combat" (header s1) /\
  in_combat s2 = false /\ current_encounter s2 = None /\
  map (fun ev => (event_type ev, content ev, metadata ev))
    (drop (length (story_history s)) (story_history s2))
  = [("system", "Combat started: " +:+ encounter_name, []);
     ("system", "Combat ended: " +:+ (if Dice.is_empty encounter_name
                                      then "Unknown encounter" else encounter_name),
      [])] /\
  turn_count s2 = turn_count s + 2 /\
  (in_combat s = false -> Story.end_combat s env = (s, env)) /\
  ((turn_count s + 1) mod 3 = 0 -> session_file s ∉ unwritable env ->
   forall fresh, session_file fresh = session_file s ->
   exists loaded,
     load_session fresh env1 = (true, loaded) /\
     in_combat loaded = true /\ current_encounter loaded = Some encounter_name /\
     story_history loaded = story_history s1).
Proof.
  cbv zeta. unfold Story.start_combat. cbv zeta.
  set (s0 := set_current_encounter (Some encounter_name) (set_in_combat true s)).
  set (started := "Combat started: " +:+ encounter_name).
  destruct (add_story_event_frame "system" started None s0 env)
    as (Hh1 & Ht1 & Hf1 & _ & Hc1 & He1 & Hu1).
  pose proof (add_story_event_header "system" started None s0 env) as Hhd1.
  destruct (add_story_event_files "system" started None s0 env) as (_ & Hsave).
  destruct (add_story_event "system" started None s0 env) as [s1 env1].
  cbn [fst snd] in *.
  change (in_combat s0) with true in Hc1.
  change (current_encounter s0) with (Some encounter_name) in He1.
  change (story_history s0) with (story_history s) in Hh1.
  change (turn_count s0) with (turn_count s) in Ht1, Hsave.
  change (session_file s0) with (session_file s) in Hf1, Hsave.
  split; [exact Hc1 |]. split; [exact He1 |].
  split.
  { rewrite Hhd1. unfold header. change (in_combat s0) with true.
    rewrite !in_app_iff. right. right. right. left. reflexivity. }
  unfold Story.end_combat. rewrite Hc1, He1.
  set (ended := "Combat ended: " +:+ (if truthy encounter_name then encounter_name
                                      else "Unknown encounter")).
  set (s1' := set_current_encounter None (set_in_combat false s1)).
  destruct (add_story_event_frame "system" ended None s1' env1)
    as (Hh2 & Ht2 & _ & _ & Hc2 & He2 & _).
  split; [exact Hc2 |]. split; [exact He2 |].
  split.
  { rewrite Hh2. change (story_history s1') with (story_history s1).
    rewrite Hh1, <- app_assoc, drop_app_length.
    cbn [app map event_type content metadata default].
    subst ended. unfold truthy. destruct (Dice.is_empty encounter_name); reflexivity. }
  split.
  { rewrite Ht2. change (turn_count s1') with (turn_count s1). lia. }
  split.
  { intros Hout. unfold Story.end_combat. rewrite Hout. reflexivity. }
  intros Hmod Hw fresh Hfresh.
  unfold load_session. rewrite Hfresh, (Hsave Hmod Hw), lookup_insert_eq.
  rewrite load_fields_session_data.
  eexists. split; [reflexivity |].
  cbn [in_combat current_encounter story_history].
  split; [exact Hc1 |]. split; [exact He1 | reflexivity].
Qed.

Lemma session_combat_round_trip_witness :
  let s0 := fst (Sess.new "camp" "sessions" example_env) in
  let env0 := snd (Sess.new "camp" "sessions" example_env) in
  let run := add_events [ ("player_action", "I open the door", None);
                          ("dm_response", "Goblins!", None) ] s0 env0 in
  exists loaded,
    load_session s0 (snd (Story.start_combat "Ambush" (fst run) (snd run)))
    = (true, loaded) /\
    in_combat loaded = true /\ current_encounter loaded = Some "Ambush".
Proof.
  cbv zeta.
  destruct (session_combat_round_trip "Ambush"
              (fst (add_events [ ("player_action", "I open the door", None);
                                 ("dm_response", "Goblins!", None) ]
                      (fst (Sess.new "camp" "sessions" example_env))
                      (snd (Sess.new "camp" "sessions" example_env))))
              (snd (add_events [ ("player_action", "I open the door", None);
                                 ("dm_response", "Goblins!", None) ]
                      (fst (Sess.new "camp" "sessions" example_env))
                      (snd (Sess.new "camp" "sessions" example_env)))))
    as (_ & _ & _ & _ & _ & _ & _ & _ & Hsaved).
  destruct (Hsaved ltac:(vm_compute; reflexivity)
              ltac:(cbn; apply not_elem_of_empty)
              (fst (Sess.new "camp" "sessions" example_env)) eq_refl)
    as (loaded & Hl & Hc & He & _).
  exists loaded. split; [exact Hl |]. split; [exact Hc | exact He].
Defined.

End ContextFacts.

(** ** How combat ends *)

Section CombatEndFacts.
Import Enc Combat.

(** X26: combat ends at a round boundary only.  A call of [next_turn]
    that stays inside the round keeps the encounter active and logs
    nothing, whatever the state of the two sides.  A call that wraps
    around starts the next round and then ends combat exactly when the
    roster holds no conscious player or no conscious enemy: the last
    log entry is then the victory line when a player is still
    conscious, and the defeat line when none is (also for a roster
    that never held a player); otherwise it is the line that begins
    the round. *)
Theorem next_turn_ends_combat (e : Encounter) (h : Heap) :
  is_active e = true ->
  let e' := fst (next_turn e h) in
  let players := conscious_of is_player h (combatants e) in
  let enemies := conscious_of is_enemy h (combatants e) in
  let entry line := "[Round " +:+ pretty (round_number e + 1) +:+ "] " +:+ line in
  (current_turn_index e + 1 < Z.of_nat (length (turn_order e)) ->
   is_active e' = true /\ combat_log e' = combat_log e) /\
  (Z.of_nat (length (turn_order e)) <= current_turn_index e + 1 ->
   (is_active e' = false <-> players = [] \/ enemies = []) /\
   (players <> [] -> enemies = [] ->
    last (combat_log e') = Some (entry "Victory! All enemies have been defeated!")) /\
   (players = [] ->
    last (combat_log e')
    = Some (entry "Defeat! All players have fallen unconscious!")) /\
   (players <> [] -> enemies <> [] ->
    last (combat_log e')
    = Some (entry ("Round " +:+ pretty (round_number e + 1) +:+ " begins")))).
Proof.
  intros Hact. cbv zeta. split.
  - intros Hin. rewrite next_turn_inside by assumption. cbn [fst].
    split; [exact Hact | reflexivity].
  - intros Hwrap. unfold next_turn. rewrite Hact. cbn [negb].
    destruct (Z.leb_spec (Z.of_nat (length (turn_order (set_current_turn_index
                (current_turn_index e + 1) e))))
                (current_turn_index (set_current_turn_index
                (current_turn_index e + 1) e))) as [_ | Hlt];
      [| simpl in Hlt; lia].
    cbv zeta. unfold should_end_combat, end_combat. cbv zeta.
    cbn [combatants set_turn_order set_combat_log log_action set_round_number
         set_current_turn_index set_is_active].
    destruct (conscious_of is_player h (combatants e)) as [| p ps];
      destruct (conscious_of is_enemy h (combatants e)) as [| q qs];
      cbn [length Nat.eqb Nat.ltb Nat.leb orb andb fst is_active combat_log
           round_number set_turn_order set_combat_log log_action set_round_number
           set_current_turn_index set_is_active].
    + split; [split; [intros _; left; reflexivity | reflexivity] |].
      split; [intros H; contradiction |].
      split; [intros _; apply last_snoc |].
      intros H; contradiction.
    + split; [split; [intros _; left; reflexivity | reflexivity] |].
      split; [intros H; contradiction |].
      split; [intros _; apply last_snoc |].
      intros H; contradiction.
    + split; [split; [intros _; right; reflexivity | reflexivity] |].
      split; [intros _ _; apply last_snoc |].
      split; [intros H; discriminate H |].
      intros _ H; contradiction.
    + split; [split; [rewrite Hact; discriminate | intros [H | H]; discriminate H] |].
      split; [intros _ H; discriminate H |].
      split; [intros H; discriminate H |].
      intros _ _. apply last_snoc.
Qed.

Lemma next_turn_ends_combat_witness :
  let h := mkHeap [ mkCombatant "Ana" PLAYER 10 10 15 12 None true [];
                    mkCombatant "Goblin" ENEMY 0 7 15 9 None false ["unconscious"] ] [] in
  let e := mkEncounter "Ambush" [0; 1]%nat [0; 1]%nat 1 1 true [] in
  is_active (fst (next_turn e h)) = false /\
  last (combat_log (fst (next_turn e h)))
  = Some "[Round 2] Victory! All enemies have been defeated!".
Proof.
  cbv zeta.
  destruct (next_turn_ends_combat
              (mkEncounter "Ambush" [0; 1]%nat [0; 1]%nat 1 1 true [])
              (mkHeap [ mkCombatant "Ana" PLAYER 10 10 15 12 None true [];
                        mkCombatant "Goblin" ENEMY 0 7 15 9 None false ["unconscious"] ] []))
    as (_ & Hwrap).
  - reflexivity.
  - destruct Hwrap as (Hoff & Hwin & _); [simpl; lia |].
    split.
    + apply Hoff. right. reflexivity.
    + apply Hwin; [discriminate | reflexivity].
Defined.

End CombatEndFacts.

(** ** The window of the context *)

Section ContextWindowFacts.
Import Sess.

Lemma last_events_all {A : Type} (n : Z) (xs : list A) :
  Z.of_nat (length xs) <= n -> last_events n xs = xs.
Proof.
  intros Hn. unfold last_events.
  replace (length xs - Z.to_nat n)%nat with 0%nat by lia. reflexivity.
Qed.

Lemma last_events_older {A : Type} (n : Z) (older xs : list A) :
  0 <= n <= Z.of_nat (length xs) ->
  last_events n (older ++ xs) = last_events n xs.
Proof.
  intros Hn. unfold last_events. rewrite length_app.
  rewrite drop_app_ge by lia. f_equal. lia.
Qed.

(** X27: the window of [get_context] on a session with at least one
    event.  A [last_n] of at least the number of events shows them all,
    and so does [last_n = 0], which does not mean "no event"; a
    negative [last_n] leaves out the first [-last_n] events instead of
    selecting the last ones.  For a positive [last_n] the text depends
    on the header fields and the last [last_n] events only: events
    before the window can be added or changed at will. *)
Theorem get_context_window (last_n : Z) (s : GameSession) :
  story_history s <> [] ->
  let everything :=
    Py.join Py.nl (header s ++ [""] ++ concat (map context_line (story_history s))) in
  (Z.of_nat (length (story_history s)) <= last_n -> get_context last_n s = everything) /\
  (last_n = 0 -> get_context last_n s = everything) /\
  (last_n < 0 ->
   get_context last_n s
   = Py.join Py.nl (header s ++ [""]
                    ++ concat (map context_line
                                 (drop (Z.to_nat (- last_n)) (story_history s))))) /\
  (0 < last_n <= Z.of_nat (length (story_history s)) ->
   forall older,
     get_context last_n (set_story_history (older ++ story_history s) s)
     = get_context last_n s).
Proof.
  intros Hne. cbv zeta.
  assert (Hraw : forall n,
            get_context n s
            = Py.join Py.nl (header s ++ [""]
                             ++ concat (map context_line
                                          (Py.slice_from (- n) (story_history s))))).
  { intros n. unfold get_context.
    destruct (story_history s) as [| ev rest]; [contradiction |].
    cbv zeta. rewrite <- List.app_assoc. reflexivity. }
  split.
  { intros Hall.
    assert (Hpos : 0 < last_n).
    { destruct (story_history s); [contradiction | cbn [length] in Hall; lia]. }
    rewrite get_context_transcript, last_events_all by assumption. reflexivity. }
  split.
  { intros ->. rewrite Hraw. unfold Py.slice_from. cbn [Z.opp Z.ltb Z.compare].
    rewrite Z.min_l by lia. reflexivity. }
  split.
  { intros Hneg. rewrite Hraw. unfold Py.slice_from.
    destruct (Z.ltb_spec (- last_n) 0) as [Hlt | _]; [lia |].
    destruct (Z.le_ge_cases (- last_n) (Z.of_nat (length (story_history s))))
      as [Hle | Hge].
    - rewrite Z.min_l by exact Hle. reflexivity.
    - rewrite Z.min_r by lia. rewrite Nat2Z.id.
      rewrite !drop_ge by lia. reflexivity. }
  intros [Hpos Hle] older.
  rewrite !get_context_transcript; try assumption.
  - cbn [story_history set_story_history].
    rewrite last_events_older by lia. reflexivity.
  - cbn [story_history set_story_history]. intros Happ.
    apply app_eq_nil in Happ as [_ Hnil]. contradiction.
Qed.

Lemma get_context_window_witness :
  let s0 := fst (Sess.new "camp" "sessions" example_env) in
  let env0 := snd (Sess.new "camp" "sessions" example_env) in
  let s := fst (Story.add_events
                  [ ("player_action", "I open the door", None);
                    ("dm_response", "It creaks", None) ] s0 env0) in
  get_context 0 s
  = "Current Location: Starting Village" +:+ Py.nl +:+ Py.nl
    +:+ "Player: I open the door" +:+ Py.nl +:+ "DM: It creaks".
Proof.
  cbv zeta.
  destruct (get_context_window 0
              (fst (Story.add_events
                      [ ("player_action", "I open the door", None);
                        ("dm_response", "It creaks", None) ]
                      (fst (Sess.new "camp" "sessions" example_env))
                      (snd (Sess.new "camp" "sessions" example_env)))))
    as (_ & Hzero & _).
  - vm_compute. discriminate.
  - rewrite Hzero by reflexivity. vm_compute. reflexivity.
Defined.

End ContextWindowFacts.
